(** * Subsurface item models (qt-models/models.cpp): a shallow embedding

    The development follows the layout of [models.cpp]: the generic tree
    model, the dive list ([DiveItem], [DiveTripModel]), the dive computer
    table, the yearly statistics tree, and the two print models.

    Conventions.
    - C [int] and [unsigned int] values are integers in [Z]; the
      arithmetic that can wrap in the modelled code (the [unsigned]
      accumulator of [update_yearly_stats], the duration of
      [displayDuration], the key of [nitrox_sort_value]) has its
      wrap-around at 32 bits written out.
    - A call that dereferences a null pointer, indexes a [QList] or a C
      array out of range, or divides an integer by zero is undefined in the
      source; the embedding returns [Fault] there.
    - Objects that are shared through pointers ([TreeItem]s reachable from
      the root and from the [trips] map) live in an explicit heap, addressed
      by their allocation index.
    - Qt signals are recorded in an event trace. *)

From Stdlib Require Import ZArith Ascii String Floats Sorted.
From stdpp Require Import base option list gmap.

Local Open Scope Z_scope.

(** ** Results of fallible code *)

Inductive result (A : Type) : Type :=
| Ok (a : A)
| Fault.
Arguments Ok {A} a.
Arguments Fault {A}.

Definition bind {A B : Type} (r : result A) (k : A -> result B) : result B :=
  match r with
  | Ok a => k a
  | Fault => Fault
  end.

Notation "'let*' x := r 'in' k" := (bind r (fun x => k))
  (at level 10, x name, r at level 100, k at level 200, only parsing).

Definition from_option {A : Type} (o : option A) : result A :=
  match o with
  | Some a => Ok a
  | None => Fault
  end.

(** ** The slice of Qt the models use *)

Module Qt.

(** [enum Qt::ItemDataRole] *)
Definition DisplayRole : Z := 0.
Definition DecorationRole : Z := 1.
Definition EditRole : Z := 2.
Definition ToolTipRole : Z := 3.
Definition FontRole : Z := 6.
Definition TextAlignmentRole : Z := 7.
Definition BackgroundRole : Z := 8.
Definition SizeHintRole : Z := 13.
Definition UserRole : Z := 256.

(** [enum Qt::AlignmentFlag] *)
Definition AlignLeft : Z := 1.
Definition AlignRight : Z := 2.
Definition AlignVCenter : Z := 128.

(** [enum Qt::ItemFlag] *)
Definition NoItemFlags : Z := 0.
Definition ItemIsSelectable : Z := 1.
Definition ItemIsEditable : Z := 2.
Definition ItemIsEnabled : Z := 32.

End Qt.

(** A [QString] is a sequence of characters. *)
Definition QChar : Type := ascii.
Definition QString : Type := list QChar.

Definition newline : QChar := "010"%char.

Definition QChar_eqb (a b : QChar) : bool := Ascii.eqb a b.

(** [QString::length] *)
Definition QString_length (s : QString) : Z := Z.of_nat (length s).

(** [QString::left(n)]: the whole string when [n] is negative or not
    smaller than the size, the first [n] characters otherwise. *)
Definition QString_left (n : Z) (s : QString) : QString :=
  if (n <? 0) || (QString_length s <=? n) then s else take (Z.to_nat n) s.

(** A [QVariant] is observed only through its conversions. *)
Record QVariant : Type := mkQVariant {
  toInt : Z;
  toString : QString;
  toUInt : Z
}.

(** Addresses of heap-allocated items. *)
Abbreviation addr := nat (only parsing).

(** [QModelIndex]: row, column, the owning model (present or not) and the
    internal pointer. *)
Record QModelIndex : Type := mkIndex {
  row : Z;
  column : Z;
  has_model : bool;
  internalPointer : option addr
}.

(** [QModelIndex()] *)
Definition invalidIndex : QModelIndex := mkIndex (-1) (-1) false None.

(** [QModelIndex::isValid] *)
Definition isValid (i : QModelIndex) : bool :=
  (0 <=? row i) && (0 <=? column i) && has_model i.

(** [QList::at(i)]: asserts [0 <= i < size()]. *)
Definition QList_at {A : Type} (l : list A) (i : Z) : result A :=
  if i <? 0 then Fault else from_option (l !! Z.to_nat i).

(** Signals of [QAbstractItemModel] emitted by the begin/end brackets and by
    [dataChanged]. *)
Inductive event : Type :=
| RowsAboutToBeRemoved (first last : Z)
| RowsRemoved (first last : Z)
| RowsAboutToBeInserted (first last : Z)
| RowsInserted (first last : Z)
| DataChanged (topLeft bottomRight : QModelIndex)
| ModelAboutToBeReset
| ModelReset.

(** ** Table Print Model *)

Module TablePrintModel.

(** Modelled from the spec: [struct TablePrintItem] is declared in
    models.h, which is not among the sources; the seven text columns
    (number, date, depth, duration, divemaster, buddy, location) and the
    per-row background colour are the members [data] and [setData] use. *)
Record TablePrintItem : Type := mkItem {
  number : QString;
  date : QString;
  depth : QString;
  duration : QString;
  divemaster : QString;
  buddy : QString;
  location : QString;
  colorBackground : Z
}.

Definition emptyItem : TablePrintItem :=
  mkItem [] [] [] [] [] [] [] 0.

Definition set_number (v : QString) (it : TablePrintItem) :=
  mkItem v (date it) (depth it) (duration it) (divemaster it) (buddy it)
         (location it) (colorBackground it).
Definition set_date (v : QString) (it : TablePrintItem) :=
  mkItem (number it) v (depth it) (duration it) (divemaster it) (buddy it)
         (location it) (colorBackground it).
Definition set_depth (v : QString) (it : TablePrintItem) :=
  mkItem (number it) (date it) v (duration it) (divemaster it) (buddy it)
         (location it) (colorBackground it).
Definition set_duration (v : QString) (it : TablePrintItem) :=
  mkItem (number it) (date it) (depth it) v (divemaster it) (buddy it)
         (location it) (colorBackground it).
Definition set_divemaster (v : QString) (it : TablePrintItem) :=
  mkItem (number it) (date it) (depth it) (duration it) v (buddy it)
         (location it) (colorBackground it).
Definition set_buddy (v : QString) (it : TablePrintItem) :=
  mkItem (number it) (date it) (depth it) (duration it) (divemaster it) v
         (location it) (colorBackground it).
Definition set_location (v : QString) (it : TablePrintItem) :=
  mkItem (number it) (date it) (depth it) (duration it) (divemaster it)
         (buddy it) v (colorBackground it).
Definition set_colorBackground (v : Z) (it : TablePrintItem) :=
  mkItem (number it) (date it) (depth it) (duration it) (divemaster it)
         (buddy it) (location it) v.

Record model : Type := mkModel {
  list : list TablePrintItem;
  rows : Z;
  columns : Z;
  events : Datatypes.list event
}.

Definition set_list (l : Datatypes.list TablePrintItem) (m : model) : model :=
  mkModel l (rows m) (columns m) (events m).

(** [TablePrintModel::TablePrintModel] *)
Definition new : model := mkModel [] 0 7 [].

(** [QList::insert(i, x)]: prepends when [i <= 0], appends when
    [i >= size()]. *)
Definition QList_insert {A : Type} (i : Z) (x : A) (l : Datatypes.list A)
  : Datatypes.list A :=
  if i <=? 0 then x :: l
  else take (Z.to_nat i) l ++ x :: drop (Z.to_nat i) l.

(** [TablePrintModel::insertRow] *)
Definition insertRow (index : Z) (m : model) : model :=
  let item := set_colorBackground 4294967295 emptyItem in
  if index =? -1 then
    mkModel (list m ++ [item]) (rows m + 1) (columns m)
            (events m ++ [RowsAboutToBeInserted (rows m) (rows m);
                           RowsInserted (rows m) (rows m)])
  else
    mkModel (QList_insert index item (list m)) (rows m + 1) (columns m)
            (events m ++ [RowsAboutToBeInserted index index;
                           RowsInserted index index]).

Definition maxLines : Z := 15.

(** The scan of the [case 6] block: [rest] is the part of [s] from
    position [i] on, [count] the newlines met so far.  The result is the
    argument given to [s.left] when the loop breaks, [None] when the loop
    runs to the end of the string. *)
Fixpoint truncate_scan (rest : QString) (i count : Z) : option Z :=
  match rest with
  | [] => None
  | c :: rest' =>
      if negb (QChar_eqb c newline) then truncate_scan rest' (i + 1) count
      else
        let count' := count + 1 in
        if count' >? maxLines then Some (i - 1)
        else truncate_scan rest' (i + 1) count'
  end.

(** The text stored in [location] for a value [s]. *)
Definition truncate (s : QString) : QString :=
  match truncate_scan s 0 0 with
  | Some n => QString_left n s
  | None => s
  end.

(** The [switch (index.column())] of the display branch: control enters
    at the label of the column and falls through every later label, so the
    store of label [k] runs exactly when [column <= k]. *)
Definition store_from (col : Z) (value : QVariant) (it : TablePrintItem)
  : TablePrintItem :=
  let it := if col <=? 0 then set_number (toString value) it else it in
  let it := if col <=? 1 then set_date (toString value) it else it in
  let it := if col <=? 2 then set_depth (toString value) it else it in
  let it := if col <=? 3 then set_duration (toString value) it else it in
  let it := if col <=? 4 then set_divemaster (toString value) it else it in
  let it := if col <=? 5 then set_buddy (toString value) it else it in
  set_location (truncate (toString value)) it.

(** [TablePrintModel::setData] *)
Definition setData (m : model) (index : QModelIndex) (value : QVariant)
    (role : Z) : result (bool * model) :=
  if isValid index then
    if role =? Qt.DisplayRole then
      if (0 <=? column index) && (column index <=? 6) then
        let* it := QList_at (list m) (row index) in
        Ok (true,
            set_list (<[Z.to_nat (row index) :=
                          store_from (column index) value it]> (list m)) m)
      else Ok (true, m)
    else if role =? Qt.BackgroundRole then
      let* it := QList_at (list m) (row index) in
      Ok (true,
          set_list (<[Z.to_nat (row index) :=
                        set_colorBackground (toUInt value) it]> (list m)) m)
    else Ok (false, m)
  else Ok (false, m).

(** The text field shown in column [c] of a row. *)
Definition field (c : Z) (it : TablePrintItem) : option QString :=
  if c =? 0 then Some (number it)
  else if c =? 1 then Some (date it)
  else if c =? 2 then Some (depth it)
  else if c =? 3 then Some (duration it)
  else if c =? 4 then Some (divemaster it)
  else if c =? 5 then Some (buddy it)
  else if c =? 6 then Some (location it)
  else None.

(** What [data] returns. *)
Inductive value : Type :=
| NoValue
| Text (s : QString)
| Color (rgb : Z)
| Font (pointSize10 : Z) (bold : bool).

(** [TablePrintModel::data] *)
Definition data (m : model) (index : QModelIndex) (role : Z) : result value :=
  if negb (isValid index) then Ok NoValue
  else if role =? Qt.BackgroundRole then
    let* it := QList_at (list m) (row index) in Ok (Color (colorBackground it))
  else if (role =? Qt.DisplayRole)
          && (0 <=? column index) && (column index <=? 6) then
    let* it := QList_at (list m) (row index) in
    Ok (match field (column index) it with
        | Some s => Text s
        | None => NoValue
        end)
  else if role =? Qt.FontRole then
    Ok (Font 75 ((row index =? 0) && (column index =? 0)))
  else Ok NoValue.

(** [TablePrintModel::rowCount] *)
Definition rowCount (m : model) : Z := rows m.

(** [TablePrintModel::columnCount] *)
Definition columnCount (m : model) : Z := columns m.

End TablePrintModel.

(** ** Profile Print Model *)

Module ProfilePrintModel.

(** The fact a cell of the sheet holds.  The texts themselves come from
    helpers outside this file ([tr], [get_depth_string], ...); the layout
    is what [data] decides. *)
Inductive cell : Type :=
| DiveNumberAndDate
| MaxDepth
| Location
| Duration
| GasUsedHeading
| TagsHeading
| SacHeading
| WeightsHeading
| NotesHeading
| Notes
| DivemasterHeading
| BuddyHeading
| SuitHeading
| VizHeading
| RatingHeading
| Gases
| Tags
| Sac
| Weights
| Divemaster
| Buddy
| Suit
| Visibility
| Rating
| EmptyString.

Inductive value : Type :=
| NoValue
| Display (c : cell)
| Font (bold : bool)
| Alignment (flags : Z).

(** [ProfilePrintModel::rowCount] *)
Definition rowCount : Z := 12.

(** [ProfilePrintModel::columnCount] *)
Definition columnCount : Z := 5.

(** The [Qt::DisplayRole] case of [data], one [if] per source [if]. *)
Definition display (row col : Z) : cell :=
  if (row =? 0) && (col =? 0) then DiveNumberAndDate
  else if (row =? 0) && (col =? 3) then MaxDepth
  else if (row =? 1) && (col =? 0) then Location
  else if (row =? 1) && (col =? 3) then Duration
  else if (row =? 2) && (col =? 0) then GasUsedHeading
  else if (row =? 2) && (col =? 2) then TagsHeading
  else if (row =? 2) && (col =? 3) then SacHeading
  else if (row =? 2) && (col =? 4) then WeightsHeading
  else if (col =? 0) && (row =? 6) then NotesHeading
  else if (col =? 0) && (row =? 7) then Notes
  else if (row =? 4) && (col =? 0) then DivemasterHeading
  else if (row =? 4) && (col =? 1) then BuddyHeading
  else if (row =? 4) && (col =? 2) then SuitHeading
  else if (row =? 4) && (col =? 3) then VizHeading
  else if (row =? 4) && (col =? 4) then RatingHeading
  else if (row =? 3) && (col =? 0) then Gases
  else if (row =? 3) && (col =? 2) then Tags
  else if (row =? 3) && (col =? 3) then Sac
  else if (row =? 3) && (col =? 4) then Weights
  else if (row =? 5) && (col =? 0) then Divemaster
  else if (row =? 5) && (col =? 1) then Buddy
  else if (row =? 5) && (col =? 2) then Suit
  else if (row =? 5) && (col =? 3) then Visibility
  else if (row =? 5) && (col =? 4) then Rating
  else EmptyString.

(** The [Qt::TextAlignmentRole] case of [data]. *)
Definition alignment (row col : Z) : Z :=
  let align := Qt.AlignLeft in
  if (row <? 2) && (col =? 4) then Z.lor Qt.AlignRight Qt.AlignVCenter
  else align.

(** [ProfilePrintModel::data] *)
Definition data (index : QModelIndex) (role : Z) : value :=
  let row := row index in
  let col := column index in
  if role =? Qt.DisplayRole then Display (display row col)
  else if role =? Qt.FontRole then Font ((row =? 0) && (col =? 0))
  else if role =? Qt.TextAlignmentRole then Alignment (alignment row col)
  else NoValue.

(** Right alignment, whatever the vertical flag. *)
Definition right_aligned (v : value) : bool :=
  match v with
  | Alignment f => Z.testbit f 1
  | _ => false
  end.

Definition left_aligned (v : value) : bool :=
  match v with
  | Alignment f => Z.testbit f 0
  | _ => false
  end.

End ProfilePrintModel.

(** ** Statistics records *)

(** Modelled from the spec: [stats_t] is declared in statistics.h, which is
    not among the sources; these are the members this file reads (period
    label, dive count, the duration, depth, SAC and temperature aggregates,
    the combined temperature and its sample count, the year and trip
    marks).  Durations are in seconds, depths in mm, volumes in ml. *)

Record stats_t : Type := mkStats {
  period : Z;
  selection_size : Z;
  total_time : Z;
  shortest_time : Z;
  longest_time : Z;
  avg_depth : Z;
  min_depth : Z;
  max_depth : Z;
  avg_sac : Z;
  min_sac : Z;
  max_sac : Z;
  min_temp : Z;
  max_temp : Z;
  combined_temp : float;
  combined_count : Z;
  is_year : bool;
  is_trip : bool;
  stats_location : QString
}.

(** ** Tree Model *)

Module TreeModel.

(** The concrete classes derived from [TreeItem], with the data member
    each adds. *)
Inductive item_kind : Type :=
| PlainItem
| DiveItem (diveId : Z)
| TripItem (trip : nat)
| YearStatisticsItem (stats_interval : stats_t).

(** [class TreeItem] *)
Record TreeItem : Type := mkTreeItem {
  kind : item_kind;
  parent : option addr;
  children : list addr
}.

Abbreviation heap := (list TreeItem) (only parsing).

(** [new T()]: [TreeItem::TreeItem] sets [parent = NULL]. *)
Definition new (k : item_kind) (h : heap) : addr * heap :=
  (length h, h ++ [mkTreeItem k None []]).

(** [item->parent = p] *)
Definition set_parent (a : addr) (p : addr) (h : heap) : result heap :=
  let* it := from_option (h !! a) in
  Ok (<[a := mkTreeItem (kind it) (Some p) (children it)]> h).

(** [item->children.push_back(c)] (or [append]) *)
Definition push_back (a : addr) (c : addr) (h : heap) : result heap :=
  let* it := from_option (h !! a) in
  Ok (<[a := mkTreeItem (kind it) (parent it) (children it ++ [c])]> h).

(** [QList::indexOf]: position of the first occurrence, [-1] when absent *)
Fixpoint indexOf (l : list addr) (a : addr) (i : Z) : Z :=
  match l with
  | [] => -1
  | x :: l' => if Nat.eqb x a then i else indexOf l' a (i + 1)
  end.

(** [TreeItem::row] *)
Definition row (a : addr) (h : heap) : result Z :=
  let* it := from_option (h !! a) in
  match parent it with
  | Some p =>
      let* pit := from_option (h !! p) in Ok (indexOf (children pit) a 0)
  | None => Ok 0
  end.

(** [TreeModel::rowCount] for the default (invalid) parent index. *)
Definition rowCount (rootItem : addr) (h : heap) : result Z :=
  let* it := from_option (h !! rootItem) in
  Ok (Z.of_nat (length (children it))).

(** The children of an item, as the views read them. *)
Definition children_of (a : addr) (h : heap) : list addr :=
  match h !! a with
  | Some it => children it
  | None => []
  end.

End TreeModel.

(** ** Yearly Statistics Model *)

Module YearStatisticsItem.

(** The column enum of [class YearStatisticsItem]. *)
Definition YEAR : Z := 0.
Definition DIVES : Z := 1.
Definition TOTAL_TIME : Z := 2.
Definition AVERAGE_TIME : Z := 3.
Definition SHORTEST_TIME : Z := 4.
Definition LONGEST_TIME : Z := 5.
Definition AVG_DEPTH : Z := 6.
Definition MIN_DEPTH : Z := 7.
Definition MAX_DEPTH : Z := 8.
Definition AVG_SAC : Z := 9.
Definition MIN_SAC : Z := 10.
Definition MAX_SAC : Z := 11.
Definition AVG_TEMP : Z := 12.
Definition MIN_TEMP : Z := 13.
Definition MAX_TEMP : Z := 14.
Definition COLUMNS : Z := 15.

(** What [data] returns: "no value" (an invalid [QVariant]), or a value
    together with the formatting helper applied to it. *)
Inductive value : Type :=
| NoValue
| Font (bold : bool)
| Text (s : QString)
| Number (n : Z)
| TimeString (seconds : Z)
| Minutes (seconds : Z)
| DepthString (mm : Z)
| VolumeString (mliter : Z)
| Fixed1 (f : float).

(** C integer division: undefined for a zero divisor. *)
Definition int_div (a b : Z) : result Z :=
  if b =? 0 then Fault else Ok (Z.quot a b).

(** A [double] used as a condition: true unless it compares equal to
    zero. *)
Definition double_nonzero (f : float) : bool := negb (PrimFloat.eqb f 0%float).

(** [(double)n] for an [unsigned int] *)
Definition double_of_uint (n : Z) : float :=
  PrimFloat.of_uint63 (Uint63.of_Z n).

Section Data.

(** [get_temp_units(temp, NULL)], from the units helpers. *)
Variable get_temp_units : Z -> float.

(** [YearStatisticsItem::data] *)
Definition data (stats_interval : stats_t) (column role : Z) : result value :=
  if role =? Qt.FontRole then Ok (Font (is_year stats_interval))
  else if negb (role =? Qt.DisplayRole) then Ok NoValue
  else if column =? YEAR then
    if is_trip stats_interval then Ok (Text (stats_location stats_interval))
    else Ok (Number (period stats_interval))
  else if column =? DIVES then Ok (Number (selection_size stats_interval))
  else if column =? TOTAL_TIME then Ok (TimeString (total_time stats_interval))
  else if column =? AVERAGE_TIME then
    let* q := int_div (total_time stats_interval)
                      (selection_size stats_interval) in
    Ok (Minutes q)
  else if column =? SHORTEST_TIME then
    Ok (Minutes (shortest_time stats_interval))
  else if column =? LONGEST_TIME then Ok (Minutes (longest_time stats_interval))
  else if column =? AVG_DEPTH then Ok (DepthString (avg_depth stats_interval))
  else if column =? MIN_DEPTH then Ok (DepthString (min_depth stats_interval))
  else if column =? MAX_DEPTH then Ok (DepthString (max_depth stats_interval))
  else if column =? AVG_SAC then Ok (VolumeString (avg_sac stats_interval))
  else if column =? MIN_SAC then Ok (VolumeString (min_sac stats_interval))
  else if column =? MAX_SAC then Ok (VolumeString (max_sac stats_interval))
  else if column =? AVG_TEMP then
    if double_nonzero (combined_temp stats_interval)
       && negb (combined_count stats_interval =? 0)
    then Ok (Fixed1 (PrimFloat.div (combined_temp stats_interval)
                       (double_of_uint (combined_count stats_interval))))
    else Ok NoValue
  else if column =? MIN_TEMP then
    let value := get_temp_units (min_temp stats_interval) in
    if PrimFloat.ltb (-100)%float value then Ok (Fixed1 value) else Ok NoValue
  else if column =? MAX_TEMP then
    let value := get_temp_units (max_temp stats_interval) in
    if PrimFloat.ltb (-100)%float value then Ok (Fixed1 value) else Ok NoValue
  else Ok NoValue.

End Data.

End YearStatisticsItem.

Module YearlyStatisticsModel.

Import TreeModel.

(** The model: the item heap and the root. *)
Record model : Type := mkModel {
  items : heap;
  rootItem : addr;
  columns : Z
}.

(** [TreeModel::TreeModel] followed by [columns = COLUMNS] *)
Definition init : model :=
  let '(root, h) := new PlainItem [] in
  mkModel h root YearStatisticsItem.COLUMNS.

Definition uint_max : Z := 2 ^ 32.

(** The inner loop of [update_yearly_stats].  [ms] is the part of
    [stats_monthly] from index [month] on; reading past the end of the
    array is a [Fault].  Returns the heap and the new value of [month]. *)
Fixpoint month_loop (ms : list stats_t) (combined_months size : Z)
    (item : addr) (month : nat) (h : heap) : result (heap * nat) :=
  if combined_months <? size then
    match ms with
    | [] => Fault
    | m :: ms' =>
        let combined_months :=
          (combined_months + selection_size m) mod uint_max in
        let '(iChild, h) := new (YearStatisticsItem m) h in
        let* h := push_back item iChild h in
        let* h := set_parent iChild item h in
        month_loop ms' combined_months size item (S month) h
    end
  else Ok (h, month).

(** The outer loop: [ys] is the part of [stats_yearly] from index [i]
    on; the loop stops at the first entry whose [period] is zero. *)
Fixpoint year_loop (ys : list stats_t) (stats_monthly : list stats_t)
    (month : nat) (root : addr) (h : heap) : result (heap * nat) :=
  match ys with
  | [] => Fault
  | y :: ys' =>
      if period y =? 0 then Ok (h, month)
      else
        let '(item, h) := new (YearStatisticsItem y) h in
        let* hm := month_loop (drop month stats_monthly) 0
                              (selection_size y) item month h in
        let* h := push_back root item (fst hm) in
        let* h := set_parent item root h in
        year_loop ys' stats_monthly (snd hm) root h
  end.

(** The loop over [stats_by_trip] from index 1 on. *)
Fixpoint trip_loop (ts : list stats_t) (item : addr) (h : heap) : result heap :=
  match ts with
  | [] => Fault
  | t :: ts' =>
      if is_trip t then
        let '(iChild, h) := new (YearStatisticsItem t) h in
        let* h := push_back item iChild h in
        let* h := set_parent iChild item h in
        trip_loop ts' item h
      else Ok h
  end.

(** The three global arrays; [None] is a [NULL] pointer. *)
Record stats_globals : Type := mkGlobals {
  stats_yearly : option (list stats_t);
  stats_monthly : option (list stats_t);
  stats_by_trip : option (list stats_t)
}.

(** [YearlyStatisticsModel::update_yearly_stats]; the second component is
    the final value of [month]. *)
Definition update_yearly_stats (g : stats_globals) (m : model)
  : result (model * nat) :=
  let* hm :=
    match stats_yearly g with
    | None => Ok (items m, 0%nat)
    | Some ys =>
        year_loop ys (default [] (stats_monthly g)) 0 (rootItem m) (items m)
    end in
  let* h :=
    match stats_by_trip g with
    | None => Ok (fst hm)
    | Some [] => Fault
    | Some (t0 :: ts) =>
        if is_trip t0 then
          let '(item, h) := new (YearStatisticsItem t0) (fst hm) in
          let* h := trip_loop ts item h in
          let* h := push_back (rootItem m) item h in
          set_parent item (rootItem m) h
        else Ok (fst hm)
    end in
  Ok (mkModel h (rootItem m) (columns m), snd hm).

(** [YearlyStatisticsModel::YearlyStatisticsModel] *)
Definition create (g : stats_globals) : result (model * nat) :=
  update_yearly_stats g init.

(** The statistics records held by the children of an item, in order. *)
Definition child_stats (a : addr) (h : heap) : list (option stats_t) :=
  (fun c => match h !! c with
            | Some (mkTreeItem (YearStatisticsItem s) _ _) => Some s
            | _ => None
            end) <$> children_of a h.

End YearlyStatisticsModel.

(** ** The dive list: the store, [DiveItem] and [DiveTripModel] *)

(** Modelled from the spec: [struct dive] is declared in dive.h, which is
    not among the sources; a dive has a unique id, a number, and a trip
    identity ([divetrip], the trip pointer, [None] for [NULL]); [sac] stands
    for the members the cylinder update recomputes. *)
Record dive : Type := mkDive {
  id : Z;
  number : Z;
  divetrip : option nat;
  sac : Z
}.

(** Modelled from the spec: the domain store, that is the dive collection
    [dive_table] ([dive_table.nr] is the length of [dives]) and the dirty
    mark set by [mark_divelist_changed]. *)
Record store : Type := mkStore {
  dives : list dive;
  preexisting : Z;
  changed : bool
}.

Module DiveStore.

Definition set_number (v : Z) (d : dive) : dive :=
  mkDive (id d) v (divetrip d) (sac d).

(** Modelled from the spec: [get_dive(i)] of dive.h, the dive at an index
    of the collection, [NULL] outside [0 .. nr-1]. *)
Definition get_dive (i : nat) (s : store) : option dive := dives s !! i.

(** Modelled from the spec: [get_dive_by_uniq_id] of dive.h, the
    record-by-id lookup; this is the position of the dive it returns, the
    first dive of the collection with this id, [None] for [NULL]. *)
Fixpoint index_by_uniq_id (l : list dive) (uid : Z) : option nat :=
  match l with
  | [] => None
  | d :: l' =>
      if id d =? uid then Some 0%nat
      else S <$> index_by_uniq_id l' uid
  end.

(** Modelled from the spec: the macro [for_each_dive] of dive.h iterates
    over the dive collection in index order; this is the loop
    [for_each_dive (i, d) if (d->number == v) return false]. *)
Definition number_in_use (v : Z) (s : store) : bool :=
  existsb (fun d => number d =? v) (dives s).

(** Modelled from the spec: [mark_divelist_changed(true)], the "mark
    dirty" signal of the store. *)
Definition mark_divelist_changed (s : store) : store :=
  mkStore (dives s) (preexisting s) true.

End DiveStore.

Module DiveItem.

Import DiveStore.

(** Modelled from the spec: the column enum of [DiveTripModel] is declared
    in models.h, which is not among the sources; the fourteen columns in
    their fixed order. *)
Definition NR : Z := 0.
Definition DATE : Z := 1.
Definition RATING : Z := 2.
Definition DEPTH : Z := 3.
Definition DURATION : Z := 4.
Definition TEMPERATURE : Z := 5.
Definition TOTALWEIGHT : Z := 6.
Definition SUIT : Z := 7.
Definition CYLINDER : Z := 8.
Definition GAS : Z := 9.
Definition SAC : Z := 10.
Definition OTU : Z := 11.
Definition MAXCNS : Z := 12.
Definition LOCATION : Z := 13.
Definition COLUMNS : Z := 14.

(** [TreeItem::flags] *)
Definition TreeItem_flags : Z := Z.lor Qt.ItemIsEnabled Qt.ItemIsSelectable.

(** [DiveItem::flags] *)
Definition flags (index : QModelIndex) : Z :=
  if column index =? NR then Z.lor TreeItem_flags Qt.ItemIsEditable
  else TreeItem_flags.

(** [DiveItem::setData] for the item holding [diveId]. *)
Definition setData (diveId : Z) (index : QModelIndex) (value : QVariant)
    (role : Z) (s : store) : result (bool * store) :=
  if negb (role =? Qt.EditRole) then Ok (false, s)
  else if negb (column index =? NR) then Ok (false, s)
  else
    let v := toInt value in
    if v =? 0 then Ok (false, s)
    else if number_in_use v s then Ok (false, s)
    else
      let* k := from_option (index_by_uniq_id (dives s) diveId) in
      let* d := from_option (dives s !! k) in
      Ok (true,
          mark_divelist_changed
            (mkStore (<[k := set_number (toInt value) d]> (dives s))
                     (preexisting s) (changed s))).

End DiveItem.

Module DiveTripModel.

Import TreeModel DiveStore.

(** Modelled from the spec: [enum Layout] is declared in models.h; the
    two layout modes, [TREE] (grouped) and [LIST] (flat). *)
Inductive Layout : Type := TREE | LIST.

Record model : Type := mkModel {
  items : heap;
  rootItem : addr;
  columns : Z;
  trips : gmap nat addr;
  currentLayout : Layout;
  autogroup : bool;
  events : list event
}.

Definition set_items (h : heap) (m : model) : model :=
  mkModel h (rootItem m) (columns m) (trips m) (currentLayout m)
          (autogroup m) (events m).

Definition set_trips (t : gmap nat addr) (m : model) : model :=
  mkModel (items m) (rootItem m) (columns m) t (currentLayout m)
          (autogroup m) (events m).

Definition emit (es : list event) (m : model) : model :=
  mkModel (items m) (rootItem m) (columns m) (trips m) (currentLayout m)
          (autogroup m) (events m ++ es).

(** [DiveTripModel::DiveTripModel]: the base constructor allocates the
    root, the body sets the column count; the constructor assigns neither
    [currentLayout] nor [autogroup], so they are arguments here. *)
Definition init (layout : Layout) (autogroup : bool) : model :=
  let '(root, h) := new PlainItem [] in
  mkModel h root DiveItem.COLUMNS ∅ layout autogroup [].

(** [rowCount()] of the root *)
Definition rowCount (m : model) : result Z :=
  TreeModel.rowCount (rootItem m) (items m).

(** [beginRemoveRows(QModelIndex(), first, last); endRemoveRows();] *)
Definition remove_bracket (first last : Z) (m : model) : model :=
  emit [RowsAboutToBeRemoved first last; RowsRemoved first last] m.

(** [beginInsertRows(QModelIndex(), first, last); endInsertRows();] *)
Definition insert_bracket (first last : Z) (m : model) : model :=
  emit [RowsAboutToBeInserted first last; RowsInserted first last] m.

Section Domain.

(** [autogroup_dives()], acting on the dive table, and
    [update_cylinder_related_info(dive)], acting on one dive: both are
    defined outside this file and are parameters of the build. *)
Variable autogroup_dives : list dive -> list dive.
Variable update_cylinder_related_info : dive -> dive.

(** [update_cylinder_related_info(get_dive(i))]; nothing happens for a
    [NULL] dive. *)
Definition update_dive (i : nat) (s : store) : store :=
  match dives s !! i with
  | Some d =>
      mkStore (<[i := update_cylinder_related_info d]> (dives s))
              (preexisting s) (changed s)
  | None => s
  end.

(** One turn of the [while (--i >= 0)] loop, for the decremented [i]. *)
Definition visit (i : nat) (ms : model * store) : result (model * store) :=
  let '(m, s) := ms in
  let s := update_dive i s in
  let* dive := from_option (get_dive i s) in
  let trip := divetrip dive in
  let '(diveItem, h) := new (DiveItem (id dive)) (items m) in
  match trip, currentLayout m with
  | None, _ | _, LIST =>
      let* h := set_parent diveItem (rootItem m) h in
      let* h := push_back (rootItem m) diveItem h in
      Ok (set_items h m, s)
  | Some trip, TREE =>
      match trips m !! trip with
      | None =>
          let '(tripItem, h) := new (TripItem trip) h in
          let* h := set_parent tripItem (rootItem m) h in
          let* h := push_back tripItem diveItem h in
          let* h := push_back (rootItem m) tripItem h in
          Ok (set_trips (<[trip := tripItem]> (trips m)) (set_items h m), s)
      | Some tripItem =>
          let* h := push_back tripItem diveItem h in
          Ok (set_items h m, s)
      end
  end.

(** [while (--i >= 0) { ... }] *)
Fixpoint walk (i : nat) (ms : model * store) : result (model * store) :=
  match i with
  | O => Ok ms
  | S i' => let* ms := visit i' ms in walk i' ms
  end.

(** [DiveTripModel::setupModelData] *)
Definition setupModelData (m : model) (s : store) : result (model * store) :=
  let i := length (dives s) in
  let* n := rowCount m in
  let m := if n =? 0 then m else remove_bracket 0 (n - 1) m in
  let s := if autogroup m
           then mkStore (autogroup_dives (dives s)) (preexisting s) (changed s)
           else s in
  let s := mkStore (dives s) (Z.of_nat (length (dives s))) (changed s) in
  let* ms := walk i (m, s) in
  let* n := rowCount (fst ms) in
  Ok (if n =? 0 then fst ms else insert_bracket 0 (n - 1) (fst ms), snd ms).

(** [DiveTripModel::setLayout] *)
Definition setLayout (layout : Layout) (m : model) (s : store)
  : result (model * store) :=
  setupModelData
    (mkModel (items m) (rootItem m) (columns m) (trips m) layout
             (autogroup m) (events m)) s.

End Domain.

(** [DiveTripModel::setData]: the [dynamic_cast] succeeds on dive items
    only. *)
Definition setData (m : model) (index : QModelIndex) (value : QVariant)
    (role : Z) (s : store) : result (bool * store) :=
  match internalPointer index with
  | None => Ok (false, s)
  | Some a =>
      let* it := from_option (items m !! a) in
      match kind it with
      | DiveItem diveId => DiveItem.setData diveId index value role s
      | _ => Ok (false, s)
      end
  end.

#[local] Set Warnings "-register-all".

(** The tree below the root, as a consumer walking [index]/[rowCount]
    sees it. *)
Inductive node : Type :=
| Dive (diveId : Z)
| Trip (trip : nat) (dives : list node)
| Other (rows : list node).

Fixpoint view (depth : nat) (h : heap) (a : addr) : option node :=
  match depth with
  | O => None
  | S depth' =>
      it ← h !! a;
      let rows := omap (view depth' h) (children it) in
      Some match kind it with
           | DiveItem uid => Dive uid
           | TripItem t => Trip t rows
           | _ => Other rows
           end
  end.

(** The rows under the root. *)
Definition root_rows (m : model) : list node :=
  omap (view 2 (items m)) (children_of (rootItem m) (items m)).

End DiveTripModel.

(** ** Dive Computer Model *)

(** Modelled from the spec: [class DiveComputerNode] is declared outside
    this file; an entry holds device id, model and nickname, and two entries
    are equal when all their members are. *)
Record DiveComputerNode : Type := mkNode {
  model : QString;
  deviceId : Z;
  nickName : QString
}.

#[global] Instance DiveComputerNode_eq_dec : EqDecision DiveComputerNode.
Proof. solve_decision. Defined.

(** [QString::operator<]: lexicographic on the character codes. *)
Fixpoint QString_ltb (a b : QString) : bool :=
  match a, b with
  | _, [] => false
  | [], _ :: _ => true
  | x :: a', y :: b' =>
      if (nat_of_ascii x <? nat_of_ascii y)%nat then true
      else if (nat_of_ascii y <? nat_of_ascii x)%nat then false
      else QString_ltb a' b'
  end.

(** [QMultiMap<QString, DiveComputerNode>]: the entries in iteration order,
    that is by ascending key and, among equal keys, from the most recently
    inserted to the least recently inserted. *)
Module QMultiMap.

Definition t : Type := list (QString * DiveComputerNode).

(** [QMultiMap::values()] *)
Definition values (m : t) : list DiveComputerNode := snd <$> m.

(** [QMultiMap::insert(key, value)]: the new entry goes in front of the
    first entry whose key is not smaller than [key]. *)
Fixpoint insert (key : QString) (value : DiveComputerNode) (m : t) : t :=
  match m with
  | [] => [(key, value)]
  | (k, v) :: m' =>
      if QString_ltb k key then (k, v) :: insert key value m'
      else (key, value) :: m
  end.

(** Two keys are the same when neither is smaller than the other. *)
Definition same_key (a b : QString) : bool :=
  negb (QString_ltb a b) && negb (QString_ltb b a).

(** [QMultiMap::remove(key, value)]: drops every entry with this key and
    an equal value. *)
Definition remove (key : QString) (value : DiveComputerNode) (m : t) : t :=
  List.filter
    (fun kv => negb (same_key (fst kv) key && bool_decide (snd kv = value))) m.

End QMultiMap.

Module DiveComputerModel.

(** Modelled from the spec: the column enum of [DiveComputerModel] is
    declared in models.h; the columns in the order of the header strings
    set by the constructor (the "remove" pseudo-column first). *)
Definition REMOVE : Z := 0.
Definition MODEL : Z := 1.
Definition ID : Z := 2.
Definition NICKNAME : Z := 3.
Definition COLUMNS : Z := 4.

Record state : Type := mkState {
  dcWorkingMap : QMultiMap.t;
  numRows : Z;
  events : list event
}.

(** [DiveComputerModel::DiveComputerModel] *)
Definition init (dcMap : QMultiMap.t) : state := mkState dcMap 0 [].

(** [DiveComputerModel::rowCount] *)
Definition rowCount (m : state) : Z := numRows m.

(** [DiveComputerModel::update] *)
Definition update (m : state) : state :=
  let count := Z.of_nat (length (QMultiMap.values (dcWorkingMap m))) in
  let m :=
    if numRows m =? 0 then m
    else mkState (dcWorkingMap m) 0
           (events m ++ [RowsAboutToBeRemoved 0 (numRows m - 1);
                          RowsRemoved 0 (numRows m - 1)]) in
  if count =? 0 then m
  else mkState (dcWorkingMap m) count
         (events m ++ [RowsAboutToBeInserted 0 (count - 1);
                        RowsInserted 0 (count - 1)]).

(** [QAbstractItemModel::flags] *)
Definition QAbstractItemModel_flags (index : QModelIndex) : Z :=
  if isValid index then Z.lor Qt.ItemIsSelectable Qt.ItemIsEnabled
  else Qt.NoItemFlags.

(** [DiveComputerModel::flags] *)
Definition flags (index : QModelIndex) : Z :=
  let flags := QAbstractItemModel_flags index in
  if column index =? NICKNAME then Z.lor flags Qt.ItemIsEditable else flags.

Definition editable (f : Z) : bool := Z.testbit f 1.

(** [DiveComputerModel::setData] *)
Definition setData (m : state) (index : QModelIndex) (value : QVariant)
    (role : Z) : result (bool * state) :=
  let values := QMultiMap.values (dcWorkingMap m) in
  let* node := QList_at values (row index) in
  let map := QMultiMap.remove (model node) node (dcWorkingMap m) in
  let node := mkNode (model node) (deviceId node) (toString value) in
  let map := QMultiMap.insert (model node) node map in
  Ok (true, mkState map (numRows m) (events m ++ [DataChanged index index])).

(** [DiveComputerModel::remove] *)
Definition remove (m : state) (index : QModelIndex) : result state :=
  let values := QMultiMap.values (dcWorkingMap m) in
  let* node := QList_at values (row index) in
  Ok (update (mkState (QMultiMap.remove (model node) node (dcWorkingMap m))
                      (numRows m) (events m))).

End DiveComputerModel.

(** ** Tree Model: addresses *)

Module TreeModelIndex.

Import TreeModel.

(** [createIndex(row, column, ptr)] *)
Definition createIndex (row column : Z) (ptr : addr) : QModelIndex :=
  mkIndex row column true (Some ptr).

(** The item an index stands for when used as a parent: the root for an
    invalid index, the internal pointer otherwise (a null pointer is
    dereferenced by the callers, hence [Fault]). *)
Definition parentItem_of (rootItem : addr) (parent : QModelIndex)
  : result addr :=
  if negb (isValid parent) then Ok rootItem
  else from_option (internalPointer parent).

(** [TreeModel::rowCount(parent)] *)
Definition rowCount (rootItem : addr) (h : heap) (parent : QModelIndex)
  : result Z :=
  let* parentItem := parentItem_of rootItem parent in
  let* it := from_option (h !! parentItem) in
  Ok (Z.of_nat (length (children it))).

(** [QAbstractItemModel::hasIndex(row, column, parent)] *)
Definition hasIndex (rootItem : addr) (columns : Z) (h : heap)
    (row column : Z) (parent : QModelIndex) : result bool :=
  if (row <? 0) || (column <? 0) then Ok false
  else
    let* n := rowCount rootItem h parent in
    Ok ((row <? n) && (column <? columns)).

(** [TreeModel::index(row, column, parent)] *)
Definition index (rootItem : addr) (columns : Z) (h : heap)
    (row column : Z) (parent : QModelIndex) : result QModelIndex :=
  let* ok := hasIndex rootItem columns h row column parent in
  if negb ok then Ok invalidIndex
  else
    let* parentItem := parentItem_of rootItem parent in
    let* it := from_option (h !! parentItem) in
    let* childItem := QList_at (children it) row in
    Ok (createIndex row column childItem).

(** [TreeModel::parent(index)] *)
Definition parent_of (rootItem : addr) (h : heap) (index : QModelIndex)
  : result QModelIndex :=
  if negb (isValid index) then Ok invalidIndex
  else
    let* childItem := from_option (internalPointer index) in
    let* it := from_option (h !! childItem) in
    match parent it with
    | None => Ok invalidIndex
    | Some parentItem =>
        if Nat.eqb parentItem rootItem then Ok invalidIndex
        else
          let* r := TreeModel.row parentItem h in
          Ok (createIndex r 0 parentItem)
    end.

End TreeModelIndex.

(** ** Dive list: texts and sort keys *)

Module TripItem.

(** Modelled from the spec: [dive_trip_t] is declared in dive.h, which is
    not among the sources; a trip has a location (a C string, [None] for
    [NULL]), a date, its total dive count [nrdives], and the list of its
    dives, of which the label reads the [hidden_by_filter] mark. *)
Record dive_trip_t : Type := mkTrip {
  location : option QString;
  when : Z;
  nrdives : Z;
  hidden_by_filter : list bool
}.

(** The [while (d)] loop over the dives of the trip. *)
Fixpoint countShown (hidden : list bool) (count : Z) : Z :=
  match hidden with
  | [] => count
  | h :: hidden' => countShown hidden' (if negb h then count + 1 else count)
  end.

(** The label of a trip: the location when there is a non-empty one, the
    arguments of [get_trip_date_string], and the count of the
    [" (%1 shown)"] suffix when there is one. *)
Record label : Type := mkLabel {
  label_location : option QString;
  label_when : Z;
  label_nrdives : Z;
  label_shown : option Z
}.

(** [TripItem::data], the [NR] case of the display role. *)
Definition display_NR (trip : dive_trip_t) : label :=
  let n := countShown (hidden_by_filter trip) 0 in
  let shownText := if n <? nrdives trip then Some n else None in
  match location trip with
  | Some (c :: s) =>
      mkLabel (Some (c :: s)) (when trip) (nrdives trip) shownText
  | _ => mkLabel None (when trip) (nrdives trip) shownText
  end.

End TripItem.

Module DiveItemDisplay.

(** The arithmetic of the two 32-bit integer types of the code, with the
    wrap-around written out: [to_uint] is the value of an [unsigned int] or
    [uint32_t] expression, and the conversion of an [int] to it; [to_int] is
    the two's-complement value of an [int] expression (what the compiled
    code computes when the exact value does not fit), and the conversion
    of an unsigned value to [int]. *)
Definition to_uint (x : Z) : Z := x mod 4294967296.

Definition to_int (x : Z) : Z := (x + 2147483648) mod 4294967296 - 2147483648.

(** [nitrox_sort_value], for the [int] values [o2] and [he] that
    [get_dive_gas] reports (permille); the product and the sum are computed
    in [int]. *)
Definition nitrox_sort_value (o2 he : Z) : Z :=
  to_int (to_int (he * 1000) + o2).

(** [dive_table_alignment]; [None] is the invalid [QVariant]. *)
Definition dive_table_alignment (column : Z) : option Z :=
  if (column =? DiveItem.DEPTH) || (column =? DiveItem.DURATION)
     || (column =? DiveItem.TEMPERATURE) || (column =? DiveItem.TOTALWEIGHT)
     || (column =? DiveItem.SAC) || (column =? DiveItem.OTU)
     || (column =? DiveItem.MAXCNS)
  then Some (Z.lor Qt.AlignRight Qt.AlignVCenter)
  else if (column =? DiveItem.NR) || (column =? DiveItem.DATE)
          || (column =? DiveItem.RATING) || (column =? DiveItem.SUIT)
          || (column =? DiveItem.CYLINDER) || (column =? DiveItem.GAS)
          || (column =? DiveItem.LOCATION)
  then Some (Z.lor Qt.AlignLeft Qt.AlignVCenter)
  else None.

(** The three formats of [DiveItem::displayDuration]: ["%1:%2"] (hours,
    minutes on two digits), ["%1m%2s"] (minutes, seconds on two digits) and
    ["%1"] (minutes). *)
Inductive duration_text : Type :=
| HoursMinutes (hrs mins : Z)
| MinutesSeconds (fullmins secs : Z)
| Minutes (mins : Z).

(** [DiveItem::displayDuration], for the [duration.seconds] of the dive, a
    [uint32_t] (a value from 0 to 2^32 - 1), and whether its dive mode is
    [FREEDIVE].  The sum [seconds + 59], the quotient [seconds / 60] and the
    difference [seconds - 60 * fullmins] are unsigned expressions, stored
    in the [int] locals; the product [60 * fullmins] and the arithmetic on
    [hrs] and [mins] are [int] expressions. *)
Definition displayDuration (seconds : Z) (freedive : bool) : duration_text :=
  let mins := to_int (Z.quot (to_uint (seconds + 59)) 60) in
  let fullmins := to_int (Z.quot seconds 60) in
  let secs := to_int (to_uint (seconds - to_uint (to_int (60 * fullmins)))) in
  let hrs := to_int (Z.quot mins 60) in
  let mins := to_int (mins - to_int (hrs * 60)) in
  if negb (hrs =? 0) then HoursMinutes hrs mins
  else if (mins <? 15) || freedive then MinutesSeconds fullmins secs
  else Minutes mins.

End DiveItemDisplay.

Module DiveTripModelFlags.

Import TreeModel.

(** [DiveTripModel::flags]: the virtual call lands in [DiveItem::flags] for
    a dive item and in [TreeItem::flags] for every other item. *)
Definition flags (h : heap) (index : QModelIndex) : result Z :=
  if negb (isValid index) then Ok 0
  else
    let* item := from_option (internalPointer index) in
    let* it := from_option (h !! item) in
    match kind it with
    | DiveItem _ => Ok (DiveItem.flags index)
    | _ => Ok DiveItem.TreeItem_flags
    end.

End DiveTripModelFlags.

(** ** Dive Computer Model: reading and committing *)

Module DiveComputerModelData.

Import DiveComputerModel.

(** What [data] returns: the three texts, and the fixed "remove"
    affordance (icon, its size, its tooltip). *)
Inductive value : Type :=
| NoValue
| HexId (deviceId : Z)
| Text (s : QString)
| TrashIcon
| TrashIconSize
| RemoveToolTip.

(** [DiveComputerModel::data] *)
Definition data (m : state) (index : QModelIndex) (role : Z) : result value :=
  let values := QMultiMap.values (dcWorkingMap m) in
  let* node := QList_at values (row index) in
  let ret :=
    if (role =? Qt.DisplayRole) || (role =? Qt.EditRole) then
      if column index =? ID then HexId (deviceId node)
      else if column index =? MODEL then Text (model node)
      else if column index =? NICKNAME then Text (nickName node)
      else NoValue
    else NoValue in
  Ok (if column index =? REMOVE then
        if role =? Qt.DecorationRole then TrashIcon
        else if role =? Qt.SizeHintRole then TrashIconSize
        else if role =? Qt.ToolTipRole then RemoveToolTip
        else ret
      else ret).

(** [QMap::operator==]: same size, and entry by entry equal values and
    keys of which neither is smaller than the other. *)
Fixpoint QMultiMap_eqb (a b : QMultiMap.t) : bool :=
  match a, b with
  | [], [] => true
  | (k1, v1) :: a', (k2, v2) :: b' =>
      bool_decide (v1 = v2) && QMultiMap.same_key k1 k2 && QMultiMap_eqb a' b'
  | _, _ => false
  end.

(** [DiveComputerModel::keepWorkingList], on the committed map
    [dcList.dcMap] and the store. *)
Definition keepWorkingList (m : state) (dcMap : QMultiMap.t) (s : store)
  : QMultiMap.t * store :=
  let s := if negb (QMultiMap_eqb dcMap (dcWorkingMap m))
           then DiveStore.mark_divelist_changed s else s in
  (dcWorkingMap m, s).

(** [DiveComputerModel::dropWorkingList] *)
Definition dropWorkingList (m : state) : state := m.

End DiveComputerModelData.

(** ** Notions used in the statements *)

(** Number of newline characters of a string. *)
Fixpoint newlines (s : QString) : Z :=
  match s with
  | [] => 0
  | c :: s' => (if QChar_eqb c newline then 1 else 0) + newlines s'
  end.

(** A text of twenty lines, each ended by a newline. *)
Definition twenty_lines : QString :=
  concat (replicate 20 ["a"; "b"; newline]%char).

(** A print table with one row, and the address of its location cell. *)
Definition one_row_table : TablePrintModel.model :=
  TablePrintModel.insertRow (-1) TablePrintModel.new.

Definition cell_at (r c : Z) : QModelIndex := mkIndex r c true None.

Definition text_value (s : QString) : QVariant := mkQVariant 0 s 0.

(** The writes the specification counts as supported by the print table:
    an edit-role write to one of the seven text columns, or a background
    write, at a valid index. *)
Definition spec_supported_write (index : QModelIndex) (role : Z) : bool :=
  isValid index
  && (((role =? Qt.EditRole) && (0 <=? column index) && (column index <=? 6))
      || (role =? Qt.BackgroundRole)).

(** A statistics interval with another dive count, or another combined
    temperature sample count. *)
Definition with_selection_size (n : Z) (s : stats_t) : stats_t :=
  mkStats (period s) n (total_time s) (shortest_time s) (longest_time s)
          (avg_depth s) (min_depth s) (max_depth s) (avg_sac s) (min_sac s)
          (max_sac s) (min_temp s) (max_temp s) (combined_temp s)
          (combined_count s) (is_year s) (is_trip s) (stats_location s).

Definition with_combined_count (n : Z) (s : stats_t) : stats_t :=
  mkStats (period s) (selection_size s) (total_time s) (shortest_time s)
          (longest_time s) (avg_depth s) (min_depth s) (max_depth s)
          (avg_sac s) (min_sac s) (max_sac s) (min_temp s) (max_temp s)
          (combined_temp s) n (is_year s) (is_trip s) (stats_location s).

(** The dive counts of a run of statistics buckets, added up. *)
Fixpoint total_dives (ms : list stats_t) : Z :=
  match ms with
  | [] => 0
  | m :: ms' => selection_size m + total_dives ms'
  end.

(** A statistics bucket with a period and a dive count, nothing else
    recorded. *)
Definition bucket (p n : Z) : stats_t :=
  mkStats p n 0 0 0 0 0 0 0 0 0 0 0 0%float 0 false false [].

(** A year of twelve dives followed by the terminating entry, and thirteen
    monthly buckets of one dive each. *)
Definition one_year : list stats_t := [bucket 2014 12; bucket 0 0].

Definition thirteen_months : list stats_t :=
  (fun p => bucket p 1) <$> [1; 2; 3; 4; 5; 6; 7; 8; 9; 10; 11; 12; 13].

Definition year_globals : YearlyStatisticsModel.stats_globals :=
  YearlyStatisticsModel.mkGlobals (Some one_year) (Some thirteen_months) None.

(** The store of the grouped-list example: [d1] and [d2] in trip [T1], [d3]
    in no trip, [d4] in trip [T2], in this order. *)
Definition example_store (d1 d2 d3 d4 : Z) (T1 T2 : nat) : store :=
  mkStore [mkDive d1 1 (Some T1) 0; mkDive d2 2 (Some T1) 0;
           mkDive d3 3 None 0; mkDive d4 4 (Some T2) 0] 0 false.

Definition int_value (v : Z) : QVariant := mkQVariant v [] v.

(** The numbers the specification lets a dive take: nonzero, and not the
    number of a different dive. *)
Definition spec_number_accepted (diveId v : Z) (s : store) : bool :=
  negb (v =? 0)
  && negb (existsb (fun d => negb (id d =? diveId) && (number d =? v))
             (dives s)).

(** [h'] keeps every item of [h], with the children it had in front of
    those added since. *)
Definition grows (h h' : list TreeModel.TreeItem) : Prop :=
  forall a it, h !! a = Some it ->
    exists it', h' !! a = Some it'
                /\ exists extra,
                     TreeModel.children it' = TreeModel.children it ++ extra.

(** A working map with one device, and the edits the specification lets
    the device list accept: an edit-role write to the nickname column. *)
Definition one_device : DiveComputerModel.state :=
  DiveComputerModel.update
    (DiveComputerModel.init
       (QMultiMap.insert ["X"]%char
          (mkNode ["X"]%char 1 ["o"; "l"; "d"]%char) [])).

Definition spec_edit_accepted (index : QModelIndex) (role : Z) : bool :=
  (column index =? DiveComputerModel.NICKNAME) && (role =? Qt.EditRole).

(** The print table keeps its row counter equal to the size of its row
    buffer. *)
Definition rows_consistent (m : TablePrintModel.model) : Prop :=
  TablePrintModel.rows m = Z.of_nat (length (TablePrintModel.list m)).

(** The row a fresh [insertRow] puts in the buffer. *)
Definition blank_row : TablePrintModel.TablePrintItem :=
  TablePrintModel.set_colorBackground 4294967295 TablePrintModel.emptyItem.

(** Display-role writes to row [r], one value per column, from column [col]
    upwards. *)
Fixpoint write_columns (m : TablePrintModel.model) (r col : Z)
    (vs : list QVariant) : result TablePrintModel.model :=
  match vs with
  | [] => Ok m
  | v :: vs' =>
      let* bm := TablePrintModel.setData m (cell_at r col) v Qt.DisplayRole in
      write_columns (snd bm) r (col + 1) vs'
  end.

(** No two dives of the store share a nonzero number. *)
Definition numbers_unique (s : store) : Prop :=
  forall i j di dj, i <> j ->
    dives s !! i = Some di -> dives s !! j = Some dj ->
    number di <> 0 -> number di <> number dj.

(** The [Qt::ItemIsEditable] bit of a flag set. *)
Definition has_editable (f : Z) : bool := Z.testbit f 1.

(** Number of dives of a trip that the filter does not hide. *)
Definition visible_dives (hidden : list bool) : Z :=
  Z.of_nat (length (filter (fun h => h = false) hidden)).

(** Every entry of a device map sits under the model of its node, as the
    entries inserted by [setData] do. *)
Definition keyed_by_model (m : QMultiMap.t) : Prop :=
  Forall (fun kv => kv.1 = model kv.2) m.

(** The keys of a device map are strictly ascending: no two devices of the
    same model. *)
Definition one_device_per_model (m : QMultiMap.t) : Prop :=
  StronglySorted (fun a b => QString_ltb a.1 b.1 = true) m.

(** Every item of the heap has no parent or the root as its parent. *)
Definition parents_are_root (h : list TreeModel.TreeItem) (root : addr)
  : Prop :=
  forall a it, h !! a = Some it ->
    TreeModel.parent it = None \/ TreeModel.parent it = Some root.

(** The rows of the dive list are well formed: the root is an item, its
    children are distinct items whose parent is the root, and the [trips]
    map points to items other than the root. *)
Definition rows_well_formed (m : DiveTripModel.model) : Prop :=
  exists rit,
    DiveTripModel.items m !! DiveTripModel.rootItem m = Some rit
    /\ NoDup (TreeModel.children rit)
    /\ (forall c, c ∈ TreeModel.children rit ->
        exists it, DiveTripModel.items m !! c = Some it
                   /\ TreeModel.parent it = Some (DiveTripModel.rootItem m))
    /\ (forall t a, DiveTripModel.trips m !! t = Some a ->
        a <> DiveTripModel.rootItem m
        /\ (a < length (DiveTripModel.items m))%nat).

(** The first half of [update_yearly_stats]: the loop over the years, which
    gives the heap and the month counter the trip half starts from. *)
Definition year_part (g : YearlyStatisticsModel.stats_globals)
    (m : YearlyStatisticsModel.model)
  : result (list TreeModel.TreeItem * nat) :=
  match YearlyStatisticsModel.stats_yearly g with
  | None => Ok (YearlyStatisticsModel.items m, 0%nat)
  | Some ys =>
      YearlyStatisticsModel.year_loop ys
        (default [] (YearlyStatisticsModel.stats_monthly g)) 0
        (YearlyStatisticsModel.rootItem m) (YearlyStatisticsModel.items m)
  end.

(** A statistics bucket marked as a trip aggregate. *)
Definition with_is_trip (s : stats_t) : stats_t :=
  mkStats (period s) (selection_size s) (total_time s) (shortest_time s)
          (longest_time s) (avg_depth s) (min_depth s) (max_depth s)
          (avg_sac s) (min_sac s) (max_sac s) (min_temp s) (max_temp s)
          (combined_temp s) (combined_count s) (is_year s) true
          (stats_location s).

(** * Properties *)

(** ** Table Print Model: the newline truncation *)

Lemma newlines_nonneg (s : QString) : 0 <= newlines s.
Proof.
  induction s as [|c s IH]; simpl; [lia|].
  destruct (QChar_eqb c newline); lia.
Qed.

Lemma newlines_app (s t : QString) :
  newlines (s ++ t) = newlines s + newlines t.
Proof. induction s as [|c s IH]; simpl; [lia | rewrite IH; lia]. Qed.

Lemma truncate_scan_none (rest : QString) (i count : Z) :
  count + newlines rest <= TablePrintModel.maxLines ->
  TablePrintModel.truncate_scan rest i count = None.
Proof.
  revert i count.
  induction rest as [|c rest IH]; intros i count Hle; simpl in *; [done|].
  pose proof (newlines_nonneg rest) as Hn.
  destruct (QChar_eqb c newline); simpl.
  - destruct (count + 1 >? TablePrintModel.maxLines) eqn:Hgt; [lia|].
    apply IH. lia.
  - apply IH. lia.
Qed.

Lemma truncate_scan_some (pre post : QString) (i count : Z) :
  count + newlines pre = TablePrintModel.maxLines ->
  TablePrintModel.truncate_scan (pre ++ newline :: post) i count
  = Some (i + QString_length pre - 1).
Proof.
  revert i count.
  induction pre as [|c pre IH]; intros i count Heq; simpl in *.
  - destruct (count + 1 >? TablePrintModel.maxLines) eqn:Hgt; [|lia].
    unfold QString_length. simpl. f_equal. lia.
  - pose proof (newlines_nonneg pre) as Hn.
    unfold QString_length in *. simpl length.
    destruct (QChar_eqb c newline); simpl.
    + destruct (count + 1 >? TablePrintModel.maxLines) eqn:Hgt; [lia|].
      rewrite IH by lia. f_equal. lia.
    + rewrite IH by lia. f_equal. lia.
Qed.

(** A text with at most fifteen newlines is stored as it is. *)
Lemma truncate_unchanged (s : QString) :
  newlines s <= 15 -> TablePrintModel.truncate s = s.
Proof.
  intros H. unfold TablePrintModel.truncate.
  rewrite truncate_scan_none; [done | unfold TablePrintModel.maxLines; lia].
Qed.

Lemma newlines_le_length (s : QString) : newlines s <= QString_length s.
Proof.
  unfold QString_length.
  induction s as [|c s IH]; simpl length; simpl newlines;
    [lia | destruct (QChar_eqb c newline); lia].
Qed.

(** A text whose sixteenth newline follows [pre] keeps [pre] without its
    last character. *)
Lemma truncate_cut (pre post : QString) :
  newlines pre = 15 ->
  TablePrintModel.truncate (pre ++ newline :: post)
  = take (length pre - 1) pre.
Proof.
  intros H. unfold TablePrintModel.truncate.
  rewrite truncate_scan_some by (unfold TablePrintModel.maxLines; lia).
  pose proof (newlines_le_length pre) as Hlen.
  unfold QString_left, QString_length in *.
  rewrite length_app. simpl length.
  rewrite (proj2 (Z.ltb_ge _ _)) by lia.
  rewrite (proj2 (Z.leb_gt _ _)) by lia.
  simpl orb. cbv iota.
  replace (Z.to_nat (0 + Z.of_nat (length pre) - 1))
    with (length pre - 1)%nat by lia.
  rewrite take_app_le by lia. done.
Qed.

(** C3 (evaluation at the failing input).  The text [twenty_lines] holds
    twenty newlines; the text preceding its sixteenth newline is its first
    47 characters.  Written to column 6 of a one-row table, it is stored as
    its first 46 characters only: [s.left(i - 1)] also drops the character
    in front of the sixteenth newline. *)
Theorem TablePrintModel_truncation_drops_a_character :
  newlines twenty_lines = 20
  /\ newlines (take 47 twenty_lines) = 15
  /\ twenty_lines !! 47%nat = Some newline
  /\ (exists m',
        TablePrintModel.setData one_row_table (cell_at 0 6)
          (text_value twenty_lines) Qt.DisplayRole = Ok (true, m')
        /\ TablePrintModel.data m' (cell_at 0 6) Qt.DisplayRole
           = Ok (TablePrintModel.Text (take 46 twenty_lines)))
  /\ take 46 twenty_lines <> take 47 twenty_lines.
Proof.
  split; [reflexivity|]. split; [reflexivity|]. split; [reflexivity|].
  split.
  - eexists. split; [vm_compute; reflexivity | vm_compute; reflexivity].
  - vm_compute. discriminate.
Qed.

(** ** Table Print Model: which writes succeed *)

Lemma QList_at_lookup {A : Type} (l : list A) (i : Z) :
  0 <= i < Z.of_nat (length l) ->
  exists x, l !! Z.to_nat i = Some x /\ QList_at l i = Ok x.
Proof.
  intros [H0 H1]. unfold QList_at.
  rewrite (proj2 (Z.ltb_ge _ _)) by lia.
  destruct (l !! Z.to_nat i) as [x|] eqn:Hx.
  - exists x. done.
  - apply lookup_ge_None in Hx. lia.
Qed.

(** C7 (as amended).  With the row of a valid index inside the row buffer,
    [setData] returns; it succeeds exactly when the index is valid and the
    role is the display role or the background role, and a failed call
    leaves the model as it was. *)
Theorem TablePrintModel_setData_roles
    (m : TablePrintModel.model) (index : QModelIndex) (value : QVariant)
    (role : Z) :
  (isValid index = true ->
   0 <= row index < Z.of_nat (length (TablePrintModel.list m))) ->
  exists b m',
    TablePrintModel.setData m index value role = Ok (b, m')
    /\ (b = true <->
        isValid index = true
        /\ (role = Qt.DisplayRole \/ role = Qt.BackgroundRole))
    /\ (b = false -> m' = m).
Proof.
  intros Hrow. unfold TablePrintModel.setData.
  destruct (isValid index) eqn:Hv.
  - destruct (QList_at_lookup (TablePrintModel.list m) (row index)
                (Hrow eq_refl)) as (it & _ & Hat).
    destruct (Z.eqb_spec role Qt.DisplayRole) as [Hd|Hd].
    + destruct ((0 <=? column index) && (column index <=? 6)).
      * rewrite Hat. simpl. do 2 eexists. split; [reflexivity|].
        split; [tauto | discriminate].
      * do 2 eexists. split; [reflexivity|]. split; [tauto | discriminate].
    + destruct (Z.eqb_spec role Qt.BackgroundRole) as [Hb|Hb].
      * rewrite Hat. simpl. do 2 eexists. split; [reflexivity|].
        split; [tauto | discriminate].
      * do 2 eexists. split; [reflexivity|].
        split; [|done]. split; [discriminate | tauto].
  - do 2 eexists. split; [reflexivity|].
    split; [|done]. split; [discriminate | intros [? _]; discriminate].
Qed.

(** The theorem at a background write to the only row of a table. *)
Lemma TablePrintModel_setData_roles_witness :
  exists b m',
    TablePrintModel.setData one_row_table (cell_at 0 2) (mkQVariant 0 [] 255)
      Qt.BackgroundRole = Ok (b, m')
    /\ (b = true <->
        isValid (cell_at 0 2) = true
        /\ (Qt.BackgroundRole = Qt.DisplayRole
            \/ Qt.BackgroundRole = Qt.BackgroundRole))
    /\ (b = false -> m' = one_row_table).
Proof.
  apply (TablePrintModel_setData_roles one_row_table (cell_at 0 2)
           (mkQVariant 0 [] 255) Qt.BackgroundRole).
  intros _. vm_compute. split; [discriminate | reflexivity].
Defined.

(** C7 (as stated) fails: an edit-role write to text column 0 of a valid
    index is a supported write in the specification's words, and [setData]
    rejects it, leaving the table as it was. *)
Lemma TablePrintModel_edit_role_rejected :
  spec_supported_write (cell_at 0 0) Qt.EditRole = true
  /\ TablePrintModel.setData one_row_table (cell_at 0 0)
       (text_value twenty_lines) Qt.EditRole = Ok (false, one_row_table).
Proof. split; reflexivity. Qed.

(** ** Table Print Model: the fall-through of the column switch *)

Lemma TablePrintModel_data_text
    (m : TablePrintModel.model) (r c : Z)
    (it : TablePrintModel.TablePrintItem) (s : QString) :
  0 <= r -> 0 <= c <= 6 ->
  TablePrintModel.list m !! Z.to_nat r = Some it ->
  TablePrintModel.field c it = Some s ->
  TablePrintModel.data m (cell_at r c) Qt.DisplayRole
  = Ok (TablePrintModel.Text s).
Proof.
  intros Hr Hc Hit Hs. unfold TablePrintModel.data, isValid. simpl.
  rewrite (proj2 (Z.leb_le 0 r)), (proj2 (Z.leb_le 0 c)) by lia.
  rewrite (proj2 (Z.leb_le c 6)) by lia. simpl.
  unfold QList_at. rewrite (proj2 (Z.ltb_ge _ _)) by lia.
  rewrite Hit. simpl. rewrite Hs. reflexivity.
Qed.

Lemma TablePrintModel_field_defined
    (c : Z) (it : TablePrintModel.TablePrintItem) :
  0 <= c <= 6 -> exists s, TablePrintModel.field c it = Some s.
Proof.
  intros Hc.
  assert (c = 0 \/ c = 1 \/ c = 2 \/ c = 3 \/ c = 4 \/ c = 5 \/ c = 6)
    as [-> | [-> | [-> | [-> | [-> | [-> | ->]]]]]] by lia;
    eexists; reflexivity.
Qed.

(** C10.  A display-role write to column [k] of a valid index, [0 <= k <= 6],
    succeeds and changes only the addressed row: the other rows, the row and
    column counts and the signals are as before.  In the addressed row it
    keeps the background and the text fields of the columns before [k],
    stores the value in every text field from [k] to 5, and stores the
    truncated value in the location field; for [k = 6] the six other
    fields are kept.  Reading the row back shows the same: the columns
    before [k] read as before the write, the columns [k] to 5 read the
    value, and column 6 reads its truncation. *)
Theorem TablePrintModel_setData_falls_through
    (m : TablePrintModel.model) (index : QModelIndex) (value : QVariant)
    (it : TablePrintModel.TablePrintItem) :
  isValid index = true ->
  0 <= column index <= 6 ->
  TablePrintModel.list m !! Z.to_nat (row index) = Some it ->
  exists m' it',
    TablePrintModel.setData m index value Qt.DisplayRole = Ok (true, m')
    /\ TablePrintModel.list m' !! Z.to_nat (row index) = Some it'
    /\ (forall j, j <> Z.to_nat (row index) ->
        TablePrintModel.list m' !! j = TablePrintModel.list m !! j)
    /\ TablePrintModel.rows m' = TablePrintModel.rows m
    /\ TablePrintModel.columns m' = TablePrintModel.columns m
    /\ TablePrintModel.events m' = TablePrintModel.events m
    /\ TablePrintModel.colorBackground it' = TablePrintModel.colorBackground it
    /\ (forall c, 0 <= c < column index ->
        TablePrintModel.field c it' = TablePrintModel.field c it)
    /\ (forall c, column index <= c < 6 ->
        TablePrintModel.field c it' = Some (toString value))
    /\ TablePrintModel.field 6 it'
       = Some (TablePrintModel.truncate (toString value))
    /\ (forall c, 0 <= c < column index ->
        TablePrintModel.data m' (cell_at (row index) c) Qt.DisplayRole
        = TablePrintModel.data m (cell_at (row index) c) Qt.DisplayRole)
    /\ (forall c, column index <= c < 6 ->
        TablePrintModel.data m' (cell_at (row index) c) Qt.DisplayRole
        = Ok (TablePrintModel.Text (toString value)))
    /\ TablePrintModel.data m' (cell_at (row index) 6) Qt.DisplayRole
       = Ok (TablePrintModel.Text
               (TablePrintModel.truncate (toString value))).
Proof.
  intros Hv Hcol Hit.
  assert (0 <= row index) as Hr.
  { unfold isValid in Hv. apply andb_prop in Hv as [Hv _].
    apply andb_prop in Hv as [Hv _]. lia. }
  assert (Z.to_nat (row index) < length (TablePrintModel.list m))%nat as Hlt
    by (eapply lookup_lt_Some; eauto).
  set (it' := TablePrintModel.store_from (column index) value it).
  assert (column index = 0 \/ column index = 1 \/ column index = 2
          \/ column index = 3 \/ column index = 4 \/ column index = 5
          \/ column index = 6) as Hk by lia.
  assert (forall c, 0 <= c < column index ->
          TablePrintModel.field c it' = TablePrintModel.field c it) as Hbefore.
  { intros c Hc. subst it'.
    assert (c = 0 \/ c = 1 \/ c = 2 \/ c = 3 \/ c = 4 \/ c = 5) as Hc' by lia.
    destruct Hk as [Hk | [Hk | [Hk | [Hk | [Hk | [Hk | Hk]]]]]];
      rewrite Hk in *;
      destruct Hc' as [-> | [-> | [-> | [-> | [-> | ->]]]]];
      first [lia | reflexivity]. }
  assert (forall c, column index <= c < 6 ->
          TablePrintModel.field c it' = Some (toString value)) as Hfrom.
  { intros c Hc. subst it'.
    assert (c = 0 \/ c = 1 \/ c = 2 \/ c = 3 \/ c = 4 \/ c = 5) as Hc' by lia.
    destruct Hk as [Hk | [Hk | [Hk | [Hk | [Hk | [Hk | Hk]]]]]];
      rewrite Hk in *;
      destruct Hc' as [-> | [-> | [-> | [-> | [-> | ->]]]]];
      first [lia | reflexivity]. }
  assert (TablePrintModel.field 6 it'
          = Some (TablePrintModel.truncate (toString value))) as Hloc.
  { subst it'.
    destruct Hk as [-> | [-> | [-> | [-> | [-> | [-> | ->]]]]]]; reflexivity. }
  assert (TablePrintModel.list
            (TablePrintModel.set_list
               (<[Z.to_nat (row index) := it']> (TablePrintModel.list m)) m)
          !! Z.to_nat (row index) = Some it') as Hnew
    by (simpl; by apply list_lookup_insert_eq).
  eexists. exists it'.
  split.
  { unfold TablePrintModel.setData. rewrite Hv. simpl.
    rewrite (proj2 (Z.leb_le 0 (column index))) by lia.
    rewrite (proj2 (Z.leb_le (column index) 6)) by lia.
    simpl. unfold QList_at.
    rewrite (proj2 (Z.ltb_ge _ _)) by lia. rewrite Hit. reflexivity. }
  split; [exact Hnew|].
  split; [intros j Hj; simpl; by apply list_lookup_insert_ne|].
  split; [reflexivity|]. split; [reflexivity|]. split; [reflexivity|].
  split.
  { subst it'.
    destruct Hk as [-> | [-> | [-> | [-> | [-> | [-> | ->]]]]]]; reflexivity. }
  split; [exact Hbefore|]. split; [exact Hfrom|]. split; [exact Hloc|].
  split; [|split].
  - intros c Hc.
    destruct (TablePrintModel_field_defined c it) as [s Hs]; [lia|].
    rewrite (TablePrintModel_data_text _ (row index) c it' s);
      [| done | lia | exact Hnew | by rewrite Hbefore].
    symmetry. by apply (TablePrintModel_data_text m (row index) c it s); [|lia|..].
  - intros c Hc.
    apply (TablePrintModel_data_text _ (row index) c it');
      [done | lia | exact Hnew | by apply Hfrom].
  - apply (TablePrintModel_data_text _ (row index) 6 it');
      [done | lia | exact Hnew | exact Hloc].
Qed.

(** The theorem at a write to column 4 of the only row of a table: the
    columns 4 and 5 hold the text, column 6 its first 46 characters. *)
Lemma TablePrintModel_setData_falls_through_witness :
  exists m',
    TablePrintModel.setData one_row_table (cell_at 0 4)
      (text_value twenty_lines) Qt.DisplayRole = Ok (true, m')
    /\ TablePrintModel.list m'
       = [TablePrintModel.mkItem [] [] [] [] twenty_lines twenty_lines
            (take 46 twenty_lines) 4294967295]
    /\ TablePrintModel.data m' (cell_at 0 3) Qt.DisplayRole
       = Ok (TablePrintModel.Text [])
    /\ TablePrintModel.data m' (cell_at 0 5) Qt.DisplayRole
       = Ok (TablePrintModel.Text twenty_lines)
    /\ TablePrintModel.data m' (cell_at 0 6) Qt.DisplayRole
       = Ok (TablePrintModel.Text (take 46 twenty_lines)).
Proof.
  destruct (TablePrintModel_setData_falls_through one_row_table (cell_at 0 4)
              (text_value twenty_lines)
              (TablePrintModel.mkItem [] [] [] [] [] [] [] 4294967295))
    as (m' & it' & Hset & Hrow & _ & _ & _ & _ & _ & _ & _ & _
        & Hbefore & Hfrom & Hloc).
  - reflexivity.
  - simpl. lia.
  - reflexivity.
  - exists m'. split; [exact Hset|].
    split; [|split; [|split]].
    + vm_compute in Hset. injection Hset as <-. reflexivity.
    + etransitivity; [apply (Hbefore 3); simpl; lia | reflexivity].
    + apply (Hfrom 5). simpl. lia.
    + exact Hloc.
Defined.

(** ** Profile Print Model: text alignment *)

(** C9 (evaluation at the failing input).  The max-depth and duration
    values are the cells of column 3 in rows 0 and 1; the alignment role
    answers left alignment for both, and right alignment for the empty cells
    of column 4 in these rows: on every cell, the answer is right-aligned
    exactly when [row < 2] and [col = 4]. *)
Theorem ProfilePrintModel_alignment_misses_depth_and_duration :
  ProfilePrintModel.data (cell_at 0 3) Qt.DisplayRole
  = ProfilePrintModel.Display ProfilePrintModel.MaxDepth
  /\ ProfilePrintModel.data (cell_at 1 3) Qt.DisplayRole
     = ProfilePrintModel.Display ProfilePrintModel.Duration
  /\ ProfilePrintModel.data (cell_at 0 3) Qt.TextAlignmentRole
     = ProfilePrintModel.Alignment Qt.AlignLeft
  /\ ProfilePrintModel.data (cell_at 1 3) Qt.TextAlignmentRole
     = ProfilePrintModel.Alignment Qt.AlignLeft
  /\ ProfilePrintModel.data (cell_at 0 4) Qt.DisplayRole
     = ProfilePrintModel.Display ProfilePrintModel.EmptyString
  /\ ProfilePrintModel.data (cell_at 1 4) Qt.DisplayRole
     = ProfilePrintModel.Display ProfilePrintModel.EmptyString
  /\ (forall r c,
        ProfilePrintModel.right_aligned
          (ProfilePrintModel.data (cell_at r c) Qt.TextAlignmentRole)
        = (r <? 2) && (c =? 4))
  /\ (forall r c,
        ProfilePrintModel.left_aligned
          (ProfilePrintModel.data (cell_at r c) Qt.TextAlignmentRole)
        = negb ((r <? 2) && (c =? 4))).
Proof.
  repeat (split; [reflexivity|]).
  split; intros r c; unfold ProfilePrintModel.data, ProfilePrintModel.alignment;
    simpl; destruct ((r <? 2) && (c =? 4)); reflexivity.
Qed.

(** ** Yearly statistics: cells with a zero denominator *)

(** Where the dive count is not zero the average-time cell is the quotient. *)
Lemma YearStatisticsItem_average_time_nonzero
    (get_temp_units : Z -> float) (s : stats_t) :
  selection_size s <> 0 ->
  YearStatisticsItem.data get_temp_units s YearStatisticsItem.AVERAGE_TIME
    Qt.DisplayRole
  = Ok (YearStatisticsItem.Minutes (Z.quot (total_time s) (selection_size s))).
Proof.
  intros Hn. unfold YearStatisticsItem.data, YearStatisticsItem.int_div. simpl.
  destruct (Z.eqb_spec (selection_size s) 0); [done | reflexivity].
Qed.

(** C4 (evaluation at the failing input).  For every interval whose dive
    count is zero the average-time cell performs the division, which is a
    fault; the average-temperature cell of an interval whose combined
    sample count is zero is "no value". *)
Theorem YearStatisticsItem_average_time_divides_by_zero
    (get_temp_units : Z -> float) (s : stats_t) :
  YearStatisticsItem.data get_temp_units (with_selection_size 0 s)
    YearStatisticsItem.AVERAGE_TIME Qt.DisplayRole = Fault
  /\ YearStatisticsItem.data get_temp_units (with_combined_count 0 s)
       YearStatisticsItem.AVG_TEMP Qt.DisplayRole
     = Ok YearStatisticsItem.NoValue.
Proof.
  split.
  - reflexivity.
  - unfold YearStatisticsItem.data. simpl.
    destruct (YearStatisticsItem.double_nonzero (combined_temp s)); reflexivity.
Qed.

(** ** Yearly statistics: months under a year *)

Lemma total_dives_nonneg (ms : list stats_t) :
  (forall m, m ∈ ms -> 0 <= selection_size m) -> 0 <= total_dives ms.
Proof.
  induction ms as [|m ms IH]; intros H; simpl; [lia|].
  pose proof (H m (list_elem_of_here _ _)).
  assert (0 <= total_dives ms).
  { apply IH. intros m' Hm'. apply H. by apply list_elem_of_further. }
  lia.
Qed.

(** The inner loop on a valid [item]: it consumes the shortest run of
    buckets that brings the count to [size], gives each consumed bucket a
    fresh item and appends these items to the children of [item]. *)
Lemma month_loop_spec (ms : list stats_t) :
  forall (c size : Z) (item : addr) (month : nat) (h : TreeModel.heap)
         (it : TreeModel.TreeItem),
    h !! item = Some it ->
    (forall m, m ∈ ms -> 0 <= selection_size m) ->
    0 <= c ->
    c + total_dives ms < YearlyStatisticsModel.uint_max ->
    size <= c + total_dives ms ->
    exists (k : nat) (h' : TreeModel.heap),
      YearlyStatisticsModel.month_loop ms c size item month h
      = Ok (h', (month + k)%nat)
      /\ (k <= length ms)%nat
      /\ size <= c + total_dives (take k ms)
      /\ (forall j, (j < k)%nat -> c + total_dives (take j ms) < size)
      /\ h' !! item
         = Some (TreeModel.mkTreeItem (TreeModel.kind it) (TreeModel.parent it)
                   (TreeModel.children it ++ seq (length h) k))
      /\ length h' = (length h + k)%nat
      /\ (forall x, (x < length h)%nat -> x <> item -> h' !! x = h !! x)
      /\ (forall j m, ms !! j = Some m -> (j < k)%nat ->
          h' !! (length h + j)%nat
          = Some (TreeModel.mkTreeItem (TreeModel.YearStatisticsItem m)
                    (Some item) [])).
Proof.
  induction ms as [|m ms IH];
    intros c size item month h it Hit Hpos Hc Hmax Hsize.
  - simpl in *. exists 0%nat, h.
    rewrite (proj2 (Z.ltb_ge c size)) by lia.
    rewrite Nat.add_0_r, app_nil_r. destruct it. simpl.
    repeat split; try done; try lia; intros; lia.
  - simpl YearlyStatisticsModel.month_loop.
    destruct (Z.ltb_spec c size) as [Hlt|Hge].
    + assert (0 <= selection_size m) as Hm
        by (apply Hpos; apply list_elem_of_here).
      assert (forall m', m' ∈ ms -> 0 <= selection_size m') as Hpos'.
      { intros m' Hm'. apply Hpos. by apply list_elem_of_further. }
      pose proof (total_dives_nonneg ms Hpos') as Htot.
      simpl in Hmax, Hsize.
      assert (item < length h)%nat as Hitem by (eapply lookup_lt_Some; eauto).
      rewrite Z.mod_small by lia.
      unfold TreeModel.push_back at 1.
      rewrite lookup_app_l by lia. rewrite Hit. simpl.
      unfold TreeModel.set_parent at 1.
      rewrite list_lookup_insert_ne by lia.
      rewrite lookup_app_r by lia. rewrite Nat.sub_diag. simpl.
      set (h3 := <[length h := _]> (<[item := _]> (h ++ [_]))).
      assert (length h3 = S (length h)) as Hlen3.
      { unfold h3. rewrite !length_insert, length_app. simpl. lia. }
      assert (h3 !! item
              = Some (TreeModel.mkTreeItem (TreeModel.kind it)
                        (TreeModel.parent it)
                        (TreeModel.children it ++ [length h]))) as Hit3.
      { unfold h3. rewrite list_lookup_insert_ne by lia.
        apply list_lookup_insert_eq. rewrite length_app. simpl. lia. }
      destruct (IH (c + selection_size m) size item (S month) h3 _ Hit3 Hpos')
        as (k & h' & Hrun & Hk & Hreach & Hbelow & Hitem' & Hlen' & Hold
            & Hnew);
        [lia | lia | lia |].
      exists (S k), h'. simpl in Hitem'.
      split; [rewrite Hrun; f_equal; f_equal; lia|].
      split; [simpl; lia|].
      split; [simpl; lia|].
      split.
      { intros j Hj. destruct j as [|j]; simpl; [lia|].
        specialize (Hbelow j). lia. }
      split.
      { rewrite Hitem', Hlen3. rewrite <- app_assoc. reflexivity. }
      split; [lia|].
      split.
      { intros x Hx Hne. rewrite Hold by lia.
        unfold h3. rewrite list_lookup_insert_ne by lia.
        rewrite list_lookup_insert_ne by lia.
        apply lookup_app_l. lia. }
      intros j m' Hj Hjk. destruct j as [|j].
      * simpl in Hj. injection Hj as <-. rewrite Nat.add_0_r.
        rewrite Hold by lia.
        unfold h3. apply list_lookup_insert_eq.
        rewrite length_insert, length_app. simpl. lia.
      * simpl in Hj.
        replace (length h + S j)%nat with (length h3 + j)%nat by lia.
        apply Hnew; [done | lia].
    + exists 0%nat, h. rewrite Nat.add_0_r, app_nil_r. destruct it. simpl.
      repeat split; try done; try lia; intros; lia.
Qed.

(** C6.  One turn of the loop over the years, for a year [y] (nonzero
    period) met with the month counter at [month]: the turn appends one
    new item for [y] to the root, and the month children of that item are
    the first [k] buckets from [month] on, where [k] is the least number of
    buckets whose dive counts add up to at least the dive count of [y];
    the month counter advances by [k] and the loop goes on with the next
    year. *)
Theorem year_loop_assigns_months_greedily
    (y : stats_t) (ys stats_monthly : list stats_t) (month : nat)
    (root : addr) (h : TreeModel.heap) (rit : TreeModel.TreeItem) :
  h !! root = Some rit ->
  period y <> 0 ->
  (forall m, m ∈ drop month stats_monthly -> 0 <= selection_size m) ->
  total_dives (drop month stats_monthly) < YearlyStatisticsModel.uint_max ->
  selection_size y <= total_dives (drop month stats_monthly) ->
  exists (k : nat) (h' : TreeModel.heap),
    YearlyStatisticsModel.year_loop (y :: ys) stats_monthly month root h
    = YearlyStatisticsModel.year_loop ys stats_monthly (month + k) root h'
    /\ (k <= length (drop month stats_monthly))%nat
    /\ selection_size y <= total_dives (take k (drop month stats_monthly))
    /\ (forall j, (j < k)%nat ->
        total_dives (take j (drop month stats_monthly)) < selection_size y)
    /\ TreeModel.children_of root h'
       = TreeModel.children_of root h ++ [length h]
    /\ TreeModel.kind <$> h' !! length h = Some (TreeModel.YearStatisticsItem y)
    /\ YearlyStatisticsModel.child_stats (length h) h'
       = Some <$> take k (drop month stats_monthly).
Proof.
  intros Hroot Hper Hpos Hmax Hsize.
  set (ms := drop month stats_monthly) in *.
  set (it := TreeModel.mkTreeItem (TreeModel.YearStatisticsItem y) None []).
  assert (root < length h)%nat as Hrlt by (eapply lookup_lt_Some; eauto).
  assert ((h ++ [it]) !! length h = Some it) as Hit.
  { rewrite lookup_app_r by lia. by rewrite Nat.sub_diag. }
  destruct (month_loop_spec ms 0 (selection_size y) (length h) month
              (h ++ [it]) it Hit Hpos)
    as (k & hm & Hrun & Hk & Hreach & Hbelow & Hitem & Hlen & Hold & Hnew);
    [lia | lia | lia |].
  rewrite length_app in Hitem, Hlen, Hold, Hnew. simpl in Hitem, Hlen.
  assert (hm !! root = Some rit) as Hroot_m.
  { rewrite Hold by (simpl; lia). by rewrite lookup_app_l by lia. }
  set (rit' := TreeModel.mkTreeItem (TreeModel.kind rit) (TreeModel.parent rit)
                 (TreeModel.children rit ++ [length h])).
  set (it' := TreeModel.mkTreeItem (TreeModel.YearStatisticsItem y) (Some root)
                (seq (length h + 1) k)).
  exists k, (<[length h := it']> (<[root := rit']> hm)).
  split.
  { simpl YearlyStatisticsModel.year_loop.
    rewrite (proj2 (Z.eqb_neq _ _) Hper).
    fold it. fold ms. rewrite Hrun. simpl.
    unfold TreeModel.push_back. rewrite Hroot_m. simpl.
    unfold TreeModel.set_parent.
    rewrite list_lookup_insert_ne by lia. rewrite Hitem. simpl.
    reflexivity. }
  split; [exact Hk|].
  split; [lia|].
  split; [intros j Hj; specialize (Hbelow j Hj); lia|].
  split.
  { unfold TreeModel.children_of.
    rewrite list_lookup_insert_ne by lia.
    rewrite list_lookup_insert_eq by (rewrite Hlen; lia).
    rewrite Hroot. reflexivity. }
  split.
  { rewrite list_lookup_insert_eq by (rewrite length_insert, Hlen; lia).
    reflexivity. }
  unfold YearlyStatisticsModel.child_stats, TreeModel.children_of.
  rewrite list_lookup_insert_eq by (rewrite length_insert, Hlen; lia).
  simpl TreeModel.children.
  apply list_eq. intros j.
  rewrite !list_lookup_fmap.
  destruct (decide (j < k)%nat) as [Hj|Hj].
  - rewrite lookup_seq_lt by done. rewrite lookup_take_lt by done. simpl.
    destruct (ms !! j) as [m|] eqn:Hm.
    + rewrite list_lookup_insert_ne by lia.
      rewrite list_lookup_insert_ne by lia.
      pose proof (Hnew j m Hm Hj) as Hnew_j. simpl length in Hnew_j.
      rewrite Hnew_j. reflexivity.
    + apply lookup_ge_None in Hm. lia.
  - rewrite lookup_seq_ge by lia. rewrite lookup_take_ge by lia. reflexivity.
Qed.

(** The theorem at a year of twelve dives facing thirteen monthly buckets of
    one dive each, in a model that holds only its root; and the whole of
    [update_yearly_stats] evaluated there: the year item (address 1) is the
    only row, its children are the first twelve buckets, and the month
    counter stops at 12. *)
Lemma year_loop_assigns_months_greedily_witness :
  (exists (k : nat) (h' : TreeModel.heap),
     YearlyStatisticsModel.year_loop one_year thirteen_months 0 0
       (YearlyStatisticsModel.items YearlyStatisticsModel.init)
     = YearlyStatisticsModel.year_loop [bucket 0 0] thirteen_months (0 + k) 0 h'
     /\ (k <= length (drop 0 thirteen_months))%nat
     /\ 12 <= total_dives (take k (drop 0 thirteen_months))
     /\ (forall j, (j < k)%nat ->
         total_dives (take j (drop 0 thirteen_months)) < 12)
     /\ TreeModel.children_of 0 h' = [1%nat]
     /\ TreeModel.kind <$> h' !! 1%nat
        = Some (TreeModel.YearStatisticsItem (bucket 2014 12))
     /\ YearlyStatisticsModel.child_stats 1 h'
        = Some <$> take k (drop 0 thirteen_months))
  /\ (exists m',
        YearlyStatisticsModel.update_yearly_stats year_globals
          YearlyStatisticsModel.init = Ok (m', 12%nat)
        /\ TreeModel.children_of 0 (YearlyStatisticsModel.items m') = [1%nat]
        /\ length (TreeModel.children_of 1 (YearlyStatisticsModel.items m'))
           = 12%nat
        /\ YearlyStatisticsModel.child_stats 1 (YearlyStatisticsModel.items m')
           = Some <$> take 12 thirteen_months).
Proof.
  split.
  - apply (year_loop_assigns_months_greedily (bucket 2014 12) [bucket 0 0]
             thirteen_months 0 0
             (YearlyStatisticsModel.items YearlyStatisticsModel.init)
             (TreeModel.mkTreeItem TreeModel.PlainItem None [])).
    + reflexivity.
    + simpl. lia.
    + intros m Hm. unfold thirteen_months in Hm. simpl in Hm.
      apply list_elem_of_In in Hm. simpl in Hm.
      repeat (destruct Hm as [<- | Hm]; [simpl; lia|]). destruct Hm.
    + vm_compute. reflexivity.
    + vm_compute. discriminate.
  - eexists. split; [vm_compute; reflexivity|].
    split; [reflexivity|]. split; reflexivity.
Defined.

(** ** Dive list: editing the number column *)

Lemma number_in_use_true (v : Z) (s : store) :
  DiveStore.number_in_use v s = true
  <-> exists d, d ∈ dives s /\ number d = v.
Proof.
  unfold DiveStore.number_in_use. rewrite existsb_exists. split.
  - intros (d & Hin & Hd). exists d. split; [by apply list_elem_of_In | lia].
  - intros (d & Hin & Hd). exists d. split; [by apply list_elem_of_In | lia].
Qed.

Lemma index_by_uniq_id_Some (l : list dive) (uid : Z) (k : nat) :
  DiveStore.index_by_uniq_id l uid = Some k ->
  exists d, l !! k = Some d /\ id d = uid
            /\ forall j d', (j < k)%nat -> l !! j = Some d' -> id d' <> uid.
Proof.
  revert k. induction l as [|d l IH]; intros k Hk; simpl in Hk; [done|].
  destruct (Z.eqb_spec (id d) uid) as [Heq|Hne].
  - injection Hk as <-. exists d. repeat split; [done|]. intros j d' Hj. lia.
  - destruct (DiveStore.index_by_uniq_id l uid) as [k'|] eqn:Hk'; [|done].
    simpl in Hk. injection Hk as <-.
    destruct (IH k' eq_refl) as (d0 & Hd0 & Hid & Hfirst).
    exists d0. repeat split; [done..|].
    intros j d' Hj Hd'. destruct j as [|j]; simpl in Hd'.
    + by injection Hd' as <-.
    + eapply Hfirst; [|done]. lia.
Qed.

Lemma index_by_uniq_id_found (l : list dive) (uid : Z) :
  (exists d, d ∈ l /\ id d = uid) ->
  exists k, DiveStore.index_by_uniq_id l uid = Some k.
Proof.
  induction l as [|d l IH]; intros (d0 & Hin & Hid).
  - by apply elem_of_nil in Hin.
  - simpl. destruct (Z.eqb_spec (id d) uid) as [Heq|Hne]; [by eexists|].
    apply elem_of_cons in Hin as [-> | Hin]; [done|].
    destruct IH as [k Hk]; [by exists d0|]. rewrite Hk. by eexists.
Qed.

(** C1 (as amended).  For a dive item whose dive is in the store, [setData]
    returns; it succeeds exactly when the role is the edit role, the column
    is the number column, the proposed number is not zero and no dive of the
    store (the edited one included) has that number.  A failed call leaves
    the store as it was; a successful call marks the store dirty and
    replaces, at the position of the first dive with the item's id, the
    number by the proposed one, nothing else. *)
Theorem DiveItem_setData_number
    (diveId : Z) (index : QModelIndex) (value : QVariant) (role : Z)
    (s : store) :
  (exists d, d ∈ dives s /\ id d = diveId) ->
  exists b s',
    DiveItem.setData diveId index value role s = Ok (b, s')
    /\ (b = true <->
        role = Qt.EditRole /\ column index = DiveItem.NR
        /\ toInt value <> 0
        /\ forall d, d ∈ dives s -> number d <> toInt value)
    /\ (b = false -> s' = s)
    /\ (b = true ->
        changed s' = true /\ preexisting s' = preexisting s
        /\ exists k d,
             dives s !! k = Some d /\ id d = diveId
             /\ (forall j d', (j < k)%nat -> dives s !! j = Some d' ->
                 id d' <> diveId)
             /\ dives s'
                = <[k := mkDive (id d) (toInt value) (divetrip d) (sac d)]>
                    (dives s)).
Proof.
  intros Hfound. unfold DiveItem.setData.
  destruct (Z.eqb_spec role Qt.EditRole) as [Hrole|Hrole]; simpl.
  2: { exists false, s. split; [done|]. split; [|done].
       split; [done | tauto]. }
  destruct (Z.eqb_spec (column index) DiveItem.NR) as [Hcol|Hcol]; simpl.
  2: { exists false, s. split; [done|]. split; [|done].
       split; [done | tauto]. }
  destruct (Z.eqb_spec (toInt value) 0) as [Hz|Hz].
  { exists false, s. split; [done|]. split; [|done].
    split; [done | tauto]. }
  destruct (DiveStore.number_in_use (toInt value) s) eqn:Huse.
  { exists false, s. split; [done|]. split; [|done].
    split; [done|]. intros (_ & _ & _ & Hfree).
    apply number_in_use_true in Huse as (d & Hin & Hd).
    by destruct (Hfree d Hin). }
  destruct (index_by_uniq_id_found (dives s) diveId Hfound) as [k Hk].
  destruct (index_by_uniq_id_Some _ _ _ Hk) as (d & Hd & Hid & Hfirst).
  rewrite Hk. simpl. rewrite Hd. simpl.
  eexists true, _. split; [reflexivity|].
  split; [|split; [done|]].
  - split; [|done]. intros _. repeat split; [done..|].
    intros d' Hin Hnum.
    assert (DiveStore.number_in_use (toInt value) s = true); [|congruence].
    apply number_in_use_true. by exists d'.
  - intros _. simpl. repeat split. by exists k, d.
Qed.

(** The theorem at an accepted edit: dive 20 of a two-dive store gets the
    unused number 7. *)
Lemma DiveItem_setData_number_witness :
  exists b s',
    DiveItem.setData 20 (cell_at 1 DiveItem.NR) (int_value 7) Qt.EditRole
      (mkStore [mkDive 10 1 None 0; mkDive 20 2 None 0] 2 false) = Ok (b, s')
    /\ b = true
    /\ changed s' = true
    /\ dives s' = [mkDive 10 1 None 0; mkDive 20 7 None 0].
Proof.
  destruct (DiveItem_setData_number 20 (cell_at 1 DiveItem.NR) (int_value 7)
              Qt.EditRole
              (mkStore [mkDive 10 1 None 0; mkDive 20 2 None 0] 2 false))
    as (b & s' & Hrun & Hb & Hfail & Hok).
  - exists (mkDive 20 2 None 0). split; [|reflexivity].
    apply list_elem_of_In. simpl. tauto.
  - exists b, s'. split; [exact Hrun|].
    vm_compute in Hrun. injection Hrun as <- <-.
    repeat split; reflexivity.
Defined.

(** C1 (as stated) fails: 5 is nonzero and is the number of no dive other
    than dive 7, and the edit of dive 7 to number 5 is still rejected,
    because dive 7 itself has number 5. *)
Lemma DiveItem_setData_own_number_rejected :
  spec_number_accepted 7 5 (mkStore [mkDive 7 5 None 0] 1 false) = true
  /\ DiveItem.setData 7 (cell_at 0 DiveItem.NR) (int_value 5) Qt.EditRole
       (mkStore [mkDive 7 5 None 0] 1 false)
     = Ok (false, mkStore [mkDive 7 5 None 0] 1 false).
Proof. split; reflexivity. Qed.

(** ** Dive list: building the rows *)

(** C5.  On a model that has no rows yet, with automatic grouping off,
    switching to the grouped layout over the store [d1(T1), d2(T1), d3,
    d4(T2)] gives the root rows [T2{d4}], [d3], [T1{d2, d1}], announced by
    one insert bracket over rows 0 to 2. *)
Theorem DiveTripModel_grouped_build
    (autogroup_dives : list dive -> list dive) (update : dive -> dive)
    (layout0 : DiveTripModel.Layout) (d1 d2 d3 d4 : Z) (T1 T2 : nat) :
  T1 <> T2 ->
  (forall d, id (update d) = id d) ->
  (forall d, divetrip (update d) = divetrip d) ->
  exists m' s',
    DiveTripModel.setLayout autogroup_dives update DiveTripModel.TREE
      (DiveTripModel.init layout0 false) (example_store d1 d2 d3 d4 T1 T2)
    = Ok (m', s')
    /\ DiveTripModel.root_rows m'
       = [DiveTripModel.Trip T2 [DiveTripModel.Dive d4];
          DiveTripModel.Dive d3;
          DiveTripModel.Trip T1 [DiveTripModel.Dive d2; DiveTripModel.Dive d1]]
    /\ DiveTripModel.events m' = [RowsAboutToBeInserted 0 2; RowsInserted 0 2].
Proof.
  intros Hne Hid Htrip.
  unfold DiveTripModel.setLayout, DiveTripModel.setupModelData. simpl.
  rewrite !Htrip, !Hid. simpl.
  rewrite lookup_empty. simpl.
  rewrite !Htrip, !Hid. simpl.
  rewrite !Htrip, !Hid. simpl.
  rewrite lookup_insert_ne by done. rewrite lookup_empty. simpl.
  rewrite !Htrip, !Hid. simpl.
  rewrite lookup_insert_eq. simpl.
  do 2 eexists. split; [reflexivity|]. split; reflexivity.
Qed.

(** The theorem at the dive ids 1 to 4 and the trips 1 and 2. *)
Lemma DiveTripModel_grouped_build_witness :
  exists m' s',
    DiveTripModel.setLayout (fun t => t) (fun d => d) DiveTripModel.TREE
      (DiveTripModel.init DiveTripModel.LIST false) (example_store 1 2 3 4 1 2)
    = Ok (m', s')
    /\ DiveTripModel.root_rows m'
       = [DiveTripModel.Trip 2 [DiveTripModel.Dive 4];
          DiveTripModel.Dive 3;
          DiveTripModel.Trip 1 [DiveTripModel.Dive 2; DiveTripModel.Dive 1]]
    /\ DiveTripModel.events m' = [RowsAboutToBeInserted 0 2; RowsInserted 0 2].
Proof.
  apply (DiveTripModel_grouped_build (fun t => t) (fun d => d)
           DiveTripModel.LIST 1 2 3 4 1 2).
  - lia.
  - reflexivity.
  - reflexivity.
Defined.

Lemma bind_Ok {A B : Type} (r : result A) (k : A -> result B) (b : B) :
  bind r k = Ok b -> exists a, r = Ok a /\ k a = Ok b.
Proof. destruct r as [a|]; simpl; [by exists a | done]. Qed.

Lemma grows_refl (h : list TreeModel.TreeItem) : grows h h.
Proof.
  intros a it Ha. exists it. split; [done|]. exists []. by rewrite app_nil_r.
Qed.

Lemma grows_trans (h1 h2 h3 : list TreeModel.TreeItem) :
  grows h1 h2 -> grows h2 h3 -> grows h1 h3.
Proof.
  intros H12 H23 a it Ha.
  destruct (H12 a it Ha) as (it2 & Ha2 & e2 & He2).
  destruct (H23 a it2 Ha2) as (it3 & Ha3 & e3 & He3).
  exists it3. split; [done|]. exists (e2 ++ e3).
  by rewrite He3, He2, app_assoc.
Qed.

Lemma grows_new (k : TreeModel.item_kind) (h : list TreeModel.TreeItem) :
  grows h (TreeModel.new k h).2.
Proof.
  intros a it Ha. simpl. exists it.
  split; [by apply lookup_app_l_Some|]. exists []. by rewrite app_nil_r.
Qed.

Lemma grows_set_parent (a p : addr) (h h' : list TreeModel.TreeItem) :
  TreeModel.set_parent a p h = Ok h' -> grows h h'.
Proof.
  unfold TreeModel.set_parent. intros Hrun.
  apply bind_Ok in Hrun as (it & Hit & Hrun).
  destruct (h !! a) as [it0|] eqn:Ha; simpl in Hit; [|done].
  injection Hit as ->. injection Hrun as <-.
  intros b itb Hb. destruct (decide (a = b)) as [->|Hne].
  - rewrite list_lookup_insert_eq by (eapply lookup_lt_Some; eauto).
    eexists. split; [done|]. exists []. simpl. rewrite app_nil_r. congruence.
  - rewrite list_lookup_insert_ne by done.
    exists itb. split; [done|]. exists []. by rewrite app_nil_r.
Qed.

Lemma grows_push_back (a c : addr) (h h' : list TreeModel.TreeItem) :
  TreeModel.push_back a c h = Ok h' -> grows h h'.
Proof.
  unfold TreeModel.push_back. intros Hrun.
  apply bind_Ok in Hrun as (it & Hit & Hrun).
  destruct (h !! a) as [it0|] eqn:Ha; simpl in Hit; [|done].
  injection Hit as ->. injection Hrun as <-.
  intros b itb Hb. destruct (decide (a = b)) as [->|Hne].
  - rewrite list_lookup_insert_eq by (eapply lookup_lt_Some; eauto).
    eexists. split; [done|]. exists [c]. simpl. congruence.
  - rewrite list_lookup_insert_ne by done.
    exists itb. split; [done|]. exists []. by rewrite app_nil_r.
Qed.

Ltac grows_chain :=
  repeat match goal with
         | |- grows ?h ?h => apply grows_refl
         | |- grows ?h (?h ++ [?x]) => apply (grows_new (TreeModel.kind x) h)
         | H : TreeModel.set_parent _ _ ?h1 = Ok ?h2 |- grows _ ?h2 =>
             apply (grows_trans _ h1); [|exact (grows_set_parent _ _ _ _ H)]
         | H : TreeModel.push_back _ _ ?h1 = Ok ?h2 |- grows _ ?h2 =>
             apply (grows_trans _ h1); [|exact (grows_push_back _ _ _ _ H)]
         end.

Lemma visit_grows (update : dive -> dive) (i : nat)
    (m m' : DiveTripModel.model) (s s' : store) :
  DiveTripModel.visit update i (m, s) = Ok (m', s') ->
  grows (DiveTripModel.items m) (DiveTripModel.items m')
  /\ DiveTripModel.rootItem m' = DiveTripModel.rootItem m.
Proof.
  unfold DiveTripModel.visit. intros Hrun.
  apply bind_Ok in Hrun as (d & _ & Hrun). simpl in Hrun.
  destruct (divetrip d) as [trip|], (DiveTripModel.currentLayout m).
  - destruct (DiveTripModel.trips m !! trip) as [tripItem|].
    + apply bind_Ok in Hrun as (h1 & H1 & Hrun). injection Hrun as <- <-.
      simpl. split; [|done]. grows_chain.
    + apply bind_Ok in Hrun as (h1 & H1 & Hrun).
      apply bind_Ok in Hrun as (h2 & H2 & Hrun).
      apply bind_Ok in Hrun as (h3 & H3 & Hrun). injection Hrun as <- <-.
      simpl. split; [|done]. grows_chain.
      apply (grows_trans _ (DiveTripModel.items m ++ [TreeModel.mkTreeItem
               (TreeModel.DiveItem (id d)) None []])); grows_chain.
  - apply bind_Ok in Hrun as (h1 & H1 & Hrun).
    apply bind_Ok in Hrun as (h2 & H2 & Hrun). injection Hrun as <- <-.
    simpl. split; [|done]. grows_chain.
  - apply bind_Ok in Hrun as (h1 & H1 & Hrun).
    apply bind_Ok in Hrun as (h2 & H2 & Hrun). injection Hrun as <- <-.
    simpl. split; [|done]. grows_chain.
  - apply bind_Ok in Hrun as (h1 & H1 & Hrun).
    apply bind_Ok in Hrun as (h2 & H2 & Hrun). injection Hrun as <- <-.
    simpl. split; [|done]. grows_chain.
Qed.

Lemma walk_grows (update : dive -> dive) (i : nat) :
  forall (m m' : DiveTripModel.model) (s s' : store),
    DiveTripModel.walk update i (m, s) = Ok (m', s') ->
    grows (DiveTripModel.items m) (DiveTripModel.items m')
    /\ DiveTripModel.rootItem m' = DiveTripModel.rootItem m.
Proof.
  induction i as [|i IH]; intros m m' s s' Hrun; simpl in Hrun.
  - injection Hrun as <- <-. split; [apply grows_refl | done].
  - apply bind_Ok in Hrun as ([m1 s1] & Hv & Hrun).
    apply visit_grows in Hv as [Hg1 Hr1].
    apply IH in Hrun as [Hg2 Hr2].
    split; [by eapply grows_trans | congruence].
Qed.

(** Whatever the model holds when [setupModelData] is called, the rows
    under the root are all still there when it returns, in front of the
    rows it has built. *)
Lemma setupModelData_keeps_rows
    (autogroup_dives : list dive -> list dive) (update : dive -> dive)
    (m m' : DiveTripModel.model) (s s' : store) :
  DiveTripModel.setupModelData autogroup_dives update m s = Ok (m', s') ->
  DiveTripModel.rootItem m' = DiveTripModel.rootItem m
  /\ exists built,
       TreeModel.children_of (DiveTripModel.rootItem m)
         (DiveTripModel.items m')
       = TreeModel.children_of (DiveTripModel.rootItem m)
           (DiveTripModel.items m) ++ built.
Proof.
  unfold DiveTripModel.setupModelData. intros Hrun.
  apply bind_Ok in Hrun as (n & Hn & Hrun).
  apply bind_Ok in Hrun as ([m1 s1] & Hwalk & Hrun).
  apply bind_Ok in Hrun as (n1 & Hn1 & Hrun).
  apply walk_grows in Hwalk as [Hg Hr].
  unfold DiveTripModel.rowCount, TreeModel.rowCount in Hn.
  apply bind_Ok in Hn as (rit & Hrit & _).
  destruct (DiveTripModel.items m !! DiveTripModel.rootItem m)
    as [rit0|] eqn:Hroot; simpl in Hrit; [|done].
  assert (DiveTripModel.items m' = DiveTripModel.items m1
          /\ DiveTripModel.rootItem m' = DiveTripModel.rootItem m1) as [Hi Hr'].
  { injection Hrun as <- <-. simpl. by destruct (n1 =? 0). }
  assert (grows (DiveTripModel.items m) (DiveTripModel.items m1)) as Hg'.
  { by destruct (n =? 0). }
  assert (DiveTripModel.rootItem m1 = DiveTripModel.rootItem m) as Hr1.
  { rewrite Hr. by destruct (n =? 0). }
  split; [congruence|].
  destruct (Hg' _ _ Hroot) as (rit1 & Hroot1 & extra & Hextra).
  exists extra. unfold TreeModel.children_of. by rewrite Hi, Hroot1, Hroot.
Qed.

(** C2 (evaluation at the failing input).  The model is built in grouped
    layout over the example store, and [setupModelData] is then called again
    on the same store (the cylinder update leaving the dives as they are).
    The second call announces the removal of rows 0 to 2 and removes none:
    the three rows of the first build are still under the root, the dives
    of the second build are appended to the trip items of the first (the
    [trips] map still points to them), and the tripless dive is a fourth
    row. *)
Theorem DiveTripModel_rebuild_keeps_old_rows
    (autogroup_dives : list dive -> list dive) :
  exists m1 s1 m2 s2,
    DiveTripModel.setLayout autogroup_dives (fun d => d) DiveTripModel.TREE
      (DiveTripModel.init DiveTripModel.TREE false) (example_store 1 2 3 4 1 2)
    = Ok (m1, s1)
    /\ DiveTripModel.root_rows m1
       = [DiveTripModel.Trip 2 [DiveTripModel.Dive 4];
          DiveTripModel.Dive 3;
          DiveTripModel.Trip 1 [DiveTripModel.Dive 2; DiveTripModel.Dive 1]]
    /\ DiveTripModel.setupModelData autogroup_dives (fun d => d) m1 s1
       = Ok (m2, s2)
    /\ id <$> dives s2 = [1; 2; 3; 4]
    /\ divetrip <$> dives s2 = [Some 1%nat; Some 1%nat; None; Some 2%nat]
    /\ DiveTripModel.root_rows m2
       = [DiveTripModel.Trip 2 [DiveTripModel.Dive 4; DiveTripModel.Dive 4];
          DiveTripModel.Dive 3;
          DiveTripModel.Trip 1 [DiveTripModel.Dive 2; DiveTripModel.Dive 1;
                                DiveTripModel.Dive 2; DiveTripModel.Dive 1];
          DiveTripModel.Dive 3]
    /\ DiveTripModel.events m2
       = DiveTripModel.events m1
         ++ [RowsAboutToBeRemoved 0 2; RowsRemoved 0 2;
             RowsAboutToBeInserted 0 3; RowsInserted 0 3].
Proof.
  do 4 eexists.
  split; [vm_compute; reflexivity|].
  split; [vm_compute; reflexivity|].
  split; [vm_compute; reflexivity|].
  repeat split; vm_compute; reflexivity.
Qed.

(** ** Dive computer list: edits *)

Lemma QMultiMap_elem_of_insert (key : QString) (value : DiveComputerNode)
    (m : QMultiMap.t) (kv : QString * DiveComputerNode) :
  kv ∈ QMultiMap.insert key value m <-> kv = (key, value) \/ kv ∈ m.
Proof.
  induction m as [|[k v] m IH]; simpl.
  - rewrite list_elem_of_singleton, elem_of_nil. tauto.
  - destruct (QString_ltb k key).
    + rewrite !elem_of_cons, IH. tauto.
    + rewrite elem_of_cons. tauto.
Qed.

Lemma QMultiMap_elem_of_remove (key : QString) (value : DiveComputerNode)
    (m : QMultiMap.t) (kv : QString * DiveComputerNode) :
  kv ∈ QMultiMap.remove key value m
  <-> kv ∈ m /\ ~ (QMultiMap.same_key kv.1 key = true /\ kv.2 = value).
Proof.
  unfold QMultiMap.remove.
  rewrite list_elem_of_In, filter_In, <- list_elem_of_In.
  destruct (QMultiMap.same_key kv.1 key); simpl; [|intuition congruence].
  destruct (decide (kv.2 = value)) as [Heq|Hne].
  - rewrite bool_decide_eq_true_2 by done. simpl. intuition congruence.
  - rewrite bool_decide_eq_false_2 by done. simpl. intuition congruence.
Qed.

(** C8 (as amended).  The flags mark the nickname column, and no other, as
    editable.  [setData] checks neither column nor role: for every index
    whose row holds a node, whatever the column and the role, it succeeds;
    the entries of the working map are then the node with the new nickname,
    under its model key, and the former entries other than those equal to
    the old node under that key; one [dataChanged] for the single cell is
    emitted and the row count is the same. *)
Theorem DiveComputerModel_setData_any_column
    (m : DiveComputerModel.state) (index : QModelIndex) (value : QVariant)
    (role : Z) (node : DiveComputerNode) :
  0 <= row index ->
  QMultiMap.values (DiveComputerModel.dcWorkingMap m) !! Z.to_nat (row index)
  = Some node ->
  DiveComputerModel.editable (DiveComputerModel.flags index)
  = (column index =? DiveComputerModel.NICKNAME)
  /\ exists m',
       DiveComputerModel.setData m index value role = Ok (true, m')
       /\ (forall kv,
             kv ∈ DiveComputerModel.dcWorkingMap m' <->
             kv = (model node,
                   mkNode (model node) (deviceId node) (toString value))
             \/ (kv ∈ DiveComputerModel.dcWorkingMap m
                 /\ ~ (QMultiMap.same_key kv.1 (model node) = true
                       /\ kv.2 = node)))
       /\ DiveComputerModel.events m'
          = DiveComputerModel.events m ++ [DataChanged index index]
       /\ DiveComputerModel.rowCount m' = DiveComputerModel.rowCount m.
Proof.
  intros Hrow Hnode. split.
  - unfold DiveComputerModel.flags, DiveComputerModel.QAbstractItemModel_flags,
      DiveComputerModel.editable.
    destruct (column index =? DiveComputerModel.NICKNAME), (isValid index);
      reflexivity.
  - unfold DiveComputerModel.setData, QList_at.
    rewrite (proj2 (Z.ltb_ge _ _)) by lia. rewrite Hnode. simpl.
    eexists. split; [reflexivity|]. simpl.
    split; [|done].
    intros kv. by rewrite QMultiMap_elem_of_insert, QMultiMap_elem_of_remove.
Qed.

(** The theorem at a display-role write to the model column of the only
    device. *)
Lemma DiveComputerModel_setData_any_column_witness :
  DiveComputerModel.editable
    (DiveComputerModel.flags (cell_at 0 DiveComputerModel.MODEL)) = false
  /\ exists m',
       DiveComputerModel.setData one_device (cell_at 0 DiveComputerModel.MODEL)
         (text_value ["n"; "e"; "w"]%char) Qt.DisplayRole = Ok (true, m')
       /\ (forall kv,
             kv ∈ DiveComputerModel.dcWorkingMap m' <->
             kv = (["X"]%char, mkNode ["X"]%char 1 ["n"; "e"; "w"]%char)
             \/ (kv ∈ DiveComputerModel.dcWorkingMap one_device
                 /\ ~ (QMultiMap.same_key kv.1 ["X"]%char = true
                       /\ kv.2 = mkNode ["X"]%char 1 ["o"; "l"; "d"]%char)))
       /\ DiveComputerModel.events m'
          = DiveComputerModel.events one_device
            ++ [DataChanged (cell_at 0 DiveComputerModel.MODEL)
                  (cell_at 0 DiveComputerModel.MODEL)]
       /\ DiveComputerModel.rowCount m' = 1.
Proof.
  apply (DiveComputerModel_setData_any_column one_device
           (cell_at 0 DiveComputerModel.MODEL) (text_value ["n"; "e"; "w"]%char)
           Qt.DisplayRole (mkNode ["X"]%char 1 ["o"; "l"; "d"]%char)).
  - simpl. lia.
  - reflexivity.
Defined.

(** C8 (as stated) fails: a display-role write to the model column is no
    accepted edit in the specification's words, and [setData] accepts it and
    renames the device. *)
Lemma DiveComputerModel_setData_other_column_accepted :
  spec_edit_accepted (cell_at 0 DiveComputerModel.MODEL) Qt.DisplayRole = false
  /\ DiveComputerModel.setData one_device (cell_at 0 DiveComputerModel.MODEL)
       (text_value ["n"; "e"; "w"]%char) Qt.DisplayRole
     = Ok (true,
           DiveComputerModel.mkState
             [(["X"]%char, mkNode ["X"]%char 1 ["n"; "e"; "w"]%char)] 1
             [RowsAboutToBeInserted 0 0; RowsInserted 0 0;
              DataChanged (cell_at 0 DiveComputerModel.MODEL)
                (cell_at 0 DiveComputerModel.MODEL)]).
Proof. split; vm_compute; reflexivity. Qed.

(** * Further properties *)

(** ** Table Print Model: rows, writes and reads *)

Lemma TablePrintModel_setData_display
    (m : TablePrintModel.model) (index : QModelIndex) (value : QVariant)
    (it : TablePrintModel.TablePrintItem) :
  isValid index = true ->
  0 <= column index <= 6 ->
  TablePrintModel.list m !! Z.to_nat (row index) = Some it ->
  TablePrintModel.setData m index value Qt.DisplayRole
  = Ok (true,
        TablePrintModel.set_list
          (<[Z.to_nat (row index) :=
               TablePrintModel.store_from (column index) value it]>
             (TablePrintModel.list m)) m).
Proof.
  intros Hv Hcol Hit.
  unfold TablePrintModel.setData. rewrite Hv. simpl.
  rewrite (proj2 (Z.leb_le 0 (column index))) by lia.
  rewrite (proj2 (Z.leb_le (column index) 6)) by lia.
  simpl. unfold QList_at.
  assert (0 <= row index) as Hr.
  { unfold isValid in Hv. apply andb_prop in Hv as [Hv _].
    apply andb_prop in Hv as [Hv _]. lia. }
  rewrite (proj2 (Z.ltb_ge _ _)) by lia. rewrite Hit. reflexivity.
Qed.

Lemma isValid_row_nonneg (index : QModelIndex) :
  isValid index = true -> 0 <= row index.
Proof.
  unfold isValid. intros Hv. apply andb_prop in Hv as [Hv _].
  apply andb_prop in Hv as [Hv _]. lia.
Qed.

Lemma newlines_take_le (n : nat) (s : QString) :
  newlines (take n s) <= newlines s.
Proof.
  revert n. induction s as [|c s IH]; intros [|n]; simpl; try lia.
  - pose proof (newlines_nonneg s). destruct (QChar_eqb c newline); lia.
  - specialize (IH n). lia.
Qed.

Lemma newlines_split (s : QString) :
  forall n, 0 <= n < newlines s ->
    exists pre post, s = pre ++ newline :: post /\ newlines pre = n.
Proof.
  induction s as [|c s IH]; intros n Hn; simpl in Hn; [lia|].
  destruct (QChar_eqb c newline) eqn:Hc.
  - apply Ascii.eqb_eq in Hc as ->.
    destruct (decide (n = 0)) as [->|Hn0].
    + exists [], s. done.
    + destruct (IH (n - 1)) as (pre & post & -> & Hpre); [lia|].
      exists (newline :: pre), post. split; [done|]. simpl. lia.
  - destruct (IH n) as (pre & post & -> & Hpre); [lia|].
    exists (c :: pre), post. split; [done|]. simpl. rewrite Hc. lia.
Qed.

(** X1.  The text stored for column 6 is always a prefix of the text
    written, holds at most fifteen newlines, and storing it again changes
    nothing. *)
Theorem TablePrintModel_truncate_prefix_bound (s : QString) :
  (exists rest, s = TablePrintModel.truncate s ++ rest)
  /\ newlines (TablePrintModel.truncate s) <= 15
  /\ TablePrintModel.truncate (TablePrintModel.truncate s)
     = TablePrintModel.truncate s.
Proof.
  destruct (decide (newlines s <= 15)) as [Hle|Hgt].
  - rewrite !truncate_unchanged by done.
    split; [exists []; by rewrite app_nil_r | done].
  - destruct (newlines_split s 15) as (pre & post & -> & Hpre); [lia|].
    rewrite truncate_cut by done.
    pose proof (newlines_take_le (length pre - 1) pre) as Hle.
    split; [|split; [lia | apply truncate_unchanged; lia]].
    exists (drop (length pre - 1) pre ++ newline :: post).
    by rewrite app_assoc, take_drop.
Qed.

(** X2.  The table the constructor builds is empty and its row counter
    equals the size of its row buffer.  In every table with that equality,
    [insertRow] at any position keeps it and adds one row; [setData] and
    [data] return (they do not index outside the buffer) for every valid
    index whose row is below [rowCount], whatever the column and the role,
    and [setData] keeps the equality and the row count. *)
Theorem TablePrintModel_rows_consistent (m : TablePrintModel.model) :
  (rows_consistent TablePrintModel.new
   /\ TablePrintModel.rowCount TablePrintModel.new = 0)
  /\ (rows_consistent m ->
      (forall i,
         rows_consistent (TablePrintModel.insertRow i m)
         /\ TablePrintModel.rowCount (TablePrintModel.insertRow i m)
            = TablePrintModel.rowCount m + 1
         /\ length (TablePrintModel.list (TablePrintModel.insertRow i m))
            = S (length (TablePrintModel.list m)))
      /\ (forall index value role,
            isValid index = true ->
            row index < TablePrintModel.rowCount m ->
            (exists b m',
               TablePrintModel.setData m index value role = Ok (b, m')
               /\ rows_consistent m'
               /\ TablePrintModel.rowCount m' = TablePrintModel.rowCount m)
            /\ (exists v, TablePrintModel.data m index role = Ok v))).
Proof.
  split; [split; reflexivity|].
  unfold rows_consistent, TablePrintModel.rowCount. intros Hc.
  split.
  - intros i.
    assert (length (TablePrintModel.list (TablePrintModel.insertRow i m))
            = S (length (TablePrintModel.list m))) as Hlen.
    { unfold TablePrintModel.insertRow, TablePrintModel.QList_insert.
      destruct (i =? -1); simpl; [rewrite length_app; simpl; lia|].
      destruct (i <=? 0); simpl; [lia|].
      rewrite length_app. simpl. rewrite length_take, length_drop. lia. }
    split; [|split; [|exact Hlen]].
    + rewrite Hlen. unfold TablePrintModel.insertRow.
      destruct (i =? -1); simpl; lia.
    + unfold TablePrintModel.insertRow. destruct (i =? -1); reflexivity.
  - intros index value role Hv Hrow.
    pose proof (isValid_row_nonneg index Hv) as Hr0.
    destruct (QList_at_lookup (TablePrintModel.list m) (row index))
      as (it & Hit & Hat); [lia|].
    split.
    + unfold TablePrintModel.setData. rewrite Hv, Hat. simpl.
      destruct (role =? Qt.DisplayRole).
      * destruct ((0 <=? column index) && (column index <=? 6)); simpl.
        -- do 2 eexists. split; [reflexivity|]. simpl.
           rewrite length_insert. done.
        -- do 2 eexists. split; [reflexivity|]. done.
      * destruct (role =? Qt.BackgroundRole); simpl.
        -- do 2 eexists. split; [reflexivity|]. simpl.
           rewrite length_insert. done.
        -- do 2 eexists. split; [reflexivity|]. done.
    + unfold TablePrintModel.data. rewrite Hv, Hat. simpl.
      destruct (role =? Qt.BackgroundRole); simpl; [by eexists|].
      destruct ((role =? Qt.DisplayRole) && (0 <=? column index)
                && (column index <=? 6)); simpl; [by eexists|].
      destruct (role =? Qt.FontRole); by eexists.
Qed.

(** The theorem at the first row put in the empty table the constructor
    builds, and at a tooltip-role access to a column outside the seven of
    the one-row table. *)
Lemma TablePrintModel_rows_consistent_witness :
  (rows_consistent (TablePrintModel.insertRow 0 TablePrintModel.new)
   /\ TablePrintModel.rowCount (TablePrintModel.insertRow 0 TablePrintModel.new)
      = 1)
  /\ (exists b m',
        TablePrintModel.setData one_row_table (cell_at 0 9)
          (text_value []) Qt.ToolTipRole = Ok (b, m')
        /\ rows_consistent m'
        /\ TablePrintModel.rowCount m' = 1)
  /\ (exists v,
        TablePrintModel.data one_row_table (cell_at 0 9) Qt.ToolTipRole = Ok v).
Proof.
  destruct (TablePrintModel_rows_consistent TablePrintModel.new)
    as [[Hnew _] Hstep].
  destruct (Hstep Hnew) as [Hins _].
  destruct (Hins 0) as (Hc & Hn & _).
  split; [split; [exact Hc | exact Hn]|].
  destruct (TablePrintModel_rows_consistent one_row_table) as [_ Hstep1].
  destruct (Hstep1 eq_refl) as [_ Hacc].
  apply (Hacc (cell_at 0 9) (text_value []) Qt.ToolTipRole).
  - reflexivity.
  - vm_compute. reflexivity.
Defined.

(** X3.  [insertRow(i)] with [0 <= i <= size] puts a row at position [i]
    whose seven texts are empty and whose background is white
    (0xffffffff), as the row itself and the reads of its cells show: the
    background role reads the colour 4294967295 and the display role of
    each of the seven columns reads the empty text.  The rows before [i]
    stay where they are, the rows from [i] on move down by one, and the
    insertion of row [i] is what is announced. *)
Theorem TablePrintModel_insertRow_position
    (m : TablePrintModel.model) (i : Z) :
  0 <= i <= Z.of_nat (length (TablePrintModel.list m)) ->
  TablePrintModel.list (TablePrintModel.insertRow i m) !! Z.to_nat i
  = Some (TablePrintModel.mkItem [] [] [] [] [] [] [] 4294967295)
  /\ (forall c, 0 <= c ->
      TablePrintModel.data (TablePrintModel.insertRow i m) (cell_at i c)
        Qt.BackgroundRole
      = Ok (TablePrintModel.Color 4294967295))
  /\ (forall c, 0 <= c <= 6 ->
      TablePrintModel.data (TablePrintModel.insertRow i m) (cell_at i c)
        Qt.DisplayRole
      = Ok (TablePrintModel.Text []))
  /\ (forall j, (j < Z.to_nat i)%nat ->
      TablePrintModel.list (TablePrintModel.insertRow i m) !! j
      = TablePrintModel.list m !! j)
  /\ (forall j, (Z.to_nat i <= j)%nat ->
      TablePrintModel.list (TablePrintModel.insertRow i m) !! S j
      = TablePrintModel.list m !! j)
  /\ TablePrintModel.events (TablePrintModel.insertRow i m)
     = TablePrintModel.events m
       ++ [RowsAboutToBeInserted i i; RowsInserted i i].
Proof.
  intros Hi.
  assert (TablePrintModel.list (TablePrintModel.insertRow i m) !! Z.to_nat i
          = Some (TablePrintModel.mkItem [] [] [] [] [] [] [] 4294967295))
    as Hrow.
  { unfold TablePrintModel.insertRow, TablePrintModel.QList_insert.
    rewrite (proj2 (Z.eqb_neq i (-1))) by lia. simpl.
    destruct (Z.leb_spec i 0) as [H0|H0].
    - by replace (Z.to_nat i) with 0%nat by lia.
    - rewrite lookup_app_r by (rewrite length_take; lia).
      rewrite length_take.
      by replace (Z.to_nat i - _)%nat with 0%nat by lia. }
  split; [exact Hrow|]. split; [|split].
  - intros c Hc. unfold TablePrintModel.data, isValid. simpl.
    rewrite (proj2 (Z.leb_le 0 i)), (proj2 (Z.leb_le 0 c)) by lia. simpl.
    unfold QList_at. rewrite (proj2 (Z.ltb_ge _ _)) by lia.
    rewrite Hrow. reflexivity.
  - intros c Hc.
    apply (TablePrintModel_data_text _ i c
             (TablePrintModel.mkItem [] [] [] [] [] [] [] 4294967295));
      [lia | lia | exact Hrow |].
    assert (c = 0 \/ c = 1 \/ c = 2 \/ c = 3 \/ c = 4 \/ c = 5 \/ c = 6)
      as [-> | [-> | [-> | [-> | [-> | [-> | ->]]]]]] by lia; reflexivity.
  - unfold TablePrintModel.insertRow, TablePrintModel.QList_insert.
    rewrite (proj2 (Z.eqb_neq i (-1))) by lia. simpl.
    destruct (Z.leb_spec i 0) as [H0|H0].
    + replace (Z.to_nat i) with 0%nat by lia.
      split; [intros j Hj; lia|]. split; [|done].
      intros j _. done.
    + split; [|split; [|done]].
      * intros j Hj. rewrite lookup_app_l by (rewrite length_take; lia).
        by rewrite lookup_take_lt.
      * intros j Hj. rewrite lookup_app_r by (rewrite length_take; lia).
        rewrite length_take.
        replace (S j - _)%nat with (S (j - Z.to_nat i)) by lia.
        simpl. rewrite lookup_drop. f_equal. lia.
Qed.

(** The theorem at an insertion in front of the only row of a table. *)
Lemma TablePrintModel_insertRow_position_witness :
  TablePrintModel.list (TablePrintModel.insertRow 0 one_row_table)
  = [TablePrintModel.mkItem [] [] [] [] [] [] [] 4294967295;
     TablePrintModel.mkItem [] [] [] [] [] [] [] 4294967295]
  /\ TablePrintModel.list (TablePrintModel.insertRow 0 one_row_table)
     !! Z.to_nat 0
     = Some (TablePrintModel.mkItem [] [] [] [] [] [] [] 4294967295)
  /\ (forall c, 0 <= c ->
      TablePrintModel.data (TablePrintModel.insertRow 0 one_row_table)
        (cell_at 0 c) Qt.BackgroundRole
      = Ok (TablePrintModel.Color 4294967295))
  /\ (forall c, 0 <= c <= 6 ->
      TablePrintModel.data (TablePrintModel.insertRow 0 one_row_table)
        (cell_at 0 c) Qt.DisplayRole
      = Ok (TablePrintModel.Text []))
  /\ (forall j, (j < Z.to_nat 0)%nat ->
      TablePrintModel.list (TablePrintModel.insertRow 0 one_row_table) !! j
      = TablePrintModel.list one_row_table !! j)
  /\ (forall j, (Z.to_nat 0 <= j)%nat ->
      TablePrintModel.list (TablePrintModel.insertRow 0 one_row_table) !! S j
      = TablePrintModel.list one_row_table !! j)
  /\ TablePrintModel.events (TablePrintModel.insertRow 0 one_row_table)
     = TablePrintModel.events one_row_table
       ++ [RowsAboutToBeInserted 0 0; RowsInserted 0 0].
Proof.
  split; [reflexivity|].
  apply (TablePrintModel_insertRow_position one_row_table 0).
  simpl. lia.
Defined.

Lemma QList_at_insert_eq {A : Type} (l : list A) (i : Z) (x y : A) :
  0 <= i -> l !! Z.to_nat i = Some x ->
  QList_at (<[Z.to_nat i := y]> l) i = Ok y.
Proof.
  intros Hi Hx. unfold QList_at. rewrite (proj2 (Z.ltb_ge _ _)) by lia.
  rewrite list_lookup_insert_eq by (eapply lookup_lt_Some; eauto). done.
Qed.

Lemma QList_at_insert_ne {A : Type} (l : list A) (i j : Z) (y : A) :
  0 <= i -> i <> j -> QList_at (<[Z.to_nat i := y]> l) j = QList_at l j.
Proof.
  intros Hi Hne. unfold QList_at. destruct (j <? 0) eqn:Hj; [done|].
  rewrite list_lookup_insert_ne by lia. done.
Qed.

Lemma write_step (m : TablePrintModel.model) (r col : Z) (v : QVariant)
    (it : TablePrintModel.TablePrintItem) :
  0 <= r -> 0 <= col <= 6 ->
  TablePrintModel.list m !! Z.to_nat r = Some it ->
  TablePrintModel.setData m (cell_at r col) v Qt.DisplayRole
  = Ok (true,
        TablePrintModel.set_list
          (<[Z.to_nat r := TablePrintModel.store_from col v it]>
             (TablePrintModel.list m)) m).
Proof.
  intros Hr Hcol Hit.
  apply (TablePrintModel_setData_display m (cell_at r col) v it); simpl;
    [|lia|done].
  unfold isValid. simpl.
  rewrite (proj2 (Z.leb_le 0 r)), (proj2 (Z.leb_le 0 col)) by lia. done.
Qed.

(** X4.  Filling a row by display-role writes to the columns 0 to 6 in
    ascending order stores each value in its own column (the last one
    truncated): each write spills into the columns after it, and the later
    writes put their own values there.  The background, the other rows, the
    row and column counts and the signals are kept, and reading the seven
    cells back gives the seven values (the last one truncated). *)
Theorem TablePrintModel_ascending_fill
    (m : TablePrintModel.model) (r : Z) (it : TablePrintModel.TablePrintItem)
    (v0 v1 v2 v3 v4 v5 v6 : QVariant) :
  0 <= r ->
  TablePrintModel.list m !! Z.to_nat r = Some it ->
  exists m',
    write_columns m r 0 [v0; v1; v2; v3; v4; v5; v6] = Ok m'
    /\ TablePrintModel.list m'
       = <[Z.to_nat r :=
             TablePrintModel.mkItem (toString v0) (toString v1)
               (toString v2) (toString v3) (toString v4) (toString v5)
               (TablePrintModel.truncate (toString v6))
               (TablePrintModel.colorBackground it)]>
           (TablePrintModel.list m)
    /\ TablePrintModel.rows m' = TablePrintModel.rows m
    /\ TablePrintModel.columns m' = TablePrintModel.columns m
    /\ TablePrintModel.events m' = TablePrintModel.events m
    /\ (forall c v, 0 <= c ->
        [v0; v1; v2; v3; v4; v5; v6] !! Z.to_nat c = Some v ->
        TablePrintModel.data m' (cell_at r c) Qt.DisplayRole
        = Ok (TablePrintModel.Text
                (if c <? 6 then toString v
                 else TablePrintModel.truncate (toString v)))).
Proof.
  intros Hr Hit.
  assert (Z.to_nat r < length (TablePrintModel.list m))%nat as Hlt
    by (eapply lookup_lt_Some; eauto).
  eexists. split.
  { unfold write_columns.
    rewrite (write_step m r 0 v0 it) by (done || lia). simpl.
    repeat (erewrite write_step;
            [| done | lia
             | simpl; apply list_lookup_insert_eq; rewrite ?length_insert; lia ];
            simpl; rewrite list_insert_insert_eq).
    reflexivity. }
  split; [reflexivity|].
  split; [reflexivity|]. split; [reflexivity|]. split; [reflexivity|].
  intros c v Hc Hv.
  assert (Z.to_nat c < 7)%nat as Hc7
    by (apply lookup_lt_Some in Hv; simpl in Hv; lia).
  eapply TablePrintModel_data_text;
    [done | lia | simpl; by apply list_lookup_insert_eq |].
  assert (c = 0 \/ c = 1 \/ c = 2 \/ c = 3 \/ c = 4 \/ c = 5 \/ c = 6)
    as [-> | [-> | [-> | [-> | [-> | [-> | ->]]]]]] by lia;
    simpl in Hv; injection Hv as <-; reflexivity.
Qed.

(** The theorem at the only row of a one-row table. *)
Lemma TablePrintModel_ascending_fill_witness :
  exists m',
    write_columns one_row_table 0 0
      [text_value ["0"]%char; text_value ["1"]%char; text_value ["2"]%char;
       text_value ["3"]%char; text_value ["4"]%char; text_value ["5"]%char;
       text_value twenty_lines] = Ok m'
    /\ TablePrintModel.list m'
       = [TablePrintModel.mkItem ["0"]%char ["1"]%char ["2"]%char ["3"]%char
            ["4"]%char ["5"]%char (take 46 twenty_lines) 4294967295]
    /\ TablePrintModel.data m' (cell_at 0 2) Qt.DisplayRole
       = Ok (TablePrintModel.Text ["2"]%char)
    /\ TablePrintModel.data m' (cell_at 0 6) Qt.DisplayRole
       = Ok (TablePrintModel.Text (take 46 twenty_lines)).
Proof.
  destruct (TablePrintModel_ascending_fill one_row_table 0
              (TablePrintModel.mkItem [] [] [] [] [] [] [] 4294967295)
              (text_value ["0"]%char) (text_value ["1"]%char)
              (text_value ["2"]%char) (text_value ["3"]%char)
              (text_value ["4"]%char) (text_value ["5"]%char)
              (text_value twenty_lines))
    as (m' & Hrun & Hlist & _ & _ & _ & Hread).
  - lia.
  - reflexivity.
  - exists m'. split; [exact Hrun|]. split; [exact Hlist|]. split.
    + apply (Hread 2 (text_value ["2"]%char)); [lia | reflexivity].
    + apply (Hread 6 (text_value twenty_lines)); [lia | reflexivity].
Defined.

(** X5.  After a display-role write to a cell of the columns 0 to 6, the
    display role of that cell reads the written text back (its truncation
    for column 6); the background of the row and every cell of the other
    rows read as before. *)
Theorem TablePrintModel_write_then_read
    (m : TablePrintModel.model) (index : QModelIndex) (value : QVariant)
    (it : TablePrintModel.TablePrintItem) :
  isValid index = true ->
  0 <= column index <= 6 ->
  TablePrintModel.list m !! Z.to_nat (row index) = Some it ->
  exists m',
    TablePrintModel.setData m index value Qt.DisplayRole = Ok (true, m')
    /\ TablePrintModel.data m' index Qt.DisplayRole
       = Ok (TablePrintModel.Text
               (if column index <? 6 then toString value
                else TablePrintModel.truncate (toString value)))
    /\ TablePrintModel.data m' index Qt.BackgroundRole
       = TablePrintModel.data m index Qt.BackgroundRole
    /\ (forall other role,
          row other <> row index ->
          TablePrintModel.data m' other role
          = TablePrintModel.data m other role).
Proof.
  intros Hv Hcol Hit.
  pose proof (isValid_row_nonneg index Hv) as Hr.
  eexists. split; [by apply TablePrintModel_setData_display|].
  unfold TablePrintModel.data. rewrite Hv. simpl.
  rewrite (proj2 (Z.leb_le 0 (column index))) by lia.
  rewrite (proj2 (Z.leb_le (column index) 6)) by lia. simpl.
  rewrite (QList_at_insert_eq _ _ it) by done. simpl.
  split; [|split].
  - assert (column index = 0 \/ column index = 1 \/ column index = 2
            \/ column index = 3 \/ column index = 4 \/ column index = 5
            \/ column index = 6) as Hk by lia.
    destruct Hk as [-> | [-> | [-> | [-> | [-> | [-> | ->]]]]]]; reflexivity.
  - unfold QList_at. rewrite (proj2 (Z.ltb_ge _ _)) by lia. rewrite Hit. simpl.
    assert (column index = 0 \/ column index = 1 \/ column index = 2
            \/ column index = 3 \/ column index = 4 \/ column index = 5
            \/ column index = 6) as Hk by lia.
    destruct Hk as [-> | [-> | [-> | [-> | [-> | [-> | ->]]]]]]; reflexivity.
  - intros other role Hne.
    rewrite QList_at_insert_ne by (done || lia). reflexivity.
Qed.

(** The theorem at a write to column 5 of the only row of a table. *)
Lemma TablePrintModel_write_then_read_witness :
  exists m',
    TablePrintModel.setData one_row_table (cell_at 0 5)
      (text_value twenty_lines) Qt.DisplayRole = Ok (true, m')
    /\ TablePrintModel.data m' (cell_at 0 5) Qt.DisplayRole
       = Ok (TablePrintModel.Text twenty_lines)
    /\ TablePrintModel.data m' (cell_at 0 5) Qt.BackgroundRole
       = TablePrintModel.data one_row_table (cell_at 0 5) Qt.BackgroundRole
    /\ (forall other role,
          row other <> 0 ->
          TablePrintModel.data m' other role
          = TablePrintModel.data one_row_table other role).
Proof.
  apply (TablePrintModel_write_then_read one_row_table (cell_at 0 5)
           (text_value twenty_lines) blank_row).
  - reflexivity.
  - simpl. lia.
  - reflexivity.
Defined.

(** X6.  After a background-role write to a valid index, the background
    role of the row reads the written colour, and every other role of
    every cell reads as before: a background write changes no text. *)
Theorem TablePrintModel_background_then_read
    (m : TablePrintModel.model) (index : QModelIndex) (value : QVariant)
    (it : TablePrintModel.TablePrintItem) :
  isValid index = true ->
  TablePrintModel.list m !! Z.to_nat (row index) = Some it ->
  exists m',
    TablePrintModel.setData m index value Qt.BackgroundRole = Ok (true, m')
    /\ TablePrintModel.data m' index Qt.BackgroundRole
       = Ok (TablePrintModel.Color (toUInt value))
    /\ (forall other role,
          role <> Qt.BackgroundRole ->
          TablePrintModel.data m' other role
          = TablePrintModel.data m other role).
Proof.
  intros Hv Hit.
  pose proof (isValid_row_nonneg index Hv) as Hr.
  unfold TablePrintModel.setData. rewrite Hv. simpl.
  unfold QList_at at 1. rewrite (proj2 (Z.ltb_ge _ _)) by lia.
  rewrite Hit. simpl.
  eexists. split; [reflexivity|].
  unfold TablePrintModel.data. simpl. rewrite Hv. simpl.
  rewrite (QList_at_insert_eq _ _ it) by done. simpl.
  split; [reflexivity|].
  intros other role Hrole.
  rewrite (proj2 (Z.eqb_neq role Qt.BackgroundRole)) by done.
  destruct (negb (isValid other)); [done|].
  destruct ((role =? Qt.DisplayRole) && (0 <=? column other)
            && (column other <=? 6)); [|done].
  destruct (decide (row index = row other)) as [Heq|Hne].
  - rewrite <- Heq. rewrite (QList_at_insert_eq _ _ it) by done.
    unfold QList_at. rewrite (proj2 (Z.ltb_ge _ _)) by lia. rewrite Hit.
    reflexivity.
  - rewrite QList_at_insert_ne by done. reflexivity.
Qed.

(** The theorem at a background write to the only row of a table. *)
Lemma TablePrintModel_background_then_read_witness :
  exists m',
    TablePrintModel.setData one_row_table (cell_at 0 3) (mkQVariant 0 [] 255)
      Qt.BackgroundRole = Ok (true, m')
    /\ TablePrintModel.data m' (cell_at 0 3) Qt.BackgroundRole
       = Ok (TablePrintModel.Color 255)
    /\ (forall other role,
          role <> Qt.BackgroundRole ->
          TablePrintModel.data m' other role
          = TablePrintModel.data one_row_table other role).
Proof.
  apply (TablePrintModel_background_then_read one_row_table (cell_at 0 3)
           (mkQVariant 0 [] 255) blank_row).
  - reflexivity.
  - reflexivity.
Defined.

(** ** Dive list: numbers, flags, texts and sort keys *)

(** X7.  An edit of the number column, accepted or not, keeps the dive
    table free of duplicate nonzero numbers when it was so before, and
    changes neither the size of the table nor the id, the trip or the
    position of any dive. *)
Theorem DiveItem_setData_keeps_numbers_unique
    (diveId : Z) (index : QModelIndex) (value : QVariant) (role : Z)
    (s s' : store) (b : bool) :
  DiveItem.setData diveId index value role s = Ok (b, s') ->
  numbers_unique s ->
  numbers_unique s'
  /\ length (dives s') = length (dives s)
  /\ id <$> dives s' = id <$> dives s
  /\ divetrip <$> dives s' = divetrip <$> dives s.
Proof.
  unfold DiveItem.setData. intros Hrun Huniq.
  destruct (negb (role =? Qt.EditRole)); [by injection Hrun as <- <-|].
  destruct (negb (column index =? DiveItem.NR)); [by injection Hrun as <- <-|].
  simpl in Hrun.
  destruct (Z.eqb_spec (toInt value) 0) as [Hz|Hz];
    [by injection Hrun as <- <-|].
  destruct (DiveStore.number_in_use (toInt value) s) eqn:Huse;
    [by injection Hrun as <- <-|].
  apply bind_Ok in Hrun as (k & Hk & Hrun).
  apply bind_Ok in Hrun as (d & Hd & Hrun).
  destruct (dives s !! k) as [d0|] eqn:Hdk; simpl in Hd; [|done].
  injection Hd as ->. injection Hrun as <- <-. simpl.
  assert (forall j dj, dives s !! j = Some dj -> number dj <> toInt value)
    as Hfree.
  { intros j dj Hj Heq.
    assert (DiveStore.number_in_use (toInt value) s = true); [|congruence].
    apply number_in_use_true. exists dj.
    split; [by eapply list_elem_of_lookup_2 | done]. }
  assert (k < length (dives s))%nat as Hlt by (eapply lookup_lt_Some; eauto).
  split; [|split; [by rewrite length_insert|split]].
  - intros i j di dj Hij Hi Hj Hnz. simpl in Hi, Hj.
    destruct (decide (i = k)) as [->|Hik].
    + rewrite list_lookup_insert_eq in Hi by done. injection Hi as <-. simpl.
      rewrite list_lookup_insert_ne in Hj by done.
      intros Heq. by apply (Hfree j dj Hj).
    + rewrite list_lookup_insert_ne in Hi by done.
      destruct (decide (j = k)) as [->|Hjk].
      * rewrite list_lookup_insert_eq in Hj by done. injection Hj as <-. simpl.
        by apply Hfree in Hi.
      * rewrite list_lookup_insert_ne in Hj by done.
        exact (Huniq i j di dj Hij Hi Hj Hnz).
  - rewrite list_fmap_insert. simpl. apply list_insert_id.
    by rewrite list_lookup_fmap, Hdk.
  - rewrite list_fmap_insert. simpl. apply list_insert_id.
    by rewrite list_lookup_fmap, Hdk.
Qed.

(** The theorem at the accepted edit of dive 20 to the unused number 7. *)
Lemma DiveItem_setData_keeps_numbers_unique_witness :
  numbers_unique (mkStore [mkDive 10 1 None 0; mkDive 20 7 None 0] 2 true)
  /\ length [mkDive 10 1 None 0; mkDive 20 7 None 0] = 2%nat
  /\ id <$> [mkDive 10 1 None 0; mkDive 20 7 None 0] = [10; 20]
  /\ divetrip <$> [mkDive 10 1 None 0; mkDive 20 7 None 0] = [None; None].
Proof.
  apply (DiveItem_setData_keeps_numbers_unique 20 (cell_at 1 DiveItem.NR)
           (int_value 7) Qt.EditRole
           (mkStore [mkDive 10 1 None 0; mkDive 20 2 None 0] 2 false)
           (mkStore [mkDive 10 1 None 0; mkDive 20 7 None 0] 2 true) true).
  - reflexivity.
  - intros i j di dj Hij Hi Hj _. simpl in Hi, Hj.
    destruct i as [|[|i]], j as [|[|j]]; simpl in Hi, Hj;
      try done; injection Hi as <-; injection Hj as <-; simpl; lia.
Defined.

(** X8.  For a valid index, the dive list accepts an edit only where its
    flags announce an editable cell: whenever [DiveTripModel::setData]
    succeeds, the item is a dive item, the column is the number column, and
    [DiveTripModel::flags] of that index carries [ItemIsEditable]; on a trip
    item [setData] fails, the store is kept, and the flags carry no
    [ItemIsEditable]. *)
Theorem DiveTripModel_setData_within_flags
    (m : DiveTripModel.model) (index : QModelIndex) (value : QVariant)
    (role : Z) (s s' : store) (b : bool) (a : addr) (it : TreeModel.TreeItem) :
  isValid index = true ->
  internalPointer index = Some a ->
  DiveTripModel.items m !! a = Some it ->
  DiveTripModel.setData m index value role s = Ok (b, s') ->
  exists f,
    DiveTripModelFlags.flags (DiveTripModel.items m) index = Ok f
    /\ (b = true ->
        has_editable f = true /\ column index = DiveItem.NR
        /\ exists diveId, TreeModel.kind it = TreeModel.DiveItem diveId)
    /\ (forall t, TreeModel.kind it = TreeModel.TripItem t ->
        b = false /\ s' = s /\ has_editable f = false).
Proof.
  intros Hv Hptr Hit Hrun.
  unfold DiveTripModelFlags.flags. rewrite Hv, Hptr. simpl. rewrite Hit. simpl.
  unfold DiveTripModel.setData in Hrun. rewrite Hptr, Hit in Hrun.
  simpl in Hrun.
  destruct (TreeModel.kind it) as [|diveId|t|st] eqn:Hkind.
  - injection Hrun as <- <-. eexists. split; [done|]. split; [done|]. done.
  - eexists. split; [done|]. split; [|done].
    intros ->. unfold DiveItem.setData in Hrun.
    destruct (negb (role =? Qt.EditRole)); [done|].
    destruct (Z.eqb_spec (column index) DiveItem.NR) as [Hcol|Hcol];
      simpl in Hrun; [|done].
    unfold DiveItem.flags. rewrite Hcol. simpl.
    split; [reflexivity|]. split; [done|]. by exists diveId.
  - injection Hrun as <- <-. eexists. split; [done|]. split; [done|].
    intros _ _. done.
  - injection Hrun as <- <-. eexists. split; [done|]. split; [done|]. done.
Qed.

(** The theorem at the accepted edit of the dive row of a list with one
    dive: the flags of that cell carry [ItemIsEditable]. *)
Lemma DiveTripModel_setData_within_flags_witness :
  exists f,
    DiveTripModelFlags.flags
      [TreeModel.mkTreeItem TreeModel.PlainItem None [1%nat];
       TreeModel.mkTreeItem (TreeModel.DiveItem 20) (Some 0%nat) []]
      (mkIndex 0 0 true (Some 1%nat)) = Ok f
    /\ has_editable f = true.
Proof.
  destruct (DiveTripModel_setData_within_flags
              (DiveTripModel.mkModel
                 [TreeModel.mkTreeItem TreeModel.PlainItem None [1%nat];
                  TreeModel.mkTreeItem (TreeModel.DiveItem 20) (Some 0%nat) []]
                 0 14 ∅ DiveTripModel.LIST false [])
              (mkIndex 0 0 true (Some 1%nat)) (int_value 7) Qt.EditRole
              (mkStore [mkDive 20 2 None 0] 1 false)
              (mkStore [mkDive 20 7 None 0] 1 true) true 1%nat
              (TreeModel.mkTreeItem (TreeModel.DiveItem 20) (Some 0%nat) []))
    as (f & Hf & Hok & _).
  - reflexivity.
  - reflexivity.
  - reflexivity.
  - reflexivity.
  - exists f. split; [exact Hf|]. apply Hok. reflexivity.
Defined.

Lemma to_uint_small (x : Z) :
  0 <= x < 4294967296 -> DiveItemDisplay.to_uint x = x.
Proof. intros Hx. unfold DiveItemDisplay.to_uint. apply Z.mod_small. lia. Qed.

Lemma to_int_small (x : Z) :
  -2147483648 <= x < 2147483648 -> DiveItemDisplay.to_int x = x.
Proof.
  intros Hx. unfold DiveItemDisplay.to_int. rewrite Z.mod_small; lia.
Qed.

(** X9.  The duration text of a dive of [seconds] seconds, for
    [0 <= seconds <= 2147483647], the range in which none of the 32-bit
    computations wraps.  With the minutes rounded up: from 60 minutes on the
    text is hours and minutes (minutes below 60, the rounded-up duration);
    below 60 minutes it is the exact duration in minutes and seconds when
    the rounded minutes are below 15 or the dive is a free dive, and the
    rounded-up minutes otherwise.  At the largest value a [uint32_t] holds
    the sum [seconds + 59] wraps and the text is minutes and seconds,
    71582788 minutes and 15 seconds. *)
Theorem DiveItem_displayDuration_formats (seconds : Z) (freedive : bool) :
  (0 <= seconds <= 2147483647 ->
   match DiveItemDisplay.displayDuration seconds freedive with
   | DiveItemDisplay.HoursMinutes hrs mins =>
       1 <= hrs /\ 0 <= mins < 60
       /\ 60 * (60 * hrs + mins - 1) < seconds <= 60 * (60 * hrs + mins)
   | DiveItemDisplay.MinutesSeconds fullmins secs =>
       0 <= secs < 60 /\ 60 * fullmins + secs = seconds
       /\ seconds <= 60 * 59
       /\ (seconds <= 60 * 14 \/ freedive = true)
   | DiveItemDisplay.Minutes mins =>
       15 <= mins < 60 /\ 60 * (mins - 1) < seconds <= 60 * mins
       /\ freedive = false
   end)
  /\ DiveItemDisplay.displayDuration 4294967295 freedive
     = DiveItemDisplay.MinutesSeconds 71582788 15.
Proof.
  split; [|by destruct freedive].
  intros Hs. unfold DiveItemDisplay.displayDuration. cbv zeta.
  rewrite (to_uint_small (seconds + 59)) by lia.
  rewrite (Z.quot_div_nonneg (seconds + 59) 60) by lia.
  rewrite (Z.quot_div_nonneg seconds 60) by lia.
  pose proof (Z.div_mod (seconds + 59) 60 ltac:(lia)) as H1.
  pose proof (Z.mod_pos_bound (seconds + 59) 60 ltac:(lia)) as H2.
  pose proof (Z.div_mod seconds 60 ltac:(lia)) as H3.
  pose proof (Z.mod_pos_bound seconds 60 ltac:(lia)) as H4.
  pose proof (Z.div_mod ((seconds + 59) / 60) 60 ltac:(lia)) as H5.
  pose proof (Z.mod_pos_bound ((seconds + 59) / 60) 60 ltac:(lia)) as H6.
  set (M := (seconds + 59) / 60) in *.
  set (F := seconds / 60) in *.
  assert (0 <= M) as HM by (apply Z.div_pos; lia).
  assert (0 <= F) as HF by (apply Z.div_pos; lia).
  rewrite (to_int_small M) by lia.
  rewrite (to_int_small F) by lia.
  rewrite (to_int_small (60 * F)) by lia.
  rewrite (to_uint_small (60 * F)) by lia.
  rewrite (to_uint_small (seconds - 60 * F)) by lia.
  rewrite (to_int_small (seconds - 60 * F)) by lia.
  rewrite (Z.quot_div_nonneg M 60) by lia.
  set (Q := M / 60) in *.
  assert (0 <= Q) as HQ by (apply Z.div_pos; lia).
  rewrite (to_int_small Q) by lia.
  rewrite (to_int_small (Q * 60)) by lia.
  rewrite (to_int_small (M - Q * 60)) by lia.
  destruct (Z.eqb_spec Q 0) as [Hz|Hz]; simpl.
  - destruct (Z.ltb_spec (M - Q * 60) 15) as [Hlt|Hge]; simpl.
    + repeat split; lia.
    + destruct freedive; repeat split; lia.
  - repeat split; lia.
Qed.

(** The theorem at a dive of 59 minutes 30 seconds, shown as ["1:00"]. *)
Lemma DiveItem_displayDuration_formats_witness :
  DiveItemDisplay.displayDuration 3570 false
  = DiveItemDisplay.HoursMinutes 1 0
  /\ match DiveItemDisplay.displayDuration 3570 false with
     | DiveItemDisplay.HoursMinutes hrs mins =>
         1 <= hrs /\ 0 <= mins < 60
         /\ 60 * (60 * hrs + mins - 1) < 3570 <= 60 * (60 * hrs + mins)
     | DiveItemDisplay.MinutesSeconds fullmins secs =>
         0 <= secs < 60 /\ 60 * fullmins + secs = 3570
         /\ 3570 <= 60 * 59
         /\ (3570 <= 60 * 14 \/ false = true)
     | DiveItemDisplay.Minutes mins =>
         15 <= mins < 60 /\ 60 * (mins - 1) < 3570 <= 60 * mins
         /\ false = false
     end.
Proof.
  split; [reflexivity|].
  apply (DiveItem_displayDuration_formats 3570 false). lia.
Defined.

(** X10.  The sort key of the gas column, for oxygen permille values
    between 0 and 1000 and helium values between 0 and 2147482 (the range in
    which the [int] key does not overflow; a permille value is at most
    1000), never puts a mix with more helium before one with less, and
    orders mixes of equal helium by their oxygen.  From a helium value of
    2147484 on the [int] product wraps, and the key of such a mix lies below
    the key of air. *)
Theorem nitrox_sort_value_order (o2a hea o2b heb : Z) :
  (0 <= o2a <= 1000 -> 0 <= o2b <= 1000 ->
   0 <= hea <= 2147482 -> 0 <= heb <= 2147482 ->
   (hea < heb ->
    DiveItemDisplay.nitrox_sort_value o2a hea
    <= DiveItemDisplay.nitrox_sort_value o2b heb)
   /\ (hea = heb ->
       (DiveItemDisplay.nitrox_sort_value o2a hea
        < DiveItemDisplay.nitrox_sort_value o2b heb <-> o2a < o2b))
   /\ (DiveItemDisplay.nitrox_sort_value o2a hea
       = DiveItemDisplay.nitrox_sort_value o2b heb ->
       o2a < 1000 -> o2b < 1000 -> hea = heb /\ o2a = o2b))
  /\ DiveItemDisplay.nitrox_sort_value 0 2147484
     < DiveItemDisplay.nitrox_sort_value 209 0.
Proof.
  split; [|reflexivity].
  unfold DiveItemDisplay.nitrox_sort_value. intros Ha Hb Hha Hhb.
  rewrite (to_int_small (hea * 1000)), (to_int_small (heb * 1000)) by lia.
  rewrite (to_int_small (hea * 1000 + o2a)) by lia.
  rewrite (to_int_small (heb * 1000 + o2b)) by lia.
  repeat split; intros; lia.
Qed.

(** The theorem at air and a trimix 18/45. *)
Lemma nitrox_sort_value_order_witness :
  DiveItemDisplay.nitrox_sort_value 209 0
  <= DiveItemDisplay.nitrox_sort_value 180 450.
Proof.
  apply (nitrox_sort_value_order 209 0 180 450); lia.
Defined.

Lemma countShown_visible (hidden : list bool) (count : Z) :
  TripItem.countShown hidden count = count + visible_dives hidden.
Proof.
  unfold visible_dives. revert count.
  induction hidden as [|h hidden IH]; intros count; simpl; [lia|].
  rewrite IH.
  destruct h;
    [rewrite filter_cons_False by done | rewrite filter_cons_True by done];
    simpl; lia.
Qed.

Lemma visible_dives_bounds (hidden : list bool) :
  0 <= visible_dives hidden <= Z.of_nat (length hidden)
  /\ (visible_dives hidden = Z.of_nat (length hidden)
      <-> Forall (fun h => h = false) hidden).
Proof.
  unfold visible_dives. induction hidden as [|h hidden [IH1 IH2]]; simpl.
  - split; [lia|]. split; [constructor | done].
  - destruct h;
      [rewrite filter_cons_False by done | rewrite filter_cons_True by done];
      simpl length.
    + split; [lia|]. split; [lia|].
      intros HF. by apply Forall_cons_1 in HF as [? _].
    + split; [lia|]. split.
      * intros Heq. constructor; [done|]. apply IH2. lia.
      * intros HF. apply Forall_cons_1 in HF as [_ HF]. apply IH2 in HF. lia.
Qed.

(** X11.  The label of a trip whose dive count is the number of its dives:
    it carries the "shown" suffix exactly when the filter hides one of the
    dives, the count in the suffix is the number of dives not hidden, below
    the dive count; the location is part of the label exactly when the trip
    has a non-empty one. *)
Theorem TripItem_label_hidden_suffix (trip : TripItem.dive_trip_t) :
  TripItem.nrdives trip
  = Z.of_nat (length (TripItem.hidden_by_filter trip)) ->
  (TripItem.label_shown (TripItem.display_NR trip) = None
   <-> Forall (fun h => h = false) (TripItem.hidden_by_filter trip))
  /\ (forall n,
        TripItem.label_shown (TripItem.display_NR trip) = Some n ->
        n = visible_dives (TripItem.hidden_by_filter trip)
        /\ 0 <= n < TripItem.nrdives trip)
  /\ TripItem.label_nrdives (TripItem.display_NR trip) = TripItem.nrdives trip
  /\ (TripItem.label_location (TripItem.display_NR trip) = None
      <-> TripItem.location trip = None \/ TripItem.location trip = Some [])
  /\ (forall l, TripItem.label_location (TripItem.display_NR trip) = Some l ->
      TripItem.location trip = Some l).
Proof.
  intros Hn.
  pose proof (visible_dives_bounds (TripItem.hidden_by_filter trip))
    as [Hb Hall].
  assert (TripItem.label_shown (TripItem.display_NR trip)
          = if visible_dives (TripItem.hidden_by_filter trip)
               <? TripItem.nrdives trip
            then Some (visible_dives (TripItem.hidden_by_filter trip))
            else None) as Hshown.
  { unfold TripItem.display_NR. rewrite countShown_visible. simpl.
    by destruct (TripItem.location trip) as [[|c l]|]. }
  split; [|split; [|split; [|split]]].
  - rewrite Hshown, <- Hall.
    destruct (Z.ltb_spec (visible_dives (TripItem.hidden_by_filter trip))
                (TripItem.nrdives trip)); split; intros; (done || lia).
  - intros n. rewrite Hshown.
    destruct (Z.ltb_spec (visible_dives (TripItem.hidden_by_filter trip))
                (TripItem.nrdives trip)); [|done].
    intros [= <-]. lia.
  - unfold TripItem.display_NR.
    by destruct (TripItem.location trip) as [[|c l]|].
  - unfold TripItem.display_NR.
    destruct (TripItem.location trip) as [[|c l]|]; simpl;
      split; intros; try done; try tauto.
    destruct H as [H|H]; done.
  - intros l. unfold TripItem.display_NR.
    by destruct (TripItem.location trip) as [[|c l']|].
Qed.

(** The theorem at a trip of three dives of which the filter hides one:
    the label ends in "(2 shown)". *)
Lemma TripItem_label_hidden_suffix_witness :
  TripItem.label_shown
    (TripItem.display_NR
       (TripItem.mkTrip (Some ["B"; "a"; "l"; "i"]%char) 0 3
          [false; true; false])) = Some 2
  /\ forall n,
       TripItem.label_shown
         (TripItem.display_NR
            (TripItem.mkTrip (Some ["B"; "a"; "l"; "i"]%char) 0 3
               [false; true; false])) = Some n ->
       n = visible_dives [false; true; false] /\ 0 <= n < 3.
Proof.
  split; [reflexivity|].
  apply (TripItem_label_hidden_suffix
           (TripItem.mkTrip (Some ["B"; "a"; "l"; "i"]%char) 0 3
              [false; true; false])).
  reflexivity.
Defined.

(** ** Dive computer list: rows, edits and commits *)

Lemma QString_ltb_irrefl (a : QString) : QString_ltb a a = false.
Proof.
  induction a as [|c a IH]; simpl; [done|].
  by rewrite Nat.ltb_irrefl.
Qed.

Lemma QString_ltb_asym (a b : QString) :
  QString_ltb a b = true -> QString_ltb b a = false.
Proof.
  revert b. induction a as [|x a IH]; intros [|y b]; simpl; try done.
  destruct (Nat.ltb_spec (nat_of_ascii x) (nat_of_ascii y)) as [Hxy|Hxy].
  - intros _.
    destruct (Nat.ltb_spec (nat_of_ascii y) (nat_of_ascii x)); [lia|done].
  - destruct (Nat.ltb_spec (nat_of_ascii y) (nat_of_ascii x)) as [Hyx|Hyx];
      [done|]. apply IH.
Qed.

Lemma same_key_refl (k : QString) : QMultiMap.same_key k k = true.
Proof. unfold QMultiMap.same_key. by rewrite QString_ltb_irrefl. Qed.


Lemma QMultiMap_length_remove (key : QString) (value : DiveComputerNode)
    (m : QMultiMap.t) :
  (key, value) ∈ m ->
  (length (QMultiMap.remove key value m) < length m)%nat.
Proof.
  unfold QMultiMap.remove.
  induction m as [|[k v] m IH]; intros Hin; [by apply elem_of_nil in Hin|].
  simpl.
  pose proof (List.filter_length_le
    (fun kv : QString * DiveComputerNode =>
       negb (QMultiMap.same_key kv.1 key && bool_decide (kv.2 = value))) m)
    as Hle.
  destruct (QMultiMap.same_key k key && bool_decide (v = value)) eqn:Hp;
    simpl; [lia|].
  apply elem_of_cons in Hin as [Heq|Hin].
  - injection Heq as <- <-.
    rewrite same_key_refl, bool_decide_eq_true_2 in Hp by done. done.
  - specialize (IH Hin). lia.
Qed.

Lemma values_lookup (m : list (QString * DiveComputerNode)) (i : nat)
    (node : DiveComputerNode) :
  QMultiMap.values m !! i = Some node -> exists k, m !! i = Some (k, node).
Proof.
  unfold QMultiMap.values. rewrite list_lookup_fmap.
  destruct (m !! i) as [[k v]|]; simpl; [|done].
  intros Heq. injection Heq as ->. by exists k.
Qed.

Lemma QList_at_Ok {A : Type} (l : list A) (i : Z) (x : A) :
  QList_at l i = Ok x <-> 0 <= i /\ l !! Z.to_nat i = Some x.
Proof.
  unfold QList_at. destruct (Z.ltb_spec i 0) as [Hlt|Hge].
  - split; [done | lia].
  - destruct (l !! Z.to_nat i) as [y|]; simpl; split.
    + intros Heq. injection Heq as ->. split; [lia | done].
    + intros [_ Heq]. by injection Heq as ->.
    + done.
    + by intros [_ Heq].
Qed.

Lemma DiveComputerModel_update_rows_aux (m : DiveComputerModel.state) :
  DiveComputerModel.rowCount (DiveComputerModel.update m)
  = Z.of_nat (length (DiveComputerModel.dcWorkingMap m))
  /\ DiveComputerModel.dcWorkingMap (DiveComputerModel.update m)
     = DiveComputerModel.dcWorkingMap m.
Proof.
  unfold DiveComputerModel.update, DiveComputerModel.rowCount,
    QMultiMap.values.
  rewrite length_fmap.
  destruct (DiveComputerModel.numRows m =? 0) eqn:Hn;
    destruct (Z.eqb_spec
                (Z.of_nat (length (DiveComputerModel.dcWorkingMap m))) 0)
      as [Hc|Hc]; simpl; split; try done; try lia.
Qed.

(** X12.  [update] sets the row count to the number of entries of the
    working map and leaves the map alone; after it, [data] returns for
    exactly the indexes whose row is one of these rows, whatever their
    column, their role or their validity. *)
Theorem DiveComputerModel_update_rows (m : DiveComputerModel.state) :
  DiveComputerModel.rowCount (DiveComputerModel.update m)
  = Z.of_nat (length (DiveComputerModel.dcWorkingMap m))
  /\ DiveComputerModel.dcWorkingMap (DiveComputerModel.update m)
     = DiveComputerModel.dcWorkingMap m
  /\ (forall index role,
        (exists v,
           DiveComputerModelData.data (DiveComputerModel.update m) index role
           = Ok v)
        <-> 0 <= row index
            < DiveComputerModel.rowCount (DiveComputerModel.update m)).
Proof.
  destruct (DiveComputerModel_update_rows_aux m) as [Hrows Hmap].
  split; [done|]. split; [done|].
  intros index role. rewrite Hrows.
  unfold DiveComputerModelData.data. rewrite Hmap.
  destruct (QList_at (QMultiMap.values (DiveComputerModel.dcWorkingMap m))
              (row index)) as [node|] eqn:Hat; simpl.
  - apply QList_at_Ok in Hat as [H0 Hnode].
    apply lookup_lt_Some in Hnode.
    unfold QMultiMap.values in Hnode. rewrite length_fmap in Hnode.
    split; [lia | by eexists].
  - split; [by intros [v Hv]|]. intros Hr.
    destruct (QList_at_lookup
                (QMultiMap.values (DiveComputerModel.dcWorkingMap m))
                (row index)) as (x & _ & Hx).
    + unfold QMultiMap.values. rewrite length_fmap. lia.
    + congruence.
Qed.



(** X14.  On such a working map, [remove] of a row that holds a node takes
    every entry equal to that node out of the map, so the map has fewer
    entries, and sets the row count to the number of entries left. *)
Theorem DiveComputerModel_remove_row
    (m : DiveComputerModel.state) (index : QModelIndex)
    (node : DiveComputerNode) :
  keyed_by_model (DiveComputerModel.dcWorkingMap m) ->
  0 <= row index ->
  QMultiMap.values (DiveComputerModel.dcWorkingMap m) !! Z.to_nat (row index)
  = Some node ->
  exists m',
    DiveComputerModel.remove m index = Ok m'
    /\ ((model node, node) ∉ DiveComputerModel.dcWorkingMap m')
    /\ (forall kv, kv ∈ DiveComputerModel.dcWorkingMap m' ->
        kv ∈ DiveComputerModel.dcWorkingMap m)
    /\ (length (DiveComputerModel.dcWorkingMap m')
        < length (DiveComputerModel.dcWorkingMap m))%nat
    /\ DiveComputerModel.rowCount m'
       = Z.of_nat (length (DiveComputerModel.dcWorkingMap m')).
Proof.
  intros Hkeys H0 Hnode. unfold DiveComputerModel.remove.
  rewrite (proj2 (QList_at_Ok _ _ _) (conj H0 Hnode)). simpl.
  eexists. split; [reflexivity|].
  set (st := DiveComputerModel.mkState _ _ _).
  destruct (DiveComputerModel_update_rows_aux st) as [Hrows Hmap].
  rewrite Hrows, Hmap. unfold st. simpl.
  apply values_lookup in Hnode as [k Hk].
  assert (k = model node) as ->.
  { unfold keyed_by_model in Hkeys. rewrite Forall_lookup in Hkeys.
    apply (Hkeys _ _ Hk). }
  split; [|split; [|split; [|done]]].
  - rewrite QMultiMap_elem_of_remove. simpl. rewrite same_key_refl. tauto.
  - intros kv Hin. by apply QMultiMap_elem_of_remove in Hin as [Hin _].
  - apply QMultiMap_length_remove. by eapply list_elem_of_lookup_2.
Qed.

(** The theorem at the removal of the only device. *)
Lemma DiveComputerModel_remove_row_witness :
  exists m',
    DiveComputerModel.remove one_device (cell_at 0 DiveComputerModel.REMOVE)
    = Ok m'
    /\ ((["X"]%char, mkNode ["X"]%char 1 ["o"; "l"; "d"]%char)
        ∉ DiveComputerModel.dcWorkingMap m')
    /\ (forall kv, kv ∈ DiveComputerModel.dcWorkingMap m' ->
        kv ∈ DiveComputerModel.dcWorkingMap one_device)
    /\ (length (DiveComputerModel.dcWorkingMap m') < 1)%nat
    /\ DiveComputerModel.rowCount m'
       = Z.of_nat (length (DiveComputerModel.dcWorkingMap m')).
Proof.
  apply (DiveComputerModel_remove_row one_device
           (cell_at 0 DiveComputerModel.REMOVE)
           (mkNode ["X"]%char 1 ["o"; "l"; "d"]%char)).
  - constructor; [reflexivity | constructor].
  - simpl. lia.
  - reflexivity.
Defined.

Lemma remove_keeps_larger_keys (k : QString) (node : DiveComputerNode)
    (m : QMultiMap.t) :
  Forall (fun kv : QString * DiveComputerNode => QString_ltb k kv.1 = true) m ->
  QMultiMap.remove k node m = m.
Proof.
  unfold QMultiMap.remove. induction 1 as [|[k' v] m Hk _ IH]; simpl; [done|].
  simpl in Hk.
  assert (QMultiMap.same_key k' k = false) as ->.
  { unfold QMultiMap.same_key. rewrite Hk. apply andb_false_r. }
  simpl. by rewrite IH.
Qed.

Lemma insert_before_larger_keys (k : QString) (node : DiveComputerNode)
    (m : QMultiMap.t) :
  Forall (fun kv : QString * DiveComputerNode => QString_ltb k kv.1 = true) m ->
  QMultiMap.insert k node m = (k, node) :: m.
Proof.
  destruct 1 as [|[k' v] m Hk _]; simpl; [done|].
  simpl in Hk. by rewrite (QString_ltb_asym _ _ Hk).
Qed.

(** With one device per model, taking a node out of the map and putting a
    node back under the same key leaves it at the same position. *)
Lemma remove_insert_same_position (m : list (QString * DiveComputerNode)) :
  forall (r : nat) (k : QString) (node node' : DiveComputerNode),
    one_device_per_model m ->
    m !! r = Some (k, node) ->
    QMultiMap.insert k node' (QMultiMap.remove k node m)
    = <[r := (k, node')]> m.
Proof.
  induction m as [|[k0 v0] m IH]; intros r k node node' Hs Hr; [done|].
  apply StronglySorted_inv in Hs as [Hs Hall].
  destruct r as [|r]; simpl in Hr.
  - injection Hr as -> ->.
    assert (QMultiMap.remove k node ((k, node) :: m) = m) as ->.
    { unfold QMultiMap.remove. simpl.
      rewrite same_key_refl, bool_decide_eq_true_2 by done. simpl.
      by apply remove_keeps_larger_keys. }
    by apply insert_before_larger_keys.
  - assert (QString_ltb k0 k = true) as Hlt.
    { rewrite Forall_forall in Hall.
      apply (Hall (k, node)). by eapply list_elem_of_lookup_2. }
    assert (QMultiMap.remove k node ((k0, v0) :: m)
            = (k0, v0) :: QMultiMap.remove k node m) as ->.
    { assert (QMultiMap.same_key k0 k = false) as Hsk.
      { unfold QMultiMap.same_key. by rewrite Hlt. }
      unfold QMultiMap.remove. simpl. by rewrite Hsk. }
    simpl. rewrite Hlt. f_equal. by apply IH.
Qed.

(** X15.  In a working map with one device per model, each under its
    model, an edit of the row holding [node] puts the renamed node in the
    same row: reading the nickname of that row gives the new name back, and
    its model and device id and every other row read as before. *)
Theorem DiveComputerModel_rename_then_read
    (m : DiveComputerModel.state) (index : QModelIndex) (value : QVariant)
    (role : Z) (node : DiveComputerNode) :
  keyed_by_model (DiveComputerModel.dcWorkingMap m) ->
  one_device_per_model (DiveComputerModel.dcWorkingMap m) ->
  0 <= row index ->
  QMultiMap.values (DiveComputerModel.dcWorkingMap m) !! Z.to_nat (row index)
  = Some node ->
  exists m',
    DiveComputerModel.setData m index value role = Ok (true, m')
    /\ QMultiMap.values (DiveComputerModel.dcWorkingMap m')
       = <[Z.to_nat (row index) :=
             mkNode (model node) (deviceId node) (toString value)]>
           (QMultiMap.values (DiveComputerModel.dcWorkingMap m))
    /\ DiveComputerModelData.data m'
         (cell_at (row index) DiveComputerModel.NICKNAME) Qt.DisplayRole
       = Ok (DiveComputerModelData.Text (toString value))
    /\ DiveComputerModelData.data m'
         (cell_at (row index) DiveComputerModel.MODEL) Qt.DisplayRole
       = Ok (DiveComputerModelData.Text (model node))
    /\ DiveComputerModelData.data m'
         (cell_at (row index) DiveComputerModel.ID) Qt.DisplayRole
       = Ok (DiveComputerModelData.HexId (deviceId node))
    /\ (forall other role',
          row other <> row index ->
          DiveComputerModelData.data m' other role'
          = DiveComputerModelData.data m other role').
Proof.
  intros Hkeys Hsorted H0 Hnode.
  unfold DiveComputerModel.setData.
  rewrite (proj2 (QList_at_Ok _ _ _) (conj H0 Hnode)). simpl.
  eexists. split; [reflexivity|].
  destruct (values_lookup _ _ _ Hnode) as [k Hk].
  assert (k = model node) as ->.
  { unfold keyed_by_model in Hkeys. rewrite Forall_lookup in Hkeys.
    apply (Hkeys _ _ Hk). }
  assert (QMultiMap.values
            (QMultiMap.insert (model node)
               (mkNode (model node) (deviceId node) (toString value))
               (QMultiMap.remove (model node) node
                  (DiveComputerModel.dcWorkingMap m)))
          = <[Z.to_nat (row index) :=
                mkNode (model node) (deviceId node) (toString value)]>
              (QMultiMap.values (DiveComputerModel.dcWorkingMap m))) as Hvals.
  { rewrite (remove_insert_same_position _ (Z.to_nat (row index))) by done.
    unfold QMultiMap.values. by rewrite list_fmap_insert. }
  split; [exact Hvals|].
  unfold DiveComputerModelData.data. simpl. rewrite Hvals.
  rewrite (QList_at_insert_eq _ _ node) by done. simpl.
  repeat (split; [reflexivity|]).
  intros other role' Hne.
  rewrite QList_at_insert_ne by (done || lia). reflexivity.
Qed.

(** The theorem at the renaming of the only device. *)
Lemma DiveComputerModel_rename_then_read_witness :
  exists m',
    DiveComputerModel.setData one_device
      (cell_at 0 DiveComputerModel.NICKNAME) (text_value ["n"; "e"; "w"]%char)
      Qt.EditRole = Ok (true, m')
    /\ QMultiMap.values (DiveComputerModel.dcWorkingMap m')
       = [mkNode ["X"]%char 1 ["n"; "e"; "w"]%char]
    /\ DiveComputerModelData.data m' (cell_at 0 DiveComputerModel.NICKNAME)
         Qt.DisplayRole
       = Ok (DiveComputerModelData.Text ["n"; "e"; "w"]%char)
    /\ DiveComputerModelData.data m' (cell_at 0 DiveComputerModel.MODEL)
         Qt.DisplayRole
       = Ok (DiveComputerModelData.Text ["X"]%char)
    /\ DiveComputerModelData.data m' (cell_at 0 DiveComputerModel.ID)
         Qt.DisplayRole
       = Ok (DiveComputerModelData.HexId 1)
    /\ (forall other role',
          row other <> 0 ->
          DiveComputerModelData.data m' other role'
          = DiveComputerModelData.data one_device other role').
Proof.
  apply (DiveComputerModel_rename_then_read one_device
           (cell_at 0 DiveComputerModel.NICKNAME)
           (text_value ["n"; "e"; "w"]%char) Qt.EditRole
           (mkNode ["X"]%char 1 ["o"; "l"; "d"]%char)).
  - constructor; [reflexivity | constructor].
  - repeat constructor.
  - simpl. lia.
  - reflexivity.
Defined.

Lemma QMultiMap_eqb_refl (m : QMultiMap.t) :
  DiveComputerModelData.QMultiMap_eqb m m = true.
Proof.
  induction m as [|[k v] m IH]; simpl; [done|].
  by rewrite bool_decide_eq_true_2, same_key_refl, IH.
Qed.

(** X16.  [keepWorkingList] makes the working map the committed one and
    never clears the dirty mark of the store; it leaves the store alone when
    the committed map already is the working map, so that a second commit in
    a row changes nothing. *)
Theorem DiveComputerModel_keepWorkingList_commit
    (m : DiveComputerModel.state) (dcMap : QMultiMap.t) (s : store) :
  (DiveComputerModelData.keepWorkingList m dcMap s).1
  = DiveComputerModel.dcWorkingMap m
  /\ (changed s = true ->
      changed (DiveComputerModelData.keepWorkingList m dcMap s).2 = true)
  /\ dives (DiveComputerModelData.keepWorkingList m dcMap s).2 = dives s
  /\ DiveComputerModelData.keepWorkingList m
       (DiveComputerModel.dcWorkingMap m) s
     = (DiveComputerModel.dcWorkingMap m, s)
  /\ DiveComputerModelData.keepWorkingList m
       (DiveComputerModelData.keepWorkingList m dcMap s).1
       (DiveComputerModelData.keepWorkingList m dcMap s).2
     = DiveComputerModelData.keepWorkingList m dcMap s.
Proof.
  unfold DiveComputerModelData.keepWorkingList. simpl.
  rewrite QMultiMap_eqb_refl. simpl.
  destruct (DiveComputerModelData.QMultiMap_eqb dcMap
              (DiveComputerModel.dcWorkingMap m)); simpl; repeat split; done.
Qed.

(** ** Dive list: what a build announces and how its rows are addressed *)

Lemma visit_events (update : dive -> dive) (i : nat)
    (m m' : DiveTripModel.model) (s s' : store) :
  DiveTripModel.visit update i (m, s) = Ok (m', s') ->
  DiveTripModel.events m' = DiveTripModel.events m
  /\ DiveTripModel.currentLayout m' = DiveTripModel.currentLayout m
  /\ DiveTripModel.columns m' = DiveTripModel.columns m.
Proof.
  unfold DiveTripModel.visit. intros Hrun.
  apply bind_Ok in Hrun as (d & _ & Hrun). simpl in Hrun.
  destruct (divetrip d) as [trip|], (DiveTripModel.currentLayout m) eqn:Hl.
  - destruct (DiveTripModel.trips m !! trip) as [tripItem|].
    + apply bind_Ok in Hrun as (h1 & H1 & Hrun). by injection Hrun as <- <-.
    + apply bind_Ok in Hrun as (h1 & H1 & Hrun).
      apply bind_Ok in Hrun as (h2 & H2 & Hrun).
      apply bind_Ok in Hrun as (h3 & H3 & Hrun). by injection Hrun as <- <-.
  - apply bind_Ok in Hrun as (h1 & H1 & Hrun).
    apply bind_Ok in Hrun as (h2 & H2 & Hrun). by injection Hrun as <- <-.
  - apply bind_Ok in Hrun as (h1 & H1 & Hrun).
    apply bind_Ok in Hrun as (h2 & H2 & Hrun). by injection Hrun as <- <-.
  - apply bind_Ok in Hrun as (h1 & H1 & Hrun).
    apply bind_Ok in Hrun as (h2 & H2 & Hrun). by injection Hrun as <- <-.
Qed.

Lemma walk_events (update : dive -> dive) (i : nat) :
  forall (m m' : DiveTripModel.model) (s s' : store),
    DiveTripModel.walk update i (m, s) = Ok (m', s') ->
    DiveTripModel.events m' = DiveTripModel.events m
    /\ DiveTripModel.currentLayout m' = DiveTripModel.currentLayout m
    /\ DiveTripModel.columns m' = DiveTripModel.columns m.
Proof.
  induction i as [|i IH]; intros m m' s s' Hrun; simpl in Hrun.
  - by injection Hrun as <- <-.
  - apply bind_Ok in Hrun as ([m1 s1] & Hv & Hrun).
    apply visit_events in Hv as (He1 & Hl1 & Hc1).
    apply IH in Hrun as (He2 & Hl2 & Hc2).
    repeat split; congruence.
Qed.

(** X17.  Whatever the model holds, a [setupModelData] that returns has
    kept every former row in front of the rows it built, so the row count
    never goes down; when there were rows it has announced the removal of
    all of them, and when there are rows at the end it has announced the
    insertion of all of them, the former ones included. *)
Theorem setupModelData_announces_all_rows
    (autogroup_dives : list dive -> list dive) (update : dive -> dive)
    (m m' : DiveTripModel.model) (s s' : store) :
  DiveTripModel.setupModelData autogroup_dives update m s = Ok (m', s') ->
  exists n n' built,
    DiveTripModel.rowCount m = Ok n
    /\ DiveTripModel.rowCount m' = Ok n'
    /\ n <= n'
    /\ TreeModel.children_of (DiveTripModel.rootItem m')
         (DiveTripModel.items m')
       = TreeModel.children_of (DiveTripModel.rootItem m)
           (DiveTripModel.items m) ++ built
    /\ DiveTripModel.events m'
       = DiveTripModel.events m
         ++ (if n =? 0 then []
             else [RowsAboutToBeRemoved 0 (n - 1); RowsRemoved 0 (n - 1)])
         ++ (if n' =? 0 then []
             else [RowsAboutToBeInserted 0 (n' - 1); RowsInserted 0 (n' - 1)]).
Proof.
  intros Hrun.
  destruct (setupModelData_keeps_rows _ _ _ _ _ _ Hrun) as [Hroot [built Hb]].
  unfold DiveTripModel.setupModelData in Hrun.
  apply bind_Ok in Hrun as (n & Hn & Hrun).
  apply bind_Ok in Hrun as ([m1 s1] & Hwalk & Hrun).
  apply bind_Ok in Hrun as (n' & Hn' & Hrun).
  apply walk_events in Hwalk as (Hev & _ & _). simpl in Hn', Hrun.
  assert (DiveTripModel.rowCount m' = Ok n'
          /\ DiveTripModel.events m'
             = DiveTripModel.events m1
               ++ (if n' =? 0 then []
                   else [RowsAboutToBeInserted 0 (n' - 1);
                         RowsInserted 0 (n' - 1)])) as [Hcount' Hev'].
  { injection Hrun as <- <-. destruct (n' =? 0); simpl.
    - by rewrite app_nil_r.
    - done. }
  exists n, n', built. split; [done|]. split; [done|].
  assert (n <= n') as Hle.
  { unfold DiveTripModel.rowCount, TreeModel.rowCount in Hn, Hcount'.
    apply bind_Ok in Hn as (rit & Hrit & Hn). injection Hn as <-.
    apply bind_Ok in Hcount' as (rit' & Hrit' & Hn''). injection Hn'' as <-.
    unfold TreeModel.children_of in Hb. rewrite Hroot in Hrit'.
    destruct (DiveTripModel.items m' !! DiveTripModel.rootItem m);
      simpl in Hrit'; [|done]. injection Hrit' as ->.
    destruct (DiveTripModel.items m !! DiveTripModel.rootItem m);
      simpl in Hrit; [|done]. injection Hrit as ->.
    rewrite Hb, length_app. lia. }
  split; [done|]. split; [by rewrite Hroot|].
  rewrite Hev', Hev. destruct (n =? 0); simpl; [|by rewrite <- app_assoc].
  done.
Qed.

(** The theorem at a second build over the example store. *)
Lemma setupModelData_announces_all_rows_witness :
  exists n n' built,
    DiveTripModel.rowCount
      (DiveTripModel.mkModel
         [TreeModel.mkTreeItem TreeModel.PlainItem None [1%nat];
          TreeModel.mkTreeItem (TreeModel.DiveItem 3) (Some 0%nat) []]
         0 14 ∅ DiveTripModel.LIST false []) = Ok n
    /\ DiveTripModel.rowCount
         (DiveTripModel.mkModel
            [TreeModel.mkTreeItem TreeModel.PlainItem None [1%nat; 2%nat];
             TreeModel.mkTreeItem (TreeModel.DiveItem 3) (Some 0%nat) [];
             TreeModel.mkTreeItem (TreeModel.DiveItem 3) (Some 0%nat) []]
            0 14 ∅ DiveTripModel.LIST false
            [RowsAboutToBeRemoved 0 0; RowsRemoved 0 0;
             RowsAboutToBeInserted 0 1; RowsInserted 0 1]) = Ok n'
    /\ n <= n'
    /\ [1%nat; 2%nat] = [1%nat] ++ built
    /\ [RowsAboutToBeRemoved 0 0; RowsRemoved 0 0;
        RowsAboutToBeInserted 0 1; RowsInserted 0 1]
       = []
         ++ (if n =? 0 then []
             else [RowsAboutToBeRemoved 0 (n - 1); RowsRemoved 0 (n - 1)])
         ++ (if n' =? 0 then []
             else [RowsAboutToBeInserted 0 (n' - 1); RowsInserted 0 (n' - 1)]).
Proof.
  apply (setupModelData_announces_all_rows (fun t => t) (fun d => d)
           (DiveTripModel.mkModel
              [TreeModel.mkTreeItem TreeModel.PlainItem None [1%nat];
               TreeModel.mkTreeItem (TreeModel.DiveItem 3) (Some 0%nat) []]
              0 14 ∅ DiveTripModel.LIST false [])
           (DiveTripModel.mkModel
              [TreeModel.mkTreeItem TreeModel.PlainItem None [1%nat; 2%nat];
               TreeModel.mkTreeItem (TreeModel.DiveItem 3) (Some 0%nat) [];
               TreeModel.mkTreeItem (TreeModel.DiveItem 3) (Some 0%nat) []]
              0 14 ∅ DiveTripModel.LIST false
              [RowsAboutToBeRemoved 0 0; RowsRemoved 0 0;
               RowsAboutToBeInserted 0 1; RowsInserted 0 1])
           (mkStore [mkDive 3 1 None 0] 1 false)
           (mkStore [mkDive 3 1 None 0] 1 false)).
  vm_compute. reflexivity.
Defined.

Lemma parents_new (k : TreeModel.item_kind) (h : list TreeModel.TreeItem)
    (root : addr) :
  parents_are_root h root -> parents_are_root (TreeModel.new k h).2 root.
Proof.
  intros Hp a it Ha. simpl in Ha.
  apply lookup_app_Some in Ha as [Ha|[_ Ha]]; [by eapply Hp|].
  destruct (a - length h)%nat; simpl in Ha; [|done].
  injection Ha as <-. by left.
Qed.

Lemma parents_set_parent (a root : addr) (h h' : list TreeModel.TreeItem) :
  TreeModel.set_parent a root h = Ok h' ->
  parents_are_root h root -> parents_are_root h' root.
Proof.
  unfold TreeModel.set_parent. intros Hrun Hp.
  apply bind_Ok in Hrun as (it & Hit & Hrun). injection Hrun as <-.
  intros b itb Hb. destruct (decide (a = b)) as [->|Hne].
  - apply list_lookup_insert_Some in Hb as [(_ & <- & _)|[? _]]; [|done].
    by right.
  - rewrite list_lookup_insert_ne in Hb by done. by eapply Hp.
Qed.

Lemma parents_push_back (a c root : addr) (h h' : list TreeModel.TreeItem) :
  TreeModel.push_back a c h = Ok h' ->
  parents_are_root h root -> parents_are_root h' root.
Proof.
  unfold TreeModel.push_back. intros Hrun Hp.
  apply bind_Ok in Hrun as (it & Hit & Hrun). injection Hrun as <-.
  destruct (h !! a) as [it0|] eqn:Ha; simpl in Hit; [|done].
  injection Hit as ->.
  intros b itb Hb. destruct (decide (a = b)) as [->|Hne].
  - apply list_lookup_insert_Some in Hb as [(_ & <- & _)|[? _]]; [|done].
    simpl. by eapply Hp.
  - rewrite list_lookup_insert_ne in Hb by done. by eapply Hp.
Qed.

Ltac parents_chain :=
  repeat match goal with
         | |- parents_are_root (?h ++ [?x]) _ =>
             apply (parents_new (TreeModel.kind x) h)
         | H : TreeModel.set_parent _ ?r ?h1 = Ok ?h2
           |- parents_are_root ?h2 ?r =>
             apply (parents_set_parent _ _ _ _ H)
         | H : TreeModel.push_back _ _ ?h1 = Ok ?h2
           |- parents_are_root ?h2 _ =>
             apply (parents_push_back _ _ _ _ _ H)
         end.

Lemma visit_parents (update : dive -> dive) (i : nat)
    (m m' : DiveTripModel.model) (s s' : store) :
  DiveTripModel.visit update i (m, s) = Ok (m', s') ->
  parents_are_root (DiveTripModel.items m) (DiveTripModel.rootItem m) ->
  parents_are_root (DiveTripModel.items m') (DiveTripModel.rootItem m')
  /\ DiveTripModel.rootItem m' = DiveTripModel.rootItem m.
Proof.
  unfold DiveTripModel.visit. intros Hrun Hp.
  apply bind_Ok in Hrun as (d & _ & Hrun). simpl in Hrun.
  destruct (divetrip d) as [trip|], (DiveTripModel.currentLayout m).
  - destruct (DiveTripModel.trips m !! trip) as [tripItem|].
    + apply bind_Ok in Hrun as (h1 & H1 & Hrun). injection Hrun as <- <-.
      simpl. split; [|done]. by parents_chain.
    + apply bind_Ok in Hrun as (h1 & H1 & Hrun).
      apply bind_Ok in Hrun as (h2 & H2 & Hrun).
      apply bind_Ok in Hrun as (h3 & H3 & Hrun). injection Hrun as <- <-.
      simpl. split; [|done]. by parents_chain.
  - apply bind_Ok in Hrun as (h1 & H1 & Hrun).
    apply bind_Ok in Hrun as (h2 & H2 & Hrun). injection Hrun as <- <-.
    simpl. split; [|done]. by parents_chain.
  - apply bind_Ok in Hrun as (h1 & H1 & Hrun).
    apply bind_Ok in Hrun as (h2 & H2 & Hrun). injection Hrun as <- <-.
    simpl. split; [|done]. by parents_chain.
  - apply bind_Ok in Hrun as (h1 & H1 & Hrun).
    apply bind_Ok in Hrun as (h2 & H2 & Hrun). injection Hrun as <- <-.
    simpl. split; [|done]. by parents_chain.
Qed.

Lemma walk_parents (update : dive -> dive) (i : nat) :
  forall (m m' : DiveTripModel.model) (s s' : store),
    DiveTripModel.walk update i (m, s) = Ok (m', s') ->
    parents_are_root (DiveTripModel.items m) (DiveTripModel.rootItem m) ->
    parents_are_root (DiveTripModel.items m') (DiveTripModel.rootItem m').
Proof.
  induction i as [|i IH]; intros m m' s s' Hrun Hp; simpl in Hrun.
  - by injection Hrun as <- <-.
  - apply bind_Ok in Hrun as ([m1 s1] & Hv & Hrun).
    apply visit_parents in Hv as [Hp1 _]; [|done]. by eapply IH.
Qed.

(** X18.  In a model where every item has the root or nothing as its
    parent (a new model is one), a build keeps it so: dives grouped under a
    trip get no parent pointer.  Hence, after the build, [TreeModel::parent]
    answers the invalid index for every index that points to an item, the
    dives inside trips included. *)
Theorem DiveTripModel_parent_is_never_a_trip
    (autogroup_dives : list dive -> list dive) (update : dive -> dive)
    (m m' : DiveTripModel.model) (s s' : store) (index : QModelIndex)
    (a : addr) (it : TreeModel.TreeItem) :
  parents_are_root (DiveTripModel.items m) (DiveTripModel.rootItem m) ->
  DiveTripModel.setupModelData autogroup_dives update m s = Ok (m', s') ->
  internalPointer index = Some a ->
  DiveTripModel.items m' !! a = Some it ->
  parents_are_root (DiveTripModel.items m') (DiveTripModel.rootItem m')
  /\ TreeModelIndex.parent_of (DiveTripModel.rootItem m')
       (DiveTripModel.items m') index = Ok invalidIndex.
Proof.
  intros Hp Hrun Hptr Hit.
  assert (parents_are_root (DiveTripModel.items m')
            (DiveTripModel.rootItem m')) as Hp'.
  { unfold DiveTripModel.setupModelData in Hrun.
    apply bind_Ok in Hrun as (n & Hn & Hrun).
    apply bind_Ok in Hrun as ([m1 s1] & Hwalk & Hrun).
    apply bind_Ok in Hrun as (n' & Hn' & Hrun).
    apply walk_parents in Hwalk; [|by destruct (n =? 0)].
    injection Hrun as <- <-. by destruct (n' =? 0). }
  split; [done|].
  unfold TreeModelIndex.parent_of.
  destruct (isValid index); simpl; [|done].
  rewrite Hptr. simpl. rewrite Hit. simpl.
  destruct (Hp' a it Hit) as [->| ->]; [done|].
  by rewrite Nat.eqb_refl.
Qed.

(** The theorem at the grouped build of the example store, for the index
    of dive [d1], the second row of the trip [T1]: it has no parent. *)
Lemma DiveTripModel_parent_is_never_a_trip_witness :
  exists m' s',
    DiveTripModel.setLayout (fun t => t) (fun d => d) DiveTripModel.TREE
      (DiveTripModel.init DiveTripModel.TREE false) (example_store 1 2 3 4 1 2)
    = Ok (m', s')
    /\ TreeModel.children_of 5 (DiveTripModel.items m') = [4%nat; 6%nat]
    /\ TreeModel.kind <$> DiveTripModel.items m' !! 6%nat
       = Some (TreeModel.DiveItem 1)
    /\ TreeModelIndex.parent_of (DiveTripModel.rootItem m')
         (DiveTripModel.items m') (TreeModelIndex.createIndex 1 0 6)
       = Ok invalidIndex.
Proof.
  do 2 eexists. split; [vm_compute; reflexivity|].
  split; [reflexivity|]. split; [reflexivity|].
  eapply (DiveTripModel_parent_is_never_a_trip (fun t => t) (fun d => d)
            (DiveTripModel.mkModel
               (DiveTripModel.items
                  (DiveTripModel.init DiveTripModel.TREE false))
               0 14 ∅ DiveTripModel.TREE false [])
            _ (example_store 1 2 3 4 1 2) _ _ 6%nat).
  - intros b itb Hb. destruct b as [|b]; simpl in Hb; [|done].
    injection Hb as <-. by left.
  - vm_compute. reflexivity.
  - reflexivity.
  - reflexivity.
Defined.

(** One turn of the loop for a dive that becomes a row of the root: the
    dive has no trip, or the layout is the flat one. *)
Lemma visit_root_level (update : dive -> dive) (i : nat)
    (m : DiveTripModel.model) (s : store) (d : dive)
    (rit : TreeModel.TreeItem) :
  dives s !! i = Some d ->
  divetrip (update d) = None
  \/ DiveTripModel.currentLayout m = DiveTripModel.LIST ->
  DiveTripModel.items m !! DiveTripModel.rootItem m = Some rit ->
  DiveTripModel.visit update i (m, s)
  = Ok (DiveTripModel.set_items
          (<[DiveTripModel.rootItem m :=
               TreeModel.mkTreeItem (TreeModel.kind rit) (TreeModel.parent rit)
                 (TreeModel.children rit ++ [length (DiveTripModel.items m)])]>
             (<[length (DiveTripModel.items m) :=
                  TreeModel.mkTreeItem (TreeModel.DiveItem (id (update d)))
                    (Some (DiveTripModel.rootItem m)) []]>
                (DiveTripModel.items m
                 ++ [TreeModel.mkTreeItem (TreeModel.DiveItem (id (update d)))
                       None []]))) m,
        mkStore (<[i := update d]> (dives s)) (preexisting s) (changed s)).
Proof.
  intros Hd Hroot_level Hrit.
  assert (i < length (dives s))%nat as Hi by (eapply lookup_lt_Some; eauto).
  assert (DiveTripModel.rootItem m < length (DiveTripModel.items m))%nat
    as Hr by (eapply lookup_lt_Some; eauto).
  unfold DiveTripModel.visit, DiveTripModel.update_dive, DiveStore.get_dive.
  rewrite Hd. simpl. rewrite list_lookup_insert_eq by done. simpl.
  assert (TreeModel.set_parent (length (DiveTripModel.items m))
            (DiveTripModel.rootItem m)
            (DiveTripModel.items m
             ++ [TreeModel.mkTreeItem (TreeModel.DiveItem (id (update d)))
                   None []])
          = Ok (<[length (DiveTripModel.items m) :=
                    TreeModel.mkTreeItem (TreeModel.DiveItem (id (update d)))
                      (Some (DiveTripModel.rootItem m)) []]>
                  (DiveTripModel.items m
                   ++ [TreeModel.mkTreeItem
                         (TreeModel.DiveItem (id (update d))) None []])))
    as Hset.
  { unfold TreeModel.set_parent. rewrite lookup_app_r by lia.
    by rewrite Nat.sub_diag. }
  assert (forall h0,
            TreeModel.push_back (DiveTripModel.rootItem m)
              (length (DiveTripModel.items m))
              (<[length (DiveTripModel.items m) := h0]>
                 (DiveTripModel.items m
                  ++ [TreeModel.mkTreeItem
                        (TreeModel.DiveItem (id (update d))) None []]))
            = Ok (<[DiveTripModel.rootItem m :=
                      TreeModel.mkTreeItem (TreeModel.kind rit)
                        (TreeModel.parent rit)
                        (TreeModel.children rit
                         ++ [length (DiveTripModel.items m)])]>
                    (<[length (DiveTripModel.items m) := h0]>
                       (DiveTripModel.items m
                        ++ [TreeModel.mkTreeItem
                              (TreeModel.DiveItem (id (update d))) None []]))))
    as Hpush.
  { intros h0. unfold TreeModel.push_back.
    rewrite list_lookup_insert_ne by lia. rewrite lookup_app_l by lia.
    by rewrite Hrit. }
  destruct Hroot_level as [Hnone|Hlist].
  - rewrite Hnone.
    destruct (DiveTripModel.currentLayout m); rewrite Hset; simpl;
      by rewrite Hpush.
  - rewrite Hlist.
    destruct (divetrip (update d)); rewrite Hset; simpl; by rewrite Hpush.
Qed.

Lemma walk_S (update : dive -> dive) (i : nat)
    (ms : DiveTripModel.model * store) :
  DiveTripModel.walk update (S i) ms
  = bind (DiveTripModel.visit update i ms) (DiveTripModel.walk update i).
Proof. reflexivity. Qed.

(** The loop in the flat layout: every visited dive is updated in the
    store and gets a fresh item under the root, in the order of the visits. *)
Lemma walk_list_spec (update : dive -> dive) (i : nat) :
  forall (m : DiveTripModel.model) (s : store) (rit : TreeModel.TreeItem),
    DiveTripModel.currentLayout m = DiveTripModel.LIST ->
    DiveTripModel.items m !! DiveTripModel.rootItem m = Some rit ->
    (i <= length (dives s))%nat ->
    exists m' s',
      DiveTripModel.walk update i (m, s) = Ok (m', s')
      /\ DiveTripModel.rootItem m' = DiveTripModel.rootItem m
      /\ length (dives s') = length (dives s)
      /\ (forall j, dives s' !! j
                    = if decide (j < i)%nat then update <$> dives s !! j
                      else dives s !! j)
      /\ DiveTripModel.items m' !! DiveTripModel.rootItem m
         = Some (TreeModel.mkTreeItem (TreeModel.kind rit)
                   (TreeModel.parent rit)
                   (TreeModel.children rit
                    ++ seq (length (DiveTripModel.items m)) i))
      /\ (forall x, (x < length (DiveTripModel.items m))%nat ->
          x <> DiveTripModel.rootItem m ->
          DiveTripModel.items m' !! x = DiveTripModel.items m !! x)
      /\ (forall j d, (j < i)%nat -> dives s !! (i - 1 - j)%nat = Some d ->
          DiveTripModel.items m' !! (length (DiveTripModel.items m) + j)%nat
          = Some (TreeModel.mkTreeItem (TreeModel.DiveItem (id (update d)))
                    (Some (DiveTripModel.rootItem m)) [])).
Proof.
  induction i as [|i IH]; intros m s rit Hlist Hrit Hi.
  - exists m, s. simpl. rewrite app_nil_r. destruct rit.
    repeat split; try done. intros j d Hj. lia.
  - destruct (dives s !! i) as [d|] eqn:Hd;
      [|apply lookup_ge_None in Hd; lia].
    assert (DiveTripModel.rootItem m < length (DiveTripModel.items m))%nat
      as Hr by (eapply lookup_lt_Some; eauto).
    rewrite walk_S.
    rewrite (visit_root_level update i m s d rit Hd (or_intror Hlist) Hrit).
    simpl bind.
    set (m1 := DiveTripModel.set_items _ m).
    set (s1 := mkStore _ _ _).
    assert (length (DiveTripModel.items m1)
            = S (length (DiveTripModel.items m))) as Hlen1.
    { unfold m1. simpl. rewrite !length_insert, length_app. simpl. lia. }
    destruct (IH m1 s1
                (TreeModel.mkTreeItem (TreeModel.kind rit)
                   (TreeModel.parent rit)
                   (TreeModel.children rit
                    ++ [length (DiveTripModel.items m)])))
      as (m' & s' & Hrun & Hroot & Hlen & Hstore & Hritem & Hold & Hnew).
    { done. }
    { unfold m1. simpl. apply list_lookup_insert_eq.
      rewrite length_insert, length_app. simpl. lia. }
    { unfold s1. simpl. rewrite length_insert. lia. }
    exists m', s'. split; [exact Hrun|].
    rewrite Hlen1 in Hritem, Hold, Hnew.
    assert (DiveTripModel.rootItem m1 = DiveTripModel.rootItem m) as Hr1
      by done.
    rewrite Hr1 in Hroot, Hritem, Hold, Hnew.
    assert (dives s1 = <[i := update d]> (dives s)) as Hs1 by done.
    rewrite Hs1 in Hlen, Hstore, Hnew. rewrite length_insert in Hlen.
    split; [done|]. split; [done|]. split; [|split; [|split]].
    + intros j. rewrite Hstore.
      destruct (decide (j < i)%nat) as [Hj|Hj].
      * rewrite decide_True by lia. by rewrite list_lookup_insert_ne by lia.
      * destruct (decide (j = i)) as [->|Hne].
        -- rewrite decide_True by lia.
           rewrite list_lookup_insert_eq by lia. by rewrite Hd.
        -- rewrite decide_False by lia.
           by rewrite list_lookup_insert_ne by lia.
    + rewrite Hritem. simpl. by rewrite <- app_assoc.
    + intros x Hx Hne. rewrite Hold by lia. unfold m1. simpl.
      rewrite !list_lookup_insert_ne by lia. by apply lookup_app_l.
    + intros j d' Hj Hd'. destruct j as [|j].
      * rewrite Nat.add_0_r.
        replace (S i - 1 - 0)%nat with i in Hd' by lia.
        assert (d' = d) as -> by congruence.
        rewrite Hold by lia. unfold m1. simpl.
        rewrite list_lookup_insert_ne by lia.
        apply list_lookup_insert_eq. rewrite length_app. simpl. lia.
      * replace (length (DiveTripModel.items m) + S j)%nat
          with (S (length (DiveTripModel.items m)) + j)%nat by lia.
        apply Hnew; [lia|].
        rewrite list_lookup_insert_ne by lia.
        by replace (i - 1 - j)%nat with (S i - 1 - S j)%nat by lia.
Qed.

Lemma omap_all_Some {A B : Type} (f : A -> option B) (g : A -> B)
    (l : list A) :
  (forall x, x ∈ l -> f x = Some (g x)) -> omap f l = g <$> l.
Proof.
  induction l as [|x l IH]; intros Hf; simpl; [done|].
  rewrite (Hf x) by apply list_elem_of_here. simpl. f_equal.
  apply IH. intros y Hy. apply Hf. by apply list_elem_of_further.
Qed.

(** X19.  In the flat layout, on a model without rows and with automatic
    grouping off, the build returns for every store: the rows of the root
    are the dives of the store in reverse order, one row per dive, and every
    dive of the store has gone through the cylinder update (which is taken
    to keep the id of a dive). *)
Theorem DiveTripModel_list_layout_rows
    (autogroup_dives : list dive -> list dive) (update : dive -> dive)
    (layout0 : DiveTripModel.Layout) (s : store) :
  (forall d, id (update d) = id d) ->
  exists m' s',
    DiveTripModel.setLayout autogroup_dives update DiveTripModel.LIST
      (DiveTripModel.init layout0 false) s = Ok (m', s')
    /\ DiveTripModel.root_rows m'
       = (fun d => DiveTripModel.Dive (id d)) <$> reverse (dives s)
    /\ dives s' = update <$> dives s
    /\ DiveTripModel.rowCount m' = Ok (Z.of_nat (length (dives s))).
Proof.
  intros Hid.
  set (root := TreeModel.mkTreeItem TreeModel.PlainItem None []).
  set (m0 := DiveTripModel.mkModel [root] 0 DiveItem.COLUMNS ∅
               DiveTripModel.LIST false []).
  set (s0 := mkStore (dives s) (Z.of_nat (length (dives s))) (changed s)).
  destruct (walk_list_spec update (length (dives s)) m0 s0 root)
    as (m' & s' & Hrun & Hroot & Hlen & Hstore & Hritem & Hold & Hnew);
    [done | done | done |].
  simpl in Hroot, Hlen, Hstore, Hritem, Hnew.
  assert (DiveTripModel.rowCount m' = Ok (Z.of_nat (length (dives s))))
    as Hcount.
  { unfold DiveTripModel.rowCount, TreeModel.rowCount.
    rewrite Hroot, Hritem. simpl. by rewrite length_seq. }
  exists (if Z.of_nat (length (dives s)) =? 0 then m'
          else DiveTripModel.insert_bracket 0
                 (Z.of_nat (length (dives s)) - 1) m'), s'.
  split.
  { unfold DiveTripModel.setLayout, DiveTripModel.setupModelData. simpl.
    fold root. fold m0. fold s0. rewrite Hrun. simpl. rewrite Hcount.
    reflexivity. }
  assert (DiveTripModel.items
            (if Z.of_nat (length (dives s)) =? 0 then m'
             else DiveTripModel.insert_bracket 0
                    (Z.of_nat (length (dives s)) - 1) m')
          = DiveTripModel.items m'
          /\ DiveTripModel.rootItem
               (if Z.of_nat (length (dives s)) =? 0 then m'
                else DiveTripModel.insert_bracket 0
                       (Z.of_nat (length (dives s)) - 1) m')
             = DiveTripModel.rootItem m') as [Hi Hr].
  { by destruct (Z.of_nat (length (dives s)) =? 0). }
  split; [|split].
  - unfold DiveTripModel.root_rows, TreeModel.children_of.
    rewrite Hi, Hr, Hroot, Hritem. simpl.
    rewrite (omap_all_Some _
               (fun a => match dives s !! (length (dives s) - a)%nat with
                         | Some d => DiveTripModel.Dive (id d)
                         | None => DiveTripModel.Other []
                         end)).
    + apply list_eq. intros j. rewrite !list_lookup_fmap.
      destruct (decide (j < length (dives s))%nat) as [Hj|Hj].
      * rewrite lookup_seq_lt by done. rewrite reverse_lookup by done. simpl.
        replace (length (dives s) - (1 + j))%nat
          with (length (dives s) - S j)%nat by lia.
        destruct (dives s !! (length (dives s) - S j)%nat) eqn:Hd; [done|].
        apply lookup_ge_None in Hd. lia.
      * rewrite lookup_seq_ge by lia.
        rewrite (proj2 (lookup_ge_None _ _)); [done|].
        rewrite length_reverse. lia.
    + intros a Ha. apply elem_of_seq in Ha as [Ha1 Ha2].
      destruct (dives s !! (length (dives s) - a)%nat) as [d|] eqn:Hd;
        [|apply lookup_ge_None in Hd; lia].
      specialize (Hnew (a - 1)%nat d).
      replace (S (a - 1))%nat with a in Hnew by lia.
      replace (length (dives s) - 1 - (a - 1))%nat
        with (length (dives s) - a)%nat in Hnew by lia.
      simpl. rewrite Hnew by (done || lia). simpl. by rewrite Hid.
  - apply list_eq. intros j. rewrite Hstore, list_lookup_fmap.
    destruct (decide (j < length (dives s))%nat) as [Hj|Hj]; [done|].
    rewrite (proj2 (lookup_ge_None _ _)) by lia. done.
  - unfold DiveTripModel.rowCount in *. by rewrite Hi, Hr.
Qed.

(** The theorem at a store of three dives without trips. *)
Lemma DiveTripModel_list_layout_rows_witness :
  exists m' s',
    DiveTripModel.setLayout (fun t => t) (fun d => d) DiveTripModel.LIST
      (DiveTripModel.init DiveTripModel.TREE false)
      (mkStore [mkDive 10 1 None 0; mkDive 20 2 (Some 7%nat) 0;
                mkDive 30 3 None 0] 0 false) = Ok (m', s')
    /\ DiveTripModel.root_rows m'
       = [DiveTripModel.Dive 30; DiveTripModel.Dive 20; DiveTripModel.Dive 10]
    /\ dives s' = [mkDive 10 1 None 0; mkDive 20 2 (Some 7%nat) 0;
                   mkDive 30 3 None 0]
    /\ DiveTripModel.rowCount m' = Ok 3.
Proof.
  apply (DiveTripModel_list_layout_rows (fun t => t) (fun d => d)
           DiveTripModel.TREE
           (mkStore [mkDive 10 1 None 0; mkDive 20 2 (Some 7%nat) 0;
                     mkDive 30 3 None 0] 0 false)).
  reflexivity.
Defined.

(** One turn of the loop, grouped layout, for the first dive met of a
    trip. *)
Lemma visit_new_trip (update : dive -> dive) (i : nat)
    (m : DiveTripModel.model) (s : store) (d : dive) (t : nat)
    (rit : TreeModel.TreeItem) :
  dives s !! i = Some d ->
  divetrip (update d) = Some t ->
  DiveTripModel.currentLayout m = DiveTripModel.TREE ->
  DiveTripModel.trips m !! t = None ->
  DiveTripModel.items m !! DiveTripModel.rootItem m = Some rit ->
  DiveTripModel.visit update i (m, s)
  = Ok (DiveTripModel.set_trips
          (<[t := S (length (DiveTripModel.items m))]> (DiveTripModel.trips m))
          (DiveTripModel.set_items
             (<[DiveTripModel.rootItem m :=
                  TreeModel.mkTreeItem (TreeModel.kind rit)
                    (TreeModel.parent rit)
                    (TreeModel.children rit
                     ++ [S (length (DiveTripModel.items m))])]>
                (<[S (length (DiveTripModel.items m)) :=
                     TreeModel.mkTreeItem (TreeModel.TripItem t)
                       (Some (DiveTripModel.rootItem m))
                       [length (DiveTripModel.items m)]]>
                   ((DiveTripModel.items m
                     ++ [TreeModel.mkTreeItem
                           (TreeModel.DiveItem (id (update d))) None []])
                    ++ [TreeModel.mkTreeItem (TreeModel.TripItem t) None []])))
             m),
        mkStore (<[i := update d]> (dives s)) (preexisting s) (changed s)).
Proof.
  intros Hd Htrip Hlayout Hnew Hrit.
  assert (i < length (dives s))%nat as Hi by (eapply lookup_lt_Some; eauto).
  assert (DiveTripModel.rootItem m < length (DiveTripModel.items m))%nat
    as Hr by (eapply lookup_lt_Some; eauto).
  unfold DiveTripModel.visit, DiveTripModel.update_dive, DiveStore.get_dive.
  rewrite Hd. simpl. rewrite list_lookup_insert_eq by done. simpl.
  rewrite Htrip, Hlayout, Hnew.
  set (h2 := (DiveTripModel.items m ++ [_]) ++ [_]).
  assert (length h2 = S (S (length (DiveTripModel.items m)))) as Hlen2.
  { unfold h2. rewrite !length_app. simpl. lia. }
  rewrite length_app. simpl length.
  replace (length (DiveTripModel.items m) + 1)%nat
    with (S (length (DiveTripModel.items m))) by lia.
  unfold TreeModel.set_parent.
  assert (h2 !! S (length (DiveTripModel.items m))
          = Some (TreeModel.mkTreeItem (TreeModel.TripItem t) None [])) as Ht.
  { unfold h2. rewrite lookup_app_r by (rewrite length_app; simpl; lia).
    rewrite length_app. simpl.
    by replace (S (length (DiveTripModel.items m))
                - (length (DiveTripModel.items m) + 1))%nat with 0%nat by lia. }
  rewrite Ht. simpl.
  unfold TreeModel.push_back.
  rewrite list_lookup_insert_eq by lia. simpl.
  rewrite list_insert_insert_eq.
  rewrite list_lookup_insert_ne by lia.
  assert (h2 !! DiveTripModel.rootItem m = Some rit) as Hr2.
  { unfold h2. rewrite lookup_app_l by (rewrite length_app; simpl; lia).
    by rewrite lookup_app_l by lia. }
  rewrite Hr2. simpl. reflexivity.
Qed.

(** One turn of the loop, grouped layout, for a dive of a trip that has its
    item. *)
Lemma visit_known_trip (update : dive -> dive) (i : nat)
    (m : DiveTripModel.model) (s : store) (d : dive) (t : nat)
    (a : addr) (ita : TreeModel.TreeItem) :
  dives s !! i = Some d ->
  divetrip (update d) = Some t ->
  DiveTripModel.currentLayout m = DiveTripModel.TREE ->
  DiveTripModel.trips m !! t = Some a ->
  DiveTripModel.items m !! a = Some ita ->
  DiveTripModel.visit update i (m, s)
  = Ok (DiveTripModel.set_items
          (<[a := TreeModel.mkTreeItem (TreeModel.kind ita)
                    (TreeModel.parent ita)
                    (TreeModel.children ita
                     ++ [length (DiveTripModel.items m)])]>
             (DiveTripModel.items m
              ++ [TreeModel.mkTreeItem (TreeModel.DiveItem (id (update d)))
                    None []])) m,
        mkStore (<[i := update d]> (dives s)) (preexisting s) (changed s)).
Proof.
  intros Hd Htrip Hlayout Hknown Hita.
  assert (i < length (dives s))%nat as Hi by (eapply lookup_lt_Some; eauto).
  assert (a < length (DiveTripModel.items m))%nat
    as Ha by (eapply lookup_lt_Some; eauto).
  unfold DiveTripModel.visit, DiveTripModel.update_dive, DiveStore.get_dive.
  rewrite Hd. simpl. rewrite list_lookup_insert_eq by done. simpl.
  rewrite Htrip, Hlayout, Hknown.
  unfold TreeModel.push_back. rewrite lookup_app_l by lia. rewrite Hita.
  reflexivity.
Qed.

Lemma visit_reads_dive (update : dive -> dive) (i : nat)
    (m m' : DiveTripModel.model) (s s' : store) :
  DiveTripModel.visit update i (m, s) = Ok (m', s') ->
  exists d, dives s !! i = Some d.
Proof.
  unfold DiveTripModel.visit, DiveTripModel.update_dive, DiveStore.get_dive.
  destruct (dives s !! i) as [d|] eqn:Hd; [by exists d|].
  rewrite Hd. done.
Qed.

Lemma visit_well_formed (update : dive -> dive) (i : nat)
    (m m' : DiveTripModel.model) (s s' : store) :
  DiveTripModel.visit update i (m, s) = Ok (m', s') ->
  rows_well_formed m -> rows_well_formed m'.
Proof.
  intros Hrun (rit & Hrit & Hnodup & Hkids & Htrips).
  destruct (visit_reads_dive _ _ _ _ _ _ Hrun) as [d Hd].
  assert (DiveTripModel.rootItem m < length (DiveTripModel.items m))%nat
    as Hr by (eapply lookup_lt_Some; eauto).
  assert (forall c, c ∈ TreeModel.children rit ->
          (c < length (DiveTripModel.items m))%nat) as Hlt.
  { intros c Hc. destruct (Hkids c Hc) as (it & Hit & _).
    by eapply lookup_lt_Some. }
  assert (forall x, x ∈ TreeModel.children rit ->
          x = DiveTripModel.rootItem m ->
          TreeModel.parent rit = Some (DiveTripModel.rootItem m)) as Hself.
  { intros x Hx ->. destruct (Hkids _ Hx) as (it & Hit & Hp). congruence. }
  assert (forall n, (length (DiveTripModel.items m) <= n)%nat ->
          NoDup (TreeModel.children rit ++ [n])) as Hnodup'.
  { intros n Hn. apply NoDup_app. split; [done|]. split.
    - intros c Hc Hcn. apply list_elem_of_singleton in Hcn as ->.
      apply Hlt in Hc. lia.
    - apply NoDup_singleton. }
  destruct (divetrip (update d)) as [t|] eqn:Htrip.
  - destruct (DiveTripModel.currentLayout m) eqn:Hlayout.
    + destruct (DiveTripModel.trips m !! t) as [a|] eqn:Hknown.
      * destruct (Htrips t a Hknown) as [Hane Halt].
        destruct (DiveTripModel.items m !! a) as [ita|] eqn:Hita;
          [|apply lookup_ge_None in Hita; lia].
        rewrite (visit_known_trip update i m s d t a ita) in Hrun by done.
        injection Hrun as <- <-.
        exists rit. simpl.
        split; [|split; [done|split]].
        -- rewrite list_lookup_insert_ne by done. by apply lookup_app_l_Some.
        -- intros c Hc. destruct (Hkids c Hc) as (it & Hit & Hp).
           destruct (decide (c = a)) as [->|Hca].
           ++ eexists. split; [apply list_lookup_insert_eq;
                               rewrite length_app; lia|].
              simpl. congruence.
           ++ exists it. split; [|done].
              rewrite list_lookup_insert_ne by done.
              by apply lookup_app_l_Some.
        -- intros t' a' Ht'. destruct (Htrips t' a' Ht') as [? ?].
           split; [done|]. rewrite length_insert, length_app. lia.
      * rewrite (visit_new_trip update i m s d t rit) in Hrun by done.
        injection Hrun as <- <-.
        eexists. simpl. split; [|split; [|split]].
        -- apply list_lookup_insert_eq.
           rewrite length_insert, !length_app. simpl. lia.
        -- simpl. apply Hnodup'. lia.
        -- simpl. intros c Hc. apply elem_of_app in Hc as [Hc|Hc].
           ++ destruct (Hkids c Hc) as (it & Hit & Hp).
              pose proof (Hlt c Hc) as Hclt.
              destruct (decide (c = DiveTripModel.rootItem m)) as [->|Hcr].
              ** eexists. split; [apply list_lookup_insert_eq;
                                  rewrite length_insert, !length_app;
                                  simpl; lia|].
                 simpl. congruence.
              ** exists it. split; [|done].
                 rewrite !list_lookup_insert_ne by lia.
                 rewrite lookup_app_l by (rewrite length_app; simpl; lia).
                 by apply lookup_app_l_Some.
           ++ apply list_elem_of_singleton in Hc as ->.
              eexists. split.
              ** rewrite list_lookup_insert_ne by lia.
                 apply list_lookup_insert_eq. rewrite !length_app. simpl. lia.
              ** done.
        -- intros t' a' Ht'.
           rewrite length_insert, length_insert, !length_app. simpl.
           apply lookup_insert_Some in Ht' as [[_ <-]|[_ Ht']]; [lia|].
           destruct (Htrips t' a' Ht') as [? ?]. split; [done | lia].
    + rewrite (visit_root_level update i m s d rit Hd (or_intror Hlayout) Hrit)
        in Hrun.
      injection Hrun as <- <-.
      eexists. simpl. split; [|split; [|split]].
      * apply list_lookup_insert_eq. rewrite length_insert, length_app.
        simpl. lia.
      * simpl. apply Hnodup'. lia.
      * simpl. intros c Hc. apply elem_of_app in Hc as [Hc|Hc].
        -- destruct (Hkids c Hc) as (it & Hit & Hp).
           pose proof (Hlt c Hc) as Hclt.
           destruct (decide (c = DiveTripModel.rootItem m)) as [->|Hcr].
           ++ eexists. split; [apply list_lookup_insert_eq;
                               rewrite length_insert, length_app; simpl; lia|].
              simpl. congruence.
           ++ exists it. split; [|done].
              rewrite !list_lookup_insert_ne by lia.
              by apply lookup_app_l_Some.
        -- apply list_elem_of_singleton in Hc as ->.
           eexists. split.
           ++ rewrite list_lookup_insert_ne by lia.
              apply list_lookup_insert_eq. rewrite length_app. simpl. lia.
           ++ done.
      * intros t' a' Ht'. destruct (Htrips t' a' Ht') as [? ?].
        split; [done|]. rewrite !length_insert, length_app. lia.
  - rewrite (visit_root_level update i m s d rit Hd (or_introl Htrip) Hrit)
      in Hrun.
    injection Hrun as <- <-.
    eexists. simpl. split; [|split; [|split]].
    + apply list_lookup_insert_eq. rewrite length_insert, length_app.
      simpl. lia.
    + simpl. apply Hnodup'. lia.
    + simpl. intros c Hc. apply elem_of_app in Hc as [Hc|Hc].
      * destruct (Hkids c Hc) as (it & Hit & Hp).
        pose proof (Hlt c Hc) as Hclt.
        destruct (decide (c = DiveTripModel.rootItem m)) as [->|Hcr].
        -- eexists. split; [apply list_lookup_insert_eq;
                            rewrite length_insert, length_app; simpl; lia|].
           simpl. congruence.
        -- exists it. split; [|done].
           rewrite !list_lookup_insert_ne by lia.
           by apply lookup_app_l_Some.
      * apply list_elem_of_singleton in Hc as ->.
        eexists. split.
        -- rewrite list_lookup_insert_ne by lia.
           apply list_lookup_insert_eq. rewrite length_app. simpl. lia.
        -- done.
    + intros t' a' Ht'. destruct (Htrips t' a' Ht') as [? ?].
      split; [done|]. rewrite !length_insert, length_app. lia.
Qed.

Lemma walk_well_formed (update : dive -> dive) (i : nat) :
  forall (m m' : DiveTripModel.model) (s s' : store),
    DiveTripModel.walk update i (m, s) = Ok (m', s') ->
    rows_well_formed m -> rows_well_formed m'.
Proof.
  induction i as [|i IH]; intros m m' s s' Hrun Hwf; simpl in Hrun.
  - by injection Hrun as <- <-.
  - apply bind_Ok in Hrun as ([m1 s1] & Hv & Hrun).
    apply visit_well_formed in Hv; [|done]. by eapply IH.
Qed.

Lemma indexOf_NoDup (l : list addr) :
  forall (r : nat) (a : addr) (i : Z),
    NoDup l -> l !! r = Some a -> TreeModel.indexOf l a i = i + Z.of_nat r.
Proof.
  induction l as [|x l IH]; intros r a i Hnd Hr; [done|].
  apply NoDup_cons in Hnd as [Hx Hnd].
  destruct r as [|r]; simpl in Hr; simpl.
  - injection Hr as ->. rewrite Nat.eqb_refl. lia.
  - destruct (Nat.eqb_spec x a) as [->|Hne].
    + destruct Hx. by eapply list_elem_of_lookup_2.
    + rewrite (IH r a (i + 1)) by done. lia.
Qed.

(** X20.  A build keeps the rows of the dive list well formed (a new model
    is well formed).  After it, for every row [r] below the row count and
    every column of the model, [TreeModel::index] under the root is the
    valid index of row [r] pointing to the [r]-th child of the root, and
    [TreeItem::row] of that child is [r] again; for a row or a column out of
    range it is the invalid index. *)
Theorem DiveTripModel_root_rows_addressed
    (autogroup_dives : list dive -> list dive) (update : dive -> dive)
    (m m' : DiveTripModel.model) (s s' : store) :
  rows_well_formed m ->
  DiveTripModel.setupModelData autogroup_dives update m s = Ok (m', s') ->
  rows_well_formed m'
  /\ (forall (r : nat) (a : addr),
        TreeModel.children_of (DiveTripModel.rootItem m')
          (DiveTripModel.items m') !! r = Some a ->
        TreeModel.row a (DiveTripModel.items m') = Ok (Z.of_nat r)
        /\ forall c, 0 <= c < DiveTripModel.columns m' ->
             TreeModelIndex.index (DiveTripModel.rootItem m')
               (DiveTripModel.columns m') (DiveTripModel.items m')
               (Z.of_nat r) c invalidIndex
             = Ok (TreeModelIndex.createIndex (Z.of_nat r) c a))
  /\ (forall r c n,
        DiveTripModel.rowCount m' = Ok n ->
        ~ (0 <= r < n /\ 0 <= c < DiveTripModel.columns m') ->
        TreeModelIndex.index (DiveTripModel.rootItem m')
          (DiveTripModel.columns m') (DiveTripModel.items m') r c invalidIndex
        = Ok invalidIndex).
Proof.
  intros Hwf Hrun.
  assert (rows_well_formed m') as Hwf'.
  { unfold DiveTripModel.setupModelData in Hrun.
    apply bind_Ok in Hrun as (n & Hn & Hrun).
    apply bind_Ok in Hrun as ([m1 s1] & Hwalk & Hrun).
    apply bind_Ok in Hrun as (n' & Hn' & Hrun).
    apply walk_well_formed in Hwalk; [|by destruct (n =? 0)].
    injection Hrun as <- <-. by destruct (n' =? 0). }
  split; [done|].
  destruct Hwf' as (rit & Hrit & Hnodup & Hkids & _).
  unfold TreeModel.children_of. rewrite Hrit.
  split.
  - intros r a Hr.
    destruct (Hkids a) as (it & Hit & Hp); [by eapply list_elem_of_lookup_2|].
    split.
    + unfold TreeModel.row. rewrite Hit. simpl. rewrite Hp, Hrit. simpl.
      by rewrite (indexOf_NoDup _ r a 0).
    + intros c Hc.
      unfold TreeModelIndex.index, TreeModelIndex.hasIndex,
        TreeModelIndex.rowCount, TreeModelIndex.parentItem_of.
      simpl. rewrite Hrit. simpl.
      rewrite (proj2 (Z.ltb_ge (Z.of_nat r) 0)) by lia.
      rewrite (proj2 (Z.ltb_ge c 0)) by lia. simpl.
      apply lookup_lt_Some in Hr as Hlt.
      rewrite (proj2 (Z.ltb_lt (Z.of_nat r) _)) by lia.
      rewrite (proj2 (Z.ltb_lt c _)) by lia. simpl.
      unfold QList_at. rewrite (proj2 (Z.ltb_ge (Z.of_nat r) 0)) by lia.
      rewrite Nat2Z.id, Hr. reflexivity.
  - intros r c n Hn Hout.
    unfold DiveTripModel.rowCount, TreeModel.rowCount in Hn.
    rewrite Hrit in Hn. simpl in Hn. injection Hn as <-.
    unfold TreeModelIndex.index, TreeModelIndex.hasIndex,
      TreeModelIndex.rowCount, TreeModelIndex.parentItem_of.
    simpl. rewrite Hrit. simpl.
    destruct (Z.ltb_spec r 0); simpl; [done|].
    destruct (Z.ltb_spec c 0); simpl; [done|].
    destruct (Z.ltb_spec r (Z.of_nat (length (TreeModel.children rit))));
      simpl; [|done].
    destruct (Z.ltb_spec c (DiveTripModel.columns m')); simpl; [lia|done].
Qed.

(** The theorem at the grouped build of the example store on a new model:
    the third row is the item of trip [T1]. *)
Lemma DiveTripModel_root_rows_addressed_witness :
  exists m' s',
    DiveTripModel.setLayout (fun t => t) (fun d => d) DiveTripModel.TREE
      (DiveTripModel.init DiveTripModel.TREE false) (example_store 1 2 3 4 1 2)
    = Ok (m', s')
    /\ TreeModel.row 5 (DiveTripModel.items m') = Ok 2
    /\ TreeModelIndex.index (DiveTripModel.rootItem m')
         (DiveTripModel.columns m') (DiveTripModel.items m') 2 0 invalidIndex
       = Ok (TreeModelIndex.createIndex 2 0 5).
Proof.
  destruct (DiveTripModel.setLayout (fun t => t) (fun d => d)
              DiveTripModel.TREE (DiveTripModel.init DiveTripModel.TREE false)
              (example_store 1 2 3 4 1 2)) as [[m' s']|] eqn:Hrun;
    [|vm_compute in Hrun; discriminate].
  exists m', s'. split; [reflexivity|].
  destruct (DiveTripModel_root_rows_addressed (fun t => t) (fun d => d)
              (DiveTripModel.mkModel
                 (DiveTripModel.items
                    (DiveTripModel.init DiveTripModel.TREE false))
                 0 14 ∅ DiveTripModel.TREE false [])
              m' (example_store 1 2 3 4 1 2) s')
    as (_ & Hrows & _).
  - eexists. split; [reflexivity|]. simpl.
    split; [apply NoDup_nil_2|].
    split; [intros c Hc; by apply elem_of_nil in Hc|].
    intros t a Ht. by rewrite lookup_empty in Ht.
  - exact Hrun.
  - vm_compute in Hrun. injection Hrun as <- <-.
    destruct (Hrows 2%nat 5%nat eq_refl) as [Hrow Hindex].
    split; [exact Hrow|]. apply (Hindex 0). simpl. lia.
Defined.

(** ** Yearly statistics: faults, array bounds and the trip node *)

(** X21.  [YearStatisticsItem::data] returns for every column and every
    role, with one exception: the display role of the average-time column
    of an interval without dives, where it divides by zero. *)
Theorem YearStatisticsItem_data_faults_only_on_zero_count
    (get_temp_units : Z -> float) (s : stats_t) (column role : Z) :
  YearStatisticsItem.data get_temp_units s column role = Fault
  <-> role = Qt.DisplayRole /\ column = YearStatisticsItem.AVERAGE_TIME
      /\ selection_size s = 0.
Proof.
  split.
  - unfold YearStatisticsItem.data. intros H.
    destruct (role =? Qt.FontRole); [done|].
    destruct (Z.eqb_spec role Qt.DisplayRole) as [Hr|Hr]; simpl in H; [|done].
    destruct (column =? YearStatisticsItem.YEAR);
      [by destruct (is_trip s)|].
    destruct (column =? YearStatisticsItem.DIVES); [done|].
    destruct (column =? YearStatisticsItem.TOTAL_TIME); [done|].
    destruct (Z.eqb_spec column YearStatisticsItem.AVERAGE_TIME) as [Hc|Hc].
    + unfold YearStatisticsItem.int_div in H.
      destruct (Z.eqb_spec (selection_size s) 0); [done|]. done.
    + repeat match type of H with
             | context [if ?b then _ else _] => destruct b; try discriminate H
             end.
  - intros (-> & -> & Hz). unfold YearStatisticsItem.data,
      YearStatisticsItem.int_div. simpl. by rewrite Hz.
Qed.

Lemma month_loop_fault (ms : list stats_t) :
  forall (c size : Z) (item : addr) (month : nat) (h : TreeModel.heap)
         (it : TreeModel.TreeItem),
    h !! item = Some it ->
    (forall m, m ∈ ms -> 0 <= selection_size m) ->
    0 <= c ->
    c + total_dives ms < size ->
    size <= YearlyStatisticsModel.uint_max ->
    YearlyStatisticsModel.month_loop ms c size item month h = Fault.
Proof.
  induction ms as [|m ms IH];
    intros c size item month h it Hit Hpos Hc Hlt Hmax; simpl in *.
  - by rewrite (proj2 (Z.ltb_lt c size)) by lia.
  - assert (0 <= selection_size m) as Hm
      by (apply Hpos; apply list_elem_of_here).
    assert (forall m', m' ∈ ms -> 0 <= selection_size m') as Hpos'.
    { intros m' Hm'. apply Hpos. by apply list_elem_of_further. }
    pose proof (total_dives_nonneg ms Hpos') as Htot.
    assert (item < length h)%nat as Hitem by (eapply lookup_lt_Some; eauto).
    rewrite (proj2 (Z.ltb_lt c size)) by lia.
    rewrite Z.mod_small by lia.
    unfold TreeModel.push_back at 1.
    rewrite lookup_app_l by lia. rewrite Hit. simpl.
    unfold TreeModel.set_parent at 1.
    rewrite list_lookup_insert_ne by lia.
    rewrite lookup_app_r by lia. rewrite Nat.sub_diag. simpl.
    eapply IH; [|done|lia|lia|done].
    rewrite list_lookup_insert_ne by lia.
    apply list_lookup_insert_eq. rewrite length_app. simpl. lia.
Qed.

(** X22.  When the dive counts of the monthly buckets left from the month
    counter on add up to less than the dive count of a year, the loop over
    the months of that year reads past the end of the monthly array: the
    build faults. *)
Theorem year_loop_runs_off_the_months
    (y : stats_t) (ys stats_monthly : list stats_t) (month : nat)
    (root : addr) (h : TreeModel.heap) :
  period y <> 0 ->
  (forall m, m ∈ drop month stats_monthly -> 0 <= selection_size m) ->
  total_dives (drop month stats_monthly) < selection_size y ->
  selection_size y <= YearlyStatisticsModel.uint_max ->
  YearlyStatisticsModel.year_loop (y :: ys) stats_monthly month root h = Fault.
Proof.
  intros Hper Hpos Hlt Hmax. simpl.
  rewrite (proj2 (Z.eqb_neq _ _) Hper).
  rewrite (month_loop_fault _ 0 (selection_size y) (length h) month
             (h ++ [TreeModel.mkTreeItem (TreeModel.YearStatisticsItem y)
                      None []])
             (TreeModel.mkTreeItem (TreeModel.YearStatisticsItem y) None []));
    [done| |done|lia|lia|done].
  rewrite lookup_app_r by lia. by rewrite Nat.sub_diag.
Qed.

(** The theorem at a year of three dives facing two monthly buckets of one
    dive each. *)
Lemma year_loop_runs_off_the_months_witness :
  YearlyStatisticsModel.update_yearly_stats
    (YearlyStatisticsModel.mkGlobals (Some [bucket 2014 3; bucket 0 0])
       (Some [bucket 1 1; bucket 2 1]) None)
    YearlyStatisticsModel.init = Fault.
Proof.
  unfold YearlyStatisticsModel.update_yearly_stats. simpl default.
  cbn [YearlyStatisticsModel.stats_yearly].
  rewrite (year_loop_runs_off_the_months (bucket 2014 3) [bucket 0 0]
             [bucket 1 1; bucket 2 1] 0 0).
  - reflexivity.
  - simpl. lia.
  - intros m Hm. simpl in Hm. apply list_elem_of_In in Hm. simpl in Hm.
    repeat (destruct Hm as [<- | Hm]; [simpl; lia|]). destruct Hm.
  - vm_compute. reflexivity.
  - vm_compute. discriminate.
Defined.

Lemma month_loop_grows (ms : list stats_t) :
  forall (c size : Z) (item : addr) (month month' : nat)
         (h h' : TreeModel.heap),
    YearlyStatisticsModel.month_loop ms c size item month h = Ok (h', month') ->
    grows h h'.
Proof.
  induction ms as [|m ms IH]; intros c size item month month' h h' Hrun;
    simpl in Hrun.
  - destruct (c <? size); [done|]. injection Hrun as <- _. apply grows_refl.
  - destruct (c <? size); [|injection Hrun as <- _; apply grows_refl].
    apply bind_Ok in Hrun as (h1 & H1 & Hrun).
    apply bind_Ok in Hrun as (h2 & H2 & Hrun).
    apply IH in Hrun.
    apply (grows_trans _ h2); [|done]. grows_chain.
Qed.

Lemma year_loop_grows (ys : list stats_t) :
  forall (stats_monthly : list stats_t) (month month' : nat) (root : addr)
         (h h' : TreeModel.heap),
    YearlyStatisticsModel.year_loop ys stats_monthly month root h
    = Ok (h', month') ->
    grows h h'.
Proof.
  induction ys as [|y ys IH]; intros monthly month month' root h h' Hrun;
    simpl in Hrun; [done|].
  destruct (period y =? 0); [injection Hrun as <- _; apply grows_refl|].
  apply bind_Ok in Hrun as ([hm mo] & Hm & Hrun).
  apply bind_Ok in Hrun as (h1 & H1 & Hrun).
  apply bind_Ok in Hrun as (h2 & H2 & Hrun).
  apply IH in Hrun. apply month_loop_grows in Hm. simpl in H1.
  apply (grows_trans _ h2); [|done]. grows_chain.
  apply (grows_trans _ (h ++ [TreeModel.mkTreeItem
                                (TreeModel.YearStatisticsItem y) None []]));
    [|done]. grows_chain.
Qed.

(** The loop over the trip statistics on a valid [item]: it gives each
    entry up to the first one that is no trip a fresh item and appends these
    items to the children of [item]. *)
Lemma trip_loop_spec (trips : list stats_t) :
  forall (tend : stats_t) (rest : list stats_t) (item : addr)
         (h : TreeModel.heap) (it : TreeModel.TreeItem),
    h !! item = Some it ->
    Forall (fun t => is_trip t = true) trips ->
    is_trip tend = false ->
    exists h',
      YearlyStatisticsModel.trip_loop (trips ++ tend :: rest) item h = Ok h'
      /\ h' !! item
         = Some (TreeModel.mkTreeItem (TreeModel.kind it) (TreeModel.parent it)
                   (TreeModel.children it ++ seq (length h) (length trips)))
      /\ length h' = (length h + length trips)%nat
      /\ (forall x, (x < length h)%nat -> x <> item -> h' !! x = h !! x)
      /\ (forall j t, trips !! j = Some t ->
          h' !! (length h + j)%nat
          = Some (TreeModel.mkTreeItem (TreeModel.YearStatisticsItem t)
                    (Some item) [])).
Proof.
  induction trips as [|t trips IH]; intros tend rest item h it Hit Hall Hend.
  - exists h. simpl. rewrite Hend, app_nil_r, Nat.add_0_r. destruct it.
    repeat split; done.
  - apply Forall_cons_1 in Hall as [Ht Hall].
    assert (item < length h)%nat as Hitem by (eapply lookup_lt_Some; eauto).
    simpl YearlyStatisticsModel.trip_loop. rewrite Ht.
    unfold TreeModel.push_back at 1.
    rewrite lookup_app_l by lia. rewrite Hit. simpl.
    unfold TreeModel.set_parent at 1.
    rewrite list_lookup_insert_ne by lia.
    rewrite lookup_app_r by lia. rewrite Nat.sub_diag. simpl.
    set (h3 := <[length h := _]> (<[item := _]> (h ++ [_]))).
    assert (length h3 = S (length h)) as Hlen3.
    { unfold h3. rewrite !length_insert, length_app. simpl. lia. }
    assert (h3 !! item
            = Some (TreeModel.mkTreeItem (TreeModel.kind it)
                      (TreeModel.parent it)
                      (TreeModel.children it ++ [length h]))) as Hit3.
    { unfold h3. rewrite list_lookup_insert_ne by lia.
      apply list_lookup_insert_eq. rewrite length_app. simpl. lia. }
    destruct (IH tend rest item h3 _ Hit3 Hall Hend)
      as (h' & Hrun & Hitem' & Hlen' & Hold & Hnew).
    exists h'. simpl in Hitem'. split; [exact Hrun|].
    split; [|split; [|split]].
    + rewrite Hitem', Hlen3. simpl. by rewrite <- app_assoc.
    + simpl. lia.
    + intros x Hx Hne. rewrite Hold by lia.
      unfold h3. rewrite !list_lookup_insert_ne by lia.
      apply lookup_app_l. lia.
    + intros j t' Hj. destruct j as [|j]; simpl in Hj.
      * injection Hj as <-. rewrite Nat.add_0_r. rewrite Hold by lia.
        unfold h3. apply list_lookup_insert_eq.
        rewrite length_insert, length_app. simpl. lia.
      * replace (length h + S j)%nat with (length h3 + j)%nat by lia.
        by apply Hnew.
Qed.

(** X23.  The trip half of [update_yearly_stats].  When the trip array
    starts with a trip entry [t0], followed by the trip entries [trips] and
    then by an entry that is no trip, the build appends one item for [t0] to
    the root, after the year items, and the children of that item are the
    entries [trips], in order: trips are never put under a year.  The month
    counter is that of the year half. *)
Theorem update_yearly_stats_trip_node
    (g : YearlyStatisticsModel.stats_globals)
    (m : YearlyStatisticsModel.model) (hm : TreeModel.heap) (month : nat)
    (rit : TreeModel.TreeItem) (t0 tend : stats_t) (trips rest : list stats_t) :
  YearlyStatisticsModel.items m !! YearlyStatisticsModel.rootItem m
  = Some rit ->
  year_part g m = Ok (hm, month) ->
  YearlyStatisticsModel.stats_by_trip g = Some (t0 :: trips ++ tend :: rest) ->
  is_trip t0 = true ->
  Forall (fun t => is_trip t = true) trips ->
  is_trip tend = false ->
  exists m',
    YearlyStatisticsModel.update_yearly_stats g m = Ok (m', month)
    /\ TreeModel.children_of (YearlyStatisticsModel.rootItem m)
         (YearlyStatisticsModel.items m')
       = TreeModel.children_of (YearlyStatisticsModel.rootItem m) hm
         ++ [length hm]
    /\ TreeModel.kind <$> YearlyStatisticsModel.items m' !! length hm
       = Some (TreeModel.YearStatisticsItem t0)
    /\ YearlyStatisticsModel.child_stats (length hm)
         (YearlyStatisticsModel.items m')
       = Some <$> trips.
Proof.
  intros Hroot Hyear Htrip Ht0 Hall Hend.
  assert (grows (YearlyStatisticsModel.items m) hm) as Hg.
  { unfold year_part in Hyear.
    destruct (YearlyStatisticsModel.stats_yearly g) as [ys|].
    - by eapply year_loop_grows.
    - injection Hyear as <- _. apply grows_refl. }
  destruct (Hg _ _ Hroot) as (ritm & Hrootm & _).
  assert (YearlyStatisticsModel.rootItem m < length hm)%nat as Hrlt
    by (eapply lookup_lt_Some; eauto).
  set (it := TreeModel.mkTreeItem (TreeModel.YearStatisticsItem t0) None []).
  assert ((hm ++ [it]) !! length hm = Some it) as Hit.
  { rewrite lookup_app_r by lia. by rewrite Nat.sub_diag. }
  destruct (trip_loop_spec trips tend rest (length hm) (hm ++ [it]) it
              Hit Hall Hend)
    as (h2 & Hrun & Hitem & Hlen & Hold & Hnew).
  rewrite length_app in Hitem, Hlen, Hold, Hnew. simpl in Hitem, Hlen.
  assert (h2 !! YearlyStatisticsModel.rootItem m = Some ritm) as Hroot2.
  { rewrite Hold by (simpl; lia). by rewrite lookup_app_l by lia. }
  eexists. split.
  { unfold YearlyStatisticsModel.update_yearly_stats.
    fold (year_part g m). rewrite Hyear. simpl. rewrite Htrip, Ht0.
    fold it. rewrite Hrun. simpl.
    unfold TreeModel.push_back. rewrite Hroot2. simpl.
    unfold TreeModel.set_parent.
    rewrite list_lookup_insert_ne by lia. rewrite Hitem. simpl.
    reflexivity. }
  simpl. split; [|split].
  - unfold TreeModel.children_of.
    rewrite list_lookup_insert_ne by lia.
    rewrite list_lookup_insert_eq by (rewrite Hlen; lia).
    by rewrite Hrootm.
  - rewrite list_lookup_insert_eq by (rewrite length_insert, Hlen; lia).
    reflexivity.
  - unfold YearlyStatisticsModel.child_stats, TreeModel.children_of.
    rewrite list_lookup_insert_eq by (rewrite length_insert, Hlen; lia).
    simpl TreeModel.children.
    apply list_eq. intros j. rewrite !list_lookup_fmap.
    destruct (trips !! j) as [t|] eqn:Ht.
    + apply lookup_lt_Some in Ht as Hj.
      rewrite lookup_seq_lt by done. simpl.
      rewrite list_lookup_insert_ne by lia.
      rewrite list_lookup_insert_ne by lia.
      pose proof (Hnew j t Ht) as Hnew_j. simpl length in Hnew_j.
      by rewrite Hnew_j.
    + apply lookup_ge_None in Ht. by rewrite lookup_seq_ge by lia.
Qed.

(** The theorem at a model with only its root, no year, and the trip array
    "all trips", two trips, end. *)
Lemma update_yearly_stats_trip_node_witness :
  exists m',
    YearlyStatisticsModel.update_yearly_stats
      (YearlyStatisticsModel.mkGlobals None None
         (Some [with_is_trip (bucket 0 3); with_is_trip (bucket 0 1);
                with_is_trip (bucket 0 2); bucket 0 0]))
      YearlyStatisticsModel.init = Ok (m', 0%nat)
    /\ TreeModel.children_of 0 (YearlyStatisticsModel.items m') = [1%nat]
    /\ TreeModel.kind <$> YearlyStatisticsModel.items m' !! 1%nat
       = Some (TreeModel.YearStatisticsItem (with_is_trip (bucket 0 3)))
    /\ YearlyStatisticsModel.child_stats 1 (YearlyStatisticsModel.items m')
       = [Some (with_is_trip (bucket 0 1)); Some (with_is_trip (bucket 0 2))].
Proof.
  apply (update_yearly_stats_trip_node
           (YearlyStatisticsModel.mkGlobals None None
              (Some [with_is_trip (bucket 0 3); with_is_trip (bucket 0 1);
                     with_is_trip (bucket 0 2); bucket 0 0]))
           YearlyStatisticsModel.init
           (YearlyStatisticsModel.items YearlyStatisticsModel.init) 0
           (TreeModel.mkTreeItem TreeModel.PlainItem None [])
           (with_is_trip (bucket 0 3)) (bucket 0 0)
           [with_is_trip (bucket 0 1); with_is_trip (bucket 0 2)] []).
  - reflexivity.
  - reflexivity.
  - reflexivity.
  - reflexivity.
  - repeat constructor.
  - reflexivity.
Defined.
